(** * Beckn-ONIX adapter: request pipeline, auth header codec, response encoder

    A shallow embedding of
      - core/module/handler/step.go          (sign, validateSign, parseHeader, ...)
      - core/module/handler/postResponse.go  (ServeHTTP, route, RegisterPostResponseHook)
      - pkg/response                         (SendBody, SendAck, nack, SendNack)
      - the schema validator plugin          (schemaValidator.Validate)
    followed by the properties of the specification that concern them
    (Part II), and of
      - the ONDC validator and workbench steps of step.go,
      - the construction of the handler      (initPlugins, initSteps),
      - the index of schema files            (schemaValidator.initialise)
    with further properties of all of the modelled code (Part III).

    Go strings are byte sequences: they are modelled by [string], whose
    characters ([ascii]) are the bytes.  Go's [error] values are an inductive
    type that keeps the wrapping chain.  Calls that leave the process
    (plugins, HTTP client, clock) are recorded in an explicit [World]. *)

From Stdlib Require Import String Ascii List ZArith Lia Bool DecimalString.
From stdpp Require Import gmap strings.
Import ListNotations.

Local Open Scope string_scope.
Local Open Scope list_scope.

(* ===================================================================== *)
(** * Part I.  Definitions                                                *)
(* ===================================================================== *)

(** ** Go's [strings] package, as far as the handler uses it *)

Module GoStrings.

(** The byte with code [n]. *)
Definition byte (n : nat) : ascii := ascii_of_nat n.

Definition byte_eqb (c : ascii) (n : nat) : bool := Ascii.eqb c (byte n).

(** [s[n:]] *)
Fixpoint drop (n : nat) (s : string) : string :=
  match n, s with
  | O, _ => s
  | S k, String _ r => drop k r
  | S _, EmptyString => EmptyString
  end.

(** [s[:n]] *)
Fixpoint take (n : nat) (s : string) : string :=
  match n, s with
  | O, _ => EmptyString
  | S k, String c r => String c (take k r)
  | S _, EmptyString => EmptyString
  end.

(** [strings.HasPrefix(s, prefix)] *)
Fixpoint HasPrefix (s prefix : string) {struct prefix} : bool :=
  match prefix with
  | EmptyString => true
  | String a p =>
      match s with
      | EmptyString => false
      | String b r => Ascii.eqb a b && HasPrefix r p
      end
  end.

(** [strings.Index(s, sep)]; Go's [-1] is [None]. *)
Fixpoint Index (s sep : string) : option nat :=
  if HasPrefix s sep then Some O
  else match s with
       | EmptyString => None
       | String _ r => option_map S (Index r sep)
       end.

(** [strings.Split(s, sep)] for a one-byte separator [sep]: one more
    component than there are separators, splitting the empty string gives one empty component. *)
Fixpoint Split (s : string) (sep : ascii) : list string :=
  match s with
  | EmptyString => [EmptyString]
  | String c r =>
      if Ascii.eqb c sep then EmptyString :: Split r sep
      else match Split r sep with
           | h :: t => String c h :: t
           | [] => [String c EmptyString]
           end
  end.

(** The table [asciiSpace] of strings.go: tab, LF, VT, FF, CR, space. *)
Definition asciiSpace (c : ascii) : bool :=
  byte_eqb c 9 || byte_eqb c 10 || byte_eqb c 11 || byte_eqb c 12
  || byte_eqb c 13 || byte_eqb c 32.

(** [unicode.IsSpace] on the runes that take two bytes in UTF-8:
    U+0085 (C2 85) and U+00A0 (C2 A0). *)
Definition space2 (c d : ascii) : bool :=
  byte_eqb c 194 && (byte_eqb d 133 || byte_eqb d 160).

(** ... and on those that take three: U+1680 (E1 9A 80), U+2000..U+200A
    (E2 80 80..8A), U+2028, U+2029 (E2 80 A8, A9), U+202F (E2 80 AF),
    U+205F (E2 81 9F), U+3000 (E3 80 80). *)
Definition space3 (c d e : ascii) : bool :=
  (byte_eqb c 225 && byte_eqb d 154 && byte_eqb e 128)
  || (byte_eqb c 226 && byte_eqb d 128
      && ((128 <=? nat_of_ascii e)%nat && (nat_of_ascii e <=? 138)%nat
          || byte_eqb e 168 || byte_eqb e 169 || byte_eqb e 175))
  || (byte_eqb c 226 && byte_eqb d 129 && byte_eqb e 159)
  || (byte_eqb c 227 && byte_eqb d 128 && byte_eqb e 128).

(** Strip white-space runes from the front.  [p2] and [p3] recognise the
    two- and three-byte runes in the order the bytes are met. *)
Fixpoint trim_front (p2 : ascii -> ascii -> bool)
  (p3 : ascii -> ascii -> ascii -> bool) (s : string) : string :=
  match s with
  | EmptyString => EmptyString
  | String c r =>
      if asciiSpace c then trim_front p2 p3 r
      else match r with
           | EmptyString => s
           | String d r2 =>
               if p2 c d then trim_front p2 p3 r2
               else match r2 with
                    | EmptyString => s
                    | String e r3 =>
                        if p3 c d e then trim_front p2 p3 r3 else s
                    end
           end
  end.

Fixpoint rev_onto (s acc : string) : string :=
  match s with
  | EmptyString => acc
  | String c r => rev_onto r (String c acc)
  end.

Definition rev (s : string) : string := rev_onto s EmptyString.

(** [strings.TrimLeftFunc(s, unicode.IsSpace)] *)
Definition TrimLeftSpace (s : string) : string := trim_front space2 space3 s.

(** [strings.TrimRightFunc(s, unicode.IsSpace)]: the same scan on the
    reversed bytes, where a rune's bytes are met last to first. *)
Definition TrimRightSpace (s : string) : string :=
  rev (trim_front (fun d c => space2 c d) (fun e d c => space3 c d e) (rev s)).

(** [strings.TrimSpace] *)
Definition TrimSpace (s : string) : string := TrimRightSpace (TrimLeftSpace s).

(** [strings.ReplaceAll(s, old, new)] for one-byte [old] and [new]. *)
Fixpoint ReplaceAll (s : string) (old new : ascii) : string :=
  match s with
  | EmptyString => EmptyString
  | String c r => String (if Ascii.eqb c old then new else c) (ReplaceAll r old new)
  end.

(** The verb [%d] of [fmt] on an [int64]. *)
Definition fmt_d (z : Z) : string := NilZero.string_of_int (Z.to_int z).

(** [c] occurs in [s]. *)
Fixpoint contains_byte (c : ascii) (s : string) : bool :=
  match s with
  | EmptyString => false
  | String d r => Ascii.eqb d c || contains_byte c r
  end.

End GoStrings.

(** ** pkg/model: the wire types and the error kinds *)

Module Model.

(** Modelled from the spec: the package pkg/model is not part of the
    sources at hand.  The handler and the response encoder read and write
    the fields below; the NACK layout is that of the spec
    ([message.ack.status], [error.code], [error.message], optional
    [context]).  [Error_Context] stands for the value behind [err.Context];
    [None] is Go's [nil]. *)
Record Error := {
  Error_Code : string;
  Error_Paths : string;
  Error_Message : string;
  Error_Context : option string
}.

Definition StatusACK : string := "ACK".
Definition StatusNACK : string := "NACK".

Record Ack := { Ack_Status : string }.

(** [Message_Error] is the field that [resp.Message.Error.Message] of
    [nack] assigns to. *)
Record Message := {
  Message_Ack : Ack;
  Message_Error : Error
}.

Record Response := {
  Response_Message : Message;
  Response_Error : option Error;
  Response_Context : option string
}.

Definition zeroError : Error :=
  {| Error_Code := EmptyString; Error_Paths := EmptyString; Error_Message := EmptyString; Error_Context := None |}.

(** Go [error] values.  [errorString] is what [errors.New] and [fmt.Errorf]
    without [%w] build; [wrapError] is [fmt.Errorf(format, err)] with a [%w]
    verb, which keeps [err] as the cause.  The other constructors are the
    typed kinds of pkg/model. *)
Inductive error : Type :=
| errorString (text : string)
| wrapError (format : string) (err : error)
| SchemaValidationErr (Errors : list Error)
| SignValidationErr (err : error)
| BadReqErr (err : error)
| NotFoundErr (err : error)
| WorkbenchErr (Behavior : string) (Err : Error).

Definition NewBadReqErr (e : error) : error := BadReqErr e.
Definition NewSignValidationErr (e : error) : error := SignValidationErr e.

Inductive Kind := KWorkbench | KSchema | KSign | KBadReq | KNotFound.

Definition Kind_eqb (a b : Kind) : bool :=
  match a, b with
  | KWorkbench, KWorkbench | KSchema, KSchema | KSign, KSign
  | KBadReq, KBadReq | KNotFound, KNotFound => true
  | _, _ => false
  end.

(** The dynamic type of an error value, when it is one of the typed kinds. *)
Definition kind_of (e : error) : option Kind :=
  match e with
  | errorString _ | wrapError _ _ => None
  | SchemaValidationErr _ => Some KSchema
  | SignValidationErr _ => Some KSign
  | BadReqErr _ => Some KBadReq
  | NotFoundErr _ => Some KNotFound
  | WorkbenchErr _ _ => Some KWorkbench
  end.

Definition has_kind (k : Kind) (e : error) : bool :=
  match kind_of e with
  | Some k' => Kind_eqb k k'
  | None => false
  end.

(** What the absent package decides and the code under study only uses:
    the Beckn form of each typed error, whether the typed errors that carry
    a cause expose it to [errors.Unwrap], and the header names. *)
Record Pkg := {
  typed_unwrap : bool;
  Schema_BecknError : list Error -> Error;
  Sign_BecknError : error -> Error;
  BadReq_BecknError : error -> Error;
  NotFound_BecknError : error -> Error;
  Workbench_BecknError : string -> Error -> Error;
  AuthHeaderSubscriber : string;
  AuthHeaderGateway : string;
  UnaAuthorizedHeaderGateway : string
}.

Definition RoleGateway : string := "gateway".

(** [errors.As(err, &target)] for a target of kind [k]: the first error of
    the chain whose dynamic type is [k]. *)
Fixpoint As (P : Pkg) (k : Kind) (e : error) : option error :=
  if has_kind k e then Some e
  else match e with
       | wrapError _ c => As P k c
       | SignValidationErr c | BadReqErr c | NotFoundErr c =>
           if typed_unwrap P then As P k c else None
       | _ => None
       end.

(** [e.BecknError()] on a typed error. *)
Definition BecknError (P : Pkg) (e : error) : Error :=
  match e with
  | SchemaValidationErr l => Schema_BecknError P l
  | SignValidationErr c => Sign_BecknError P e
  | BadReqErr c => BadReq_BecknError P e
  | NotFoundErr c => NotFound_BecknError P e
  | WorkbenchErr b x => Workbench_BecknError P b x
  | _ => zeroError
  end.

End Model.

(** ** net/http: headers, cookies, response writer *)

Module Http.

(** [http.Header]: canonical key to values.  Every key the code uses is
    already in canonical form. *)
Abbreviation Header := (gmap string (list string)).

Definition Header_Set (k v : string) (h : Header) : Header := <[k := [v]]> h.
Definition Header_Del (k : string) (h : Header) : Header := delete k h.
Definition Header_Get (k : string) (h : Header) : string :=
  match h !! k with
  | Some (v :: _) => v
  | _ => EmptyString
  end.

(** A decoded JSON document ([interface{}] after [json.Unmarshal]). *)
#[warnings="-register-all"]
Inductive JSON :=
| JNull
| JBool (b : bool)
| JNumber (literal : string)
| JString (s : string)
| JArray (items : list JSON)
| JObject (fields : list (string * JSON)).

(** What is handed to [w.Write]: [json.Marshal] of a value, kept symbolic,
    or plain text. *)
Inductive Payload :=
| MarshalResponse (r : Model.Response)
| MarshalJSON (j : JSON)
| Text (s : string).

(** The observable state of the [http.ResponseWriter] of a net/http
    server: the header map, the status line once it is written together
    with the headers sent with it, the chunks written, whether the
    connection refuses writes, whether [WriteHeader] panicked on a status
    outside 100..999, and the interim (1xx) responses sent before the
    status line, each with the headers sent with it. *)
Record ResponseWriter := {
  rw_header : Header;
  rw_status : option Z;
  rw_sent : Header;
  rw_body : list Payload;
  rw_broken : bool;
  rw_panicked : bool;
  rw_interim : list (Z * Header)
}.

Definition newResponseWriter (broken : bool) : ResponseWriter :=
  {| rw_header := ∅; rw_status := None; rw_sent := ∅; rw_body := [];
     rw_broken := broken; rw_panicked := false; rw_interim := [] |}.

Definition set_header (k v : string) (w : ResponseWriter) : ResponseWriter :=
  {| rw_header := Header_Set k v (rw_header w); rw_status := rw_status w;
     rw_sent := rw_sent w; rw_body := rw_body w; rw_broken := rw_broken w;
     rw_panicked := rw_panicked w; rw_interim := rw_interim w |}.

Definition del_header (k : string) (w : ResponseWriter) : ResponseWriter :=
  {| rw_header := Header_Del k (rw_header w); rw_status := rw_status w;
     rw_sent := rw_sent w; rw_body := rw_body w; rw_broken := rw_broken w;
     rw_panicked := rw_panicked w; rw_interim := rw_interim w |}.

(** [checkWriteHeaderCode] accepts the codes 100..999. *)
Definition valid_code (code : Z) : bool := (100 <=? code)%Z && (code <=? 999)%Z.

(** The codes that [WriteHeader] sends as interim responses: 1xx other
    than 101 Switching Protocols. *)
Definition informational (code : Z) : bool :=
  (100 <=? code)%Z && (code <=? 199)%Z && negb (code =? 101)%Z.

(** [bodyAllowedForStatus]: no body with 1xx, 204 and 304. *)
Definition bodyAllowedForStatus (status : Z) : bool :=
  if (100 <=? status)%Z && (status <=? 199)%Z then false
  else if (status =? 204)%Z then false
  else if (status =? 304)%Z then false
  else true.

(** The codes that end the response and carry a body. *)
Definition final_with_body (code : Z) : bool :=
  valid_code code && negb (informational code) && bodyAllowedForStatus code.

(** [w.WriteHeader(code)]: a call after the status line was written is
    superfluous and returns at once; otherwise a code outside 100..999
    panics, an informational code is sent as an interim response with the
    current headers and leaves the status line open, and any other code
    fixes the status and the headers. *)
Definition WriteHeader (code : Z) (w : ResponseWriter) : ResponseWriter :=
  match rw_status w with
  | Some _ => w
  | None =>
      if negb (valid_code code) then
        {| rw_header := rw_header w; rw_status := rw_status w; rw_sent := rw_sent w;
           rw_body := rw_body w; rw_broken := rw_broken w; rw_panicked := true;
           rw_interim := rw_interim w |}
      else if informational code then
        {| rw_header := rw_header w; rw_status := rw_status w; rw_sent := rw_sent w;
           rw_body := rw_body w; rw_broken := rw_broken w;
           rw_panicked := rw_panicked w;
           rw_interim := rw_interim w ++ [(code, rw_header w)] |}
      else
        {| rw_header := rw_header w; rw_status := Some code;
           rw_sent := rw_header w; rw_body := rw_body w;
           rw_broken := rw_broken w; rw_panicked := rw_panicked w;
           rw_interim := rw_interim w |}
  end.

(** A write of no bytes; [json.Marshal] never gives one. *)
Definition payload_empty (data : Payload) : bool :=
  match data with
  | Text EmptyString => true
  | _ => false
  end.

(** [w.Write(data)]: writes the status 200 first if no status line was
    written; a write of no bytes then succeeds; a status that allows no
    body refuses the bytes ([ErrBodyNotAllowed]), and so does a connection
    that refuses writes; [false] is a write that returned an error. *)
Definition Write (data : Payload) (w : ResponseWriter) : ResponseWriter * bool :=
  let w1 := WriteHeader 200 w in
  if payload_empty data then (w1, true)
  else if negb (match rw_status w1 with
                | Some status => bodyAllowedForStatus status
                | None => true
                end) then (w1, false)
  else if rw_broken w1 then (w1, false)
  else ({| rw_header := rw_header w1; rw_status := rw_status w1;
           rw_sent := rw_sent w1; rw_body := rw_body w1 ++ [data];
           rw_broken := rw_broken w1; rw_panicked := rw_panicked w1;
           rw_interim := rw_interim w1 |}, true).

(** [http.Error(w, msg, code)] *)
Definition Error (msg : string) (code : Z) (w : ResponseWriter) : ResponseWriter :=
  let w1 := del_header "Content-Length" w in
  let w2 := set_header "Content-Type" "text/plain; charset=utf-8" w1 in
  let w3 := set_header "X-Content-Type-Options" "nosniff" w2 in
  let w4 := WriteHeader code w3 in
  fst (Write (Text (msg ++ String (GoStrings.byte 10) EmptyString)) w4).

(** [r.Cookie(name)]: the first cookie of that name, [None] for
    [http.ErrNoCookie]. *)
Fixpoint Cookie (name : string) (cs : list (string * string)) : option string :=
  match cs with
  | [] => None
  | (n, v) :: rest => if String.eqb n name then Some v else Cookie name rest
  end.

End Http.

(** ** pkg/response: the response encoder *)

Module Response.
Import Model Http.

Section Encoder.

(** [encoding/json]: [json.Unmarshal] into an [interface{}]; [None] is a
    decoding error. *)
Variable Unmarshal : string -> option JSON.

Variable P : Model.Pkg.

(** [ctx.Value(model.ContextKeyMsgID)] printed with [%s]. *)
Definition fmt_MsgID (msgID : option string) : string :=
  match msgID with
  | Some s => s
  | None => "%!s(<nil>)"
  end.

Definition internal_error_text (msgID : option string) : string :=
  "Internal server error, MessageID: " ++ fmt_MsgID msgID.

(** [parseJSONOrDefault] *)
Definition parseJSONOrDefault (str : string) : JSON :=
  match Unmarshal str with
  | None => JObject [("message", JString str)]
  | Some result => result
  end.

(** [SendBody] on a string body.  [json.Marshal] cannot fail on a value
    that [parseJSONOrDefault] returns, so the first error branch of the
    source is never taken. *)
Definition SendBody (msgID : option string) (w : ResponseWriter) (body : string)
  : ResponseWriter :=
  let body := parseJSONOrDefault body in
  let w := set_header "Content-Type" "application/json" w in
  let w := WriteHeader 200 w in
  let '(w, ok) := Write (MarshalJSON body) w in
  if ok then w else Http.Error (internal_error_text msgID) 500 w.

Definition ackResponse : Response :=
  {| Response_Message :=
       {| Message_Ack := {| Ack_Status := StatusACK |}; Message_Error := zeroError |};
     Response_Error := None;
     Response_Context := None |}.

(** [SendAck] *)
Definition SendAck (w : ResponseWriter) : ResponseWriter :=
  let w := set_header "Content-Type" "application/json" w in
  let w := WriteHeader 200 w in
  let '(w, ok) := Write (MarshalResponse ackResponse) w in
  if ok then w else Http.Error "failed to write response" 500 w.

(** The response value that [nack] marshals. *)
Definition nackResponse (err : Model.Error) : Response :=
  let resp :=
    {| Response_Message :=
         {| Message_Ack := {| Ack_Status := StatusNACK |}; Message_Error := zeroError |};
       Response_Error :=
         Some {| Error_Code := Error_Code err; Error_Paths := EmptyString;
                 Error_Message := Error_Message err; Error_Context := None |};
       Response_Context := None |} in
  let resp :=
    match Error_Context err with
    | Some c =>
        {| Response_Message := Response_Message resp;
           Response_Error := Response_Error resp;
           Response_Context := Some c |}
    | None => resp
    end in
  if String.eqb (Error_Code err) "500" then
    {| Response_Message :=
         {| Message_Ack := Message_Ack (Response_Message resp);
            Message_Error :=
              {| Error_Code := Error_Code (Message_Error (Response_Message resp));
                 Error_Paths := Error_Paths (Message_Error (Response_Message resp));
                 Error_Message := "INTERNAL_SERVER_ERROR";
                 Error_Context := Error_Context (Message_Error (Response_Message resp)) |} |};
       Response_Error := Response_Error resp;
       Response_Context := Response_Context resp |}
  else resp.

(** [nack] *)
Definition nack (msgID : option string) (w : ResponseWriter) (err : Model.Error)
  (status : Z) : ResponseWriter :=
  let resp := nackResponse err in
  let w := set_header "Content-Type" "application/json" w in
  let w := WriteHeader status w in
  if rw_panicked w then w
  else
    let '(w, ok) := Write (MarshalResponse resp) w in
    if ok then w else Http.Error (internal_error_text msgID) 500 w.

(** [http.StatusText(http.StatusInternalServerError)] *)
Definition StatusText_500 : string := "Internal Server Error".

(** [internalServerError] *)
Definition internalServerError (msgID : option string) : Model.Error :=
  {| Error_Code := StatusText_500;
     Error_Paths := EmptyString;
     Error_Message := internal_error_text msgID;
     Error_Context := None |}.

(** [strconv.Atoi] with its error dropped, as [SendNack] uses it: the
    value of an optionally signed run of decimal digits, and 0 when the
    text is not one.  (Texts beyond the range of [int] give the extreme
    value in Go; both are outside 100..999.) *)
Fixpoint digits_value (s : string) (acc : Z) : option Z :=
  match s with
  | EmptyString => Some acc
  | String c r =>
      let n := nat_of_ascii c in
      if ((48 <=? n)%nat && (n <=? 57)%nat)%bool
      then digits_value r (10 * acc + Z.of_nat (n - 48))%Z
      else None
  end.

Definition Atoi (s : string) : Z :=
  match s with
  | EmptyString => 0%Z
  | String c r =>
      if GoStrings.byte_eqb c 45 then
        match r with
        | EmptyString => 0%Z
        | _ => match digits_value r 0 with Some v => (- v)%Z | None => 0%Z end
        end
      else if GoStrings.byte_eqb c 43 then
        match r with
        | EmptyString => 0%Z
        | _ => match digits_value r 0 with Some v => v | None => 0%Z end
        end
      else match digits_value s 0 with Some v => v | None => 0%Z end
  end.

(** [SendNack].  The [switch] has no fall-through: a workbench error whose
    behaviour is neither "NACK" nor "HTTP" writes nothing. *)
Definition SendNack (msgID : option string) (w : ResponseWriter) (err : Model.error)
  : ResponseWriter :=
  match As P KWorkbench err with
  | Some workbenchErr =>
      match workbenchErr with
      | WorkbenchErr behavior e =>
          if String.eqb behavior "NACK" then
            nack msgID w (BecknError P workbenchErr) 200
          else if String.eqb behavior "HTTP" then
            nack msgID w (BecknError P workbenchErr) (Atoi (Error_Code e))
          else w
      | _ => w
      end
  | None =>
  match As P KSchema err with
  | Some schemaErr => nack msgID w (BecknError P schemaErr) 200
  | None =>
  match As P KSign err with
  | Some signErr => nack msgID w (BecknError P signErr) 401
  | None =>
  match As P KBadReq err with
  | Some badReqErr => nack msgID w (BecknError P badReqErr) 400
  | None =>
  match As P KNotFound err with
  | Some notFoundErr => nack msgID w (BecknError P notFoundErr) 404
  | None => nack msgID w (internalServerError msgID) 500
  end end end end end.

End Encoder.

End Response.

(** ** The schema validator plugin *)

Module SchemaValidator.
Import Model Http.

(** The [payload] struct that [Validate] decodes the context into. *)
Record payload := {
  Domain : string;
  Version : string;
  CoreVersion : string
}.

(** One entry of [jsonschema.ValidationError.Causes]. *)
Record Cause := {
  InstanceLocation : list string;
  Cause_Error : string
}.

(** The outcomes of [schema.Validate(jsonData)]. *)
Inductive SchemaResult :=
| Valid
| ValidationError (Causes : list Cause)
| OtherError (text : string).

(** [strings.Join(elems, sep)] *)
Fixpoint Join (elems : list string) (sep : string) : string :=
  match elems with
  | [] => EmptyString
  | [x] => x
  | x :: rest => x ++ sep ++ Join rest sep
  end.

Section Validate.

(** The compiled-schema type of the jsonschema library. *)
Variable Schema : Type.

(** Library calls: [json.Unmarshal] into [payload] and into [any] (the
    left summand is the text of the decoding error), [path.Base(url.String())],
    [strings.ToLower], [compiler.Compile] and [schema.Validate]. *)
Variable Unmarshal_payload : string -> string + payload.
Variable Unmarshal_any : string -> string + JSON.
Variable path_Base : string -> string.
Variable ToLower : string -> string.
Variable Compile : string -> error + Schema.
Variable schema_Validate : Schema -> JSON -> SchemaResult.

Record schemaValidator := {
  schemaCache : gmap string Schema;
  schemaFiles : gmap string string
}.

(** The three ways [getCompiledSchema] returns: a schema, the error that
    wraps [errSchemaKeyNotFound], or the error that wraps a compile error. *)
Inductive Compiled :=
| CompiledSchema (s : Schema)
| KeyNotFound (schemaKey : string)
| CompileFailed (err : error).

(** [getCompiledSchema]; the locks protect the cache from other requests
    and do not change what one call computes. *)
Definition getCompiledSchema (v : schemaValidator) (schemaKey : string)
  : Compiled * schemaValidator :=
  match schemaCache v !! schemaKey with
  | Some schema => (CompiledSchema schema, v)
  | None =>
      match schemaFiles v !! schemaKey with
      | None => (KeyNotFound schemaKey, v)
      | Some schemaPath =>
          match Compile schemaPath with
          | inl err => (CompileFailed err, v)
          | inr compiledSchema =>
              (CompiledSchema compiledSchema,
               {| schemaCache := <[schemaKey := compiledSchema]> (schemaCache v);
                  schemaFiles := schemaFiles v |})
          end
      end
  end.

(** [schemaValidator.Validate]; [None] is a [nil] error. *)
Definition Validate (v : schemaValidator) (url : string) (data : string)
  : option error * schemaValidator :=
  match Unmarshal_payload data with
  | inl err =>
      (Some (NewBadReqErr (errorString ("failed to parse JSON payload: " ++ err))), v)
  | inr payloadData =>
      if String.eqb (Domain payloadData) EmptyString then
        (Some (NewBadReqErr (errorString "missing field Domain in context")), v)
      else if String.eqb (Version payloadData) EmptyString && String.eqb (CoreVersion payloadData) EmptyString then
        (Some (NewBadReqErr (errorString "missing field Version or CoreVersion in context")), v)
      else
        let version :=
          if String.eqb (Version payloadData) EmptyString then CoreVersion payloadData
          else Version payloadData in
        let cxtDomain := Domain payloadData in
        let version := ("v" ++ version)%string in
        let endpoint := path_Base url in
        let domain := ToLower cxtDomain in
        let domain := GoStrings.ReplaceAll domain ":" "_" in
        let schemaFileName := (domain ++ "_" ++ version ++ "_" ++ endpoint)%string in
        match getCompiledSchema v schemaFileName with
        | (KeyNotFound _, v) =>
            (Some (NewBadReqErr (errorString ("schema not found for domain: " ++ domain))), v)
        | (CompileFailed err, v) =>
            (Some (NewBadReqErr (wrapError "failed to compile JSON schema from file %s: %w" err)), v)
        | (CompiledSchema schema, v) =>
            match Unmarshal_any data with
            | inl err =>
                (Some (NewBadReqErr (errorString ("failed to parse JSON data: " ++ err))), v)
            | inr jsonData =>
                match schema_Validate schema jsonData with
                | Valid => (None, v)
                | ValidationError causes =>
                    let schemaErrors :=
                      List.map (fun cause =>
                        {| Error_Code := EmptyString;
                           Error_Paths := Join (InstanceLocation cause) ".";
                           Error_Message := Cause_Error cause;
                           Error_Context := None |}) causes in
                    (Some (SchemaValidationErr schemaErrors), v)
                | OtherError text =>
                    (Some (errorString ("validation failed: " ++ text)), v)
                end
            end
        end
  end.

End Validate.

End SchemaValidator.

(** ** core/module/handler *)

Module Handler.
Import Model Http.

(** *** The auth header codec (step.go) *)

(** The one-byte string holding a double quote (byte 34). *)
Definition dquote : string := String (GoStrings.byte 34) EmptyString.

Definition keyIdPrefix : string := ("keyId=" ++ dquote)%string.

(** [signStep.generateAuthHeader]: the [fmt.Sprintf] template written out. *)
Definition generateAuthHeader (subID keyID : string) (createdAt validTill : Z)
  (signature : string) : string :=
  ("Signature keyId=" ++ dquote ++ subID ++ "|" ++ keyID ++ "|ed25519" ++ dquote
   ++ ",algorithm=" ++ dquote ++ "ed25519" ++ dquote
   ++ ",created=" ++ dquote ++ GoStrings.fmt_d createdAt ++ dquote
   ++ ",expires=" ++ dquote ++ GoStrings.fmt_d validTill ++ dquote
   ++ ",headers=" ++ dquote ++ "(created) (expires) digest" ++ dquote
   ++ ",signature=" ++ dquote ++ signature ++ dquote)%string.

Record authHeader := {
  SubscriberID : string;
  UniqueID : string;
  Algorithm : string
}.

(** The part of [parseHeader] that computes [keyIDPart]. *)
Definition keyIDPart (header : string) : string :=
  match GoStrings.Index header keyIdPrefix with
  | Some startIndex =>
      let startIndex := (startIndex + String.length keyIdPrefix)%nat in
      match GoStrings.Index (GoStrings.drop startIndex header) dquote with
      | Some endIndex =>
          GoStrings.TrimSpace (GoStrings.take endIndex (GoStrings.drop startIndex header))
      | None => EmptyString
      end
  | None => EmptyString
  end.

(** [parseHeader]; the right summand is the error returned. *)
Definition parseHeader (header : string) : authHeader + error :=
  let keyIDPart := keyIDPart header in
  if String.eqb keyIDPart EmptyString then
    inr (errorString "keyId parameter not found in Authorization header")
  else
    let keyIDComponents := GoStrings.Split keyIDPart "|" in
    match keyIDComponents with
    | [c0; c1; c2] =>
        inl {| SubscriberID := GoStrings.TrimSpace c0;
               UniqueID := GoStrings.TrimSpace c1;
               Algorithm := GoStrings.TrimSpace c2 |}
    | _ =>
        inr (errorString
               ("keyId parameter has incorrect format, expected 3 components separated by '|', got "
                ++ GoStrings.fmt_d (Z.of_nat (List.length keyIDComponents))
                ++ " for '" ++ keyIDPart ++ "'"))
    end.

(** *** Requests, contexts, routes *)

Record URL := {
  URL_String : string;
  URL_Host : string
}.

(** [model.Route]; [Route_URL] is a pointer, [None] when it is [nil]. *)
Record Route := {
  TargetType : string;
  PublisherID : string;
  Route_URL : option URL;
  ActAsProxy : bool
}.

(** What the type assertion on [r.Context().Value(PostResponseKey{})] finds:
    no value of that type, a nil pointer, or the pointer to the slice that
    the post-response middleware owns (the slice itself is [hooks] of the
    [World]). *)
Inductive PostResponseSlot := SlotAbsent | SlotNil | SlotHooks.

(** The ambient [context.Context], by the values read from it. *)
Record Context := {
  Context_MsgID : option string;
  Context_SubscriberID : option string;
  Context_PostResponse : PostResponseSlot
}.

(** [r.Body]: a stream that yields its bytes or fails while being read. *)
Inductive BodyReader :=
| BodyBytes (data : string)
| BodyFails (err : error).

Record Request := {
  Request_Header : Header;
  Request_Cookies : list (string * string);
  Request_URL : string;
  Request_Host : string;
  Request_Body : BodyReader;
  Request_Context : Context
}.

Definition Request_with_Header (f : Header -> Header) (r : Request) : Request :=
  {| Request_Header := f (Request_Header r);
     Request_Cookies := Request_Cookies r;
     Request_URL := Request_URL r;
     Request_Host := Request_Host r;
     Request_Body := Request_Body r;
     Request_Context := Request_Context r |}.

Definition Request_with_Body (b : BodyReader) (r : Request) : Request :=
  {| Request_Header := Request_Header r;
     Request_Cookies := Request_Cookies r;
     Request_URL := Request_URL r;
     Request_Host := Request_Host r;
     Request_Body := b;
     Request_Context := Request_Context r |}.

(** [model.StepContext].  [Request] is the pointer that [ServeHTTP] also
    holds as [r], and [RespHeader] is the map [w.Header()]: each object has
    this one copy, which the handler reads back after the steps. *)
Record StepContext := {
  Ctx_Context : Context;
  Ctx_Request : Request;
  Ctx_Body : string;
  Ctx_Role : string;
  Ctx_SubID : string;
  Ctx_RespHeader : Header;
  Ctx_Route : option Route
}.

Definition Ctx_with_Request (r : Request) (c : StepContext) : StepContext :=
  {| Ctx_Context := Ctx_Context c; Ctx_Request := r; Ctx_Body := Ctx_Body c;
     Ctx_Role := Ctx_Role c; Ctx_SubID := Ctx_SubID c;
     Ctx_RespHeader := Ctx_RespHeader c; Ctx_Route := Ctx_Route c |}.

Definition Ctx_with_RespHeader (h : Header) (c : StepContext) : StepContext :=
  {| Ctx_Context := Ctx_Context c; Ctx_Request := Ctx_Request c; Ctx_Body := Ctx_Body c;
     Ctx_Role := Ctx_Role c; Ctx_SubID := Ctx_SubID c;
     Ctx_RespHeader := h; Ctx_Route := Ctx_Route c |}.

Definition Ctx_with_Route (rt : option Route) (c : StepContext) : StepContext :=
  {| Ctx_Context := Ctx_Context c; Ctx_Request := Ctx_Request c; Ctx_Body := Ctx_Body c;
     Ctx_Role := Ctx_Role c; Ctx_SubID := Ctx_SubID c;
     Ctx_RespHeader := Ctx_RespHeader c; Ctx_Route := rt |}.

(** *** Plugins (pkg/plugin/definition)

    An interface value is modelled by the answers it gives; the calls made
    to it are recorded in the [World] by the code that makes them. *)

Record Keyset := {
  UniqueKeyID : string;
  SigningPrivate : string
}.

Record KeyManager := {
  KeyManager_Keyset : string -> error + Keyset;
  KeyManager_LookupNPKeys : string -> string -> error + string
}.

Record Signer := {
  Signer_Sign : string -> string -> Z -> Z -> error + string
}.

Record SignValidator := {
  SignValidator_Validate : string -> string -> string -> option error
}.

Record SchemaValidator := {
  SchemaValidator_Validate : string -> string -> option error
}.

Record Router := {
  Router_Route : string -> string -> Request -> error + Route
}.

Record Publisher := {
  Publisher_Publish : string -> string -> option error
}.

(** [*http.Client]: the error of [http.NewRequestWithContext] on the target,
    what [Do] answers to a POST (an error, or status and body), and what the
    reverse proxy, given the target and the request it forwards, relays
    from upstream (status, headers, body). *)
Record HttpClient := {
  Client_NewRequest : string -> option error;
  Client_Do : string -> string -> error + (Z * string);
  Client_Proxy : URL -> Request -> Z * Header * string
}.

(** The closure that [route] registers, by what it captures. *)
Record PostResponseHook := {
  Hook_ctx : StepContext;
  Hook_pb : option Publisher;
  Hook_httpClient : HttpClient
}.

(** Calls that leave the handler, in the order they are made. *)
Inductive Event :=
| CallKeyset (subID : string)
| CallLookupNPKeys (subID keyID : string)
| CallSign (body key : string) (createdAt validTill : Z)
| CallSignValidate (body header key : string)
| CallSchemaValidate (url body : string)
| CallRoute (url body : string)
| CallPublish (publisherID body : string)
| CallHTTPDo (url body : string) (headers : Header)
| CallReverseProxy (target : URL) (r : Request)
| MetricAdd (counter status : string)
| Panic (what : string).

(** The world outside one request: the calls made so far, the wall clock
    ([now k] is the reading, in nanoseconds since the epoch, that the
    [k]-th call of [time.Now] returns; [ticks] counts the calls), and the
    slice of post-response hooks of the middleware. *)
Record World := {
  trace : list Event;
  now : nat -> Z;
  ticks : nat;
  hooks : list PostResponseHook
}.

Definition emit (e : Event) (σ : World) : World :=
  {| trace := trace σ ++ [e]; now := now σ; ticks := ticks σ; hooks := hooks σ |}.

(** [time.Now()] *)
Definition time_Now (σ : World) : Z * World :=
  (now σ (ticks σ),
   {| trace := trace σ; now := now σ; ticks := S (ticks σ); hooks := hooks σ |}).

(** [time.Minute], [t.Add(d)] and [t.Unix()] on nanosecond readings. *)
Definition Minute : Z := 60 * 1000000000.
Definition time_Add (t d : Z) : Z := t + d.
Definition time_Unix (t : Z) : Z := t / 1000000000.

(** The result of [Step.Run]: the error returned ([None] for [nil]), the
    context and the world after the call. *)
Definition StepResult : Type := option error * StepContext * World.

(** [definition.Step] *)
Record Step := {
  Run : StepContext -> World -> StepResult
}.

Section Steps.

Variable P : Model.Pkg.

(** *** signStep *)

Record signStep := {
  signStep_signer : Signer;
  signStep_km : KeyManager
}.

(** [signStep.Run] *)
Definition signStep_Run (s : signStep) (ctx : StepContext) (σ : World) : StepResult :=
  if (String.length (Ctx_SubID ctx) =? 0)%nat then
    (Some (NewBadReqErr (errorString "subscriberID not set")), ctx, σ)
  else
    let σ := emit (CallKeyset (Ctx_SubID ctx)) σ in
    match KeyManager_Keyset (signStep_km s) (Ctx_SubID ctx) with
    | inl err => (Some (wrapError "failed to get signing key: %w" err), ctx, σ)
    | inr keySet =>
        let '(t1, σ) := time_Now σ in
        let createdAt := time_Unix t1 in
        let '(t2, σ) := time_Now σ in
        let validTill := time_Unix (time_Add t2 (5 * Minute)) in
        let σ := emit (CallSign (Ctx_Body ctx) (SigningPrivate keySet) createdAt validTill) σ in
        match Signer_Sign (signStep_signer s) (Ctx_Body ctx) (SigningPrivate keySet)
                createdAt validTill with
        | inl err => (Some (wrapError "failed to sign request: %w" err), ctx, σ)
        | inr sign =>
            let authHeader :=
              generateAuthHeader (Ctx_SubID ctx) (UniqueKeyID keySet) createdAt validTill sign in
            let header :=
              if String.eqb (Ctx_Role ctx) RoleGateway then AuthHeaderGateway P
              else AuthHeaderSubscriber P in
            (None,
             Ctx_with_Request
               (Request_with_Header (Header_Set header authHeader) (Ctx_Request ctx)) ctx,
             σ)
        end
    end.

(** *** validateSignStep *)

(** [metrics] is [true] when the step holds a non-nil [*HandlerMetrics]. *)
Record validateSignStep := {
  validateSignStep_validator : SignValidator;
  validateSignStep_km : KeyManager;
  validateSignStep_metrics : bool
}.

(** [validateSignStep.validate] *)
Definition validateSignStep_validate (s : validateSignStep) (ctx : StepContext)
  (value : string) (σ : World) : option error * World :=
  match parseHeader value with
  | inr _ => (Some (errorString "failed to parse header"), σ)
  | inl headerVals =>
      let σ := emit (CallLookupNPKeys (SubscriberID headerVals) (UniqueID headerVals)) σ in
      match KeyManager_LookupNPKeys (validateSignStep_km s)
              (SubscriberID headerVals) (UniqueID headerVals) with
      | inl err => (Some (wrapError "failed to get validation key: %w" err), σ)
      | inr signingPublicKey =>
          let σ := emit (CallSignValidate (Ctx_Body ctx) value signingPublicKey) σ in
          match SignValidator_Validate (validateSignStep_validator s)
                  (Ctx_Body ctx) value signingPublicKey with
          | Some err => (Some (wrapError "sign validation failed: %w" err), σ)
          | None => (None, σ)
          end
      end
  end.

(** [validateSignStep.validateHeaders] *)
Definition validateSignStep_validateHeaders (s : validateSignStep) (ctx : StepContext)
  (σ : World) : StepResult :=
  let headerValCookie :=
    match Cookie "header_validation" (Request_Cookies (Ctx_Request ctx)) with
    | Some v => v
    | None => "true"
    end in
  if String.eqb headerValCookie "false" then (None, ctx, σ)
  else
    let unauthHeader : string :=
      ("Signature realm=" ++ dquote ++ Ctx_SubID ctx ++ dquote
       ++ ",headers=" ++ dquote ++ "(created) (expires) digest" ++ dquote)%string in
    let headerValue := Header_Get (AuthHeaderSubscriber P) (Request_Header (Ctx_Request ctx)) in
    if negb (String.length headerValue =? 0)%nat then
      match validateSignStep_validate s ctx headerValue σ with
      | (Some err, σ) =>
          (Some (NewSignValidationErr (wrapError "failed to validate %s: %w" err)),
           Ctx_with_RespHeader
             (Header_Set (UnaAuthorizedHeaderGateway P) unauthHeader (Ctx_RespHeader ctx)) ctx,
           σ)
      | (None, σ) => (None, ctx, σ)
      end
    else (None, ctx, σ).

(** [validateSignStep.recordMetrics] *)
Definition validateSignStep_recordMetrics (s : validateSignStep) (err : option error)
  (σ : World) : World :=
  if validateSignStep_metrics s then
    emit (MetricAdd "SignatureValidationsTotal"
            (match err with Some _ => "failed" | None => "success" end)) σ
  else σ.

(** [validateSignStep.Run] *)
Definition validateSignStep_Run (s : validateSignStep) (ctx : StepContext) (σ : World)
  : StepResult :=
  let '(err, ctx, σ) := validateSignStep_validateHeaders s ctx σ in
  let σ := validateSignStep_recordMetrics s err σ in
  (err, ctx, σ).

(** *** validateSchemaStep *)

Record validateSchemaStep := {
  validateSchemaStep_validator : SchemaValidator;
  validateSchemaStep_metrics : bool
}.

(** [validateSchemaStep.Run]; the version label of the metric is left out
    of the recorded event. *)
Definition validateSchemaStep_Run (s : validateSchemaStep) (ctx : StepContext) (σ : World)
  : StepResult :=
  let σ := emit (CallSchemaValidate (Request_URL (Ctx_Request ctx)) (Ctx_Body ctx)) σ in
  let err :=
    match SchemaValidator_Validate (validateSchemaStep_validator s)
            (Request_URL (Ctx_Request ctx)) (Ctx_Body ctx) with
    | Some err => Some (wrapError "schema validation failed: %w" err)
    | None => None
    end in
  let σ :=
    if validateSchemaStep_metrics s then
      emit (MetricAdd "SchemaValidationsTotal"
              (match err with Some _ => "failed" | None => "success" end)) σ
    else σ in
  (err, ctx, σ).

(** *** addRouteStep *)

Record addRouteStep := {
  addRouteStep_router : Router;
  addRouteStep_metrics : bool
}.

(** [addRouteStep.Run] *)
Definition addRouteStep_Run (s : addRouteStep) (ctx : StepContext) (σ : World) : StepResult :=
  let σ := emit (CallRoute (Request_URL (Ctx_Request ctx)) (Ctx_Body ctx)) σ in
  match Router_Route (addRouteStep_router s) (Request_URL (Ctx_Request ctx)) (Ctx_Body ctx)
          (Ctx_Request ctx) with
  | inl err => (Some (wrapError "failed to determine route: %w" err), ctx, σ)
  | inr route =>
      let ctx :=
        Ctx_with_Route
          (Some {| TargetType := TargetType route; PublisherID := PublisherID route;
                   Route_URL := Route_URL route; ActAsProxy := ActAsProxy route |}) ctx in
      let σ :=
        if addRouteStep_metrics s then emit (MetricAdd "RoutingDecisionsTotal" (TargetType route)) σ
        else σ in
      (None, ctx, σ)
  end.

End Steps.

(** *** postResponse.go: the handler, the dispatcher, the hooks *)

Section Serve.

Variable P : Model.Pkg.
Variable Unmarshal : string -> option JSON.

Definition World_with_hooks (hs : list PostResponseHook) (σ : World) : World :=
  {| trace := trace σ; now := now σ; ticks := ticks σ; hooks := hs |}.

(** [RegisterPostResponseHook] *)
Definition RegisterPostResponseHook (r : Request) (fn : PostResponseHook) (σ : World) : World :=
  match Context_PostResponse (Request_Context r) with
  | SlotHooks => World_with_hooks (hooks σ ++ [fn]) σ
  | SlotAbsent | SlotNil => σ
  end.

(** [stdHandler], by the fields that serving a request reads. *)
Record stdHandler := {
  steps : list Step;
  publisher : option Publisher;
  httpClient : HttpClient;
  stdHandler_SubscriberID : string;
  role : string;
  moduleName : string
}.

(** [stdHandler.subID] *)
Definition subID (h : stdHandler) (c : Context) : string :=
  match Context_SubscriberID c with
  | Some rSubID => rSubID
  | None => stdHandler_SubscriberID h
  end.

(** [stdHandler.stepCtx]: drains the body; a failing read is a bad request. *)
Definition stepCtx (h : stdHandler) (r : Request) (rh : Header) : error + StepContext :=
  match Request_Body r with
  | BodyFails err => inl (NewBadReqErr err)
  | BodyBytes data =>
      let r := Request_with_Body (BodyBytes EmptyString) r in
      inr {| Ctx_Context := Request_Context r;
             Ctx_Request := r;
             Ctx_Body := data;
             Ctx_Role := role h;
             Ctx_SubID := subID h (Request_Context r);
             Ctx_RespHeader := rh;
             Ctx_Route := None |}
  end.

(** [makeAsyncRequest] *)
Definition makeAsyncRequest (stepCtx : StepContext) (client : HttpClient) (σ : World)
  : option error * World :=
  match Ctx_Route stepCtx with
  | None => (None, emit (Panic "nil Route") σ)
  | Some rt =>
      match Route_URL rt with
      | None => (None, emit (Panic "nil URL") σ)
      | Some target =>
          match Client_NewRequest client (URL_String target) with
          | Some err => (Some (wrapError "failed to create request: %w" err), σ)
          | None =>
              let hdr :=
                Header_Set "X-Forwarded-Host" (URL_Host target)
                  (Header_Set "Content-Type" "application/json" ∅) in
              let σ := emit (CallHTTPDo (URL_String target) (Ctx_Body stepCtx) hdr) σ in
              match Client_Do client (URL_String target) (Ctx_Body stepCtx) with
              | inl err => (Some (wrapError "failed to execute request: %w" err), σ)
              | inr _ => (None, σ)
              end
          end
      end
  end.

(** The body of the closure that [route] registers. *)
Definition runHook (fn : PostResponseHook) (σ : World) : World :=
  let ctx := Hook_ctx fn in
  match Ctx_Route ctx with
  | None => emit (Panic "nil Route") σ
  | Some rt =>
      if String.eqb (TargetType rt) "url" then
        snd (makeAsyncRequest ctx (Hook_httpClient fn) σ)
      else if String.eqb (TargetType rt) "publisher" then
        match Hook_pb fn with
        | None => σ
        | Some pb => emit (CallPublish (PublisherID rt) (Ctx_Body ctx)) σ
        end
      else σ
  end.

(** Modelled from the spec: the post-response middleware is not part of the
    sources at hand.  After the handler has returned it invokes the
    registered closures in registration order. *)
Definition runPostResponseHooks (σ : World) : World :=
  fold_left (fun σ fn => runHook fn σ) (hooks σ) (World_with_hooks [] σ).

Definition rw_with_header (h : Header) (w : ResponseWriter) : ResponseWriter :=
  {| rw_header := h; rw_status := rw_status w; rw_sent := rw_sent w;
     rw_body := rw_body w; rw_broken := rw_broken w; rw_panicked := rw_panicked w;
     rw_interim := rw_interim w |}.

(** [proxy]; [r] is [ctx.Request].  The reverse proxy forwards the request
    [r], with the body that [r.Body] holds ([ctx.Body] is only logged by
    the director), and relays the answer of the upstream; a status that
    [WriteHeader] refuses ends the relay. *)
Definition proxy (ctx : StepContext) (rt : Route) (w : ResponseWriter) (client : HttpClient)
  (σ : World) : StepContext * ResponseWriter * World :=
  let r := Ctx_Request ctx in
  let r := Request_with_Header (Header_Set "X-Forwarded-Host" (Request_Host r)) r in
  let ctx := Ctx_with_Request r ctx in
  match Route_URL rt with
  | None => (ctx, w, emit (Panic "nil URL") σ)
  | Some target =>
      let σ := emit (CallReverseProxy target r) σ in
      let '(status, hdr, body) := Client_Proxy client target r in
      let w := rw_with_header (hdr ∪ rw_header w) w in
      let w := WriteHeader status w in
      if rw_panicked w then (ctx, w, σ)
      else (ctx, fst (Write (Text body) w), σ)
  end.

(** [route]; [rt] is [ctx.Route], which [ServeHTTP] has checked not to be nil,
    and [r] is [ctx.Request]. *)
Definition route (ctx : StepContext) (rt : Route) (w : ResponseWriter)
  (pb : option Publisher) (httpClient : HttpClient) (σ : World)
  : StepContext * ResponseWriter * World :=
  let msgID := Context_MsgID (Ctx_Context ctx) in
  if ActAsProxy rt then
    if String.eqb (TargetType rt) "url" then
      proxy ctx rt w httpClient σ
    else if String.eqb (TargetType rt) "publisher" then
      match pb with
      | None =>
          (ctx, Response.SendNack P msgID w (errorString "publisher plugin not configured"), σ)
      | Some pb =>
          let σ := emit (CallPublish (PublisherID rt) (Ctx_Body ctx)) σ in
          match Publisher_Publish pb (PublisherID rt) (Ctx_Body ctx) with
          | Some err => (ctx, Response.SendNack P msgID w err, σ)
          | None => (ctx, Response.SendAck w, σ)
          end
      end
    else
      (ctx,
       Response.SendNack P msgID w (errorString ("unknown route type: " ++ TargetType rt)),
       σ)
  else
    let w :=
      match Cookie "custom-response-body" (Request_Cookies (Ctx_Request ctx)) with
      | Some val => Response.SendBody Unmarshal msgID w val
      | None => Response.SendAck w
      end in
    (ctx, w,
     RegisterPostResponseHook (Ctx_Request ctx)
       {| Hook_ctx := ctx; Hook_pb := pb; Hook_httpClient := httpClient |} σ).

(** The loop of [ServeHTTP] over [h.steps].  Besides the result it returns
    the invocations of [Run] in the order they were made: the step invoked
    and the error it returned. *)
Fixpoint runSteps (steps : list Step) (ctx : StepContext) (σ : World)
  (invoked : list (Step * option error))
  : option error * StepContext * World * list (Step * option error) :=
  match steps with
  | [] => (None, ctx, σ, invoked)
  | step :: rest =>
      let '(err, ctx, σ) := Run step ctx σ in
      match err with
      | Some e => (Some e, ctx, σ, invoked ++ [(step, Some e)])
      | None => runSteps rest ctx σ (invoked ++ [(step, None)])
      end
  end.

(** What serving one request leaves behind. *)
Record Served := {
  Served_w : ResponseWriter;
  Served_r : Request;
  Served_world : World;
  Served_invoked : list (Step * option error)
}.

(** The deferred function of [ServeHTTP]. *)
Definition strip_internal (r : Request) : Request :=
  Request_with_Header (Header_Del "X-Role")
    (Request_with_Header (Header_Del "X-Module-Name") r).

(** [stdHandler.ServeHTTP] *)
Definition ServeHTTP (h : stdHandler) (w : ResponseWriter) (r : Request) (σ : World) : Served :=
  let r := Request_with_Header (Header_Set "X-Module-Name" (moduleName h)) r in
  let r := Request_with_Header (Header_Set "X-Role" (role h)) r in
  match stepCtx h r (rw_header w) with
  | inl err =>
      {| Served_w := Response.SendNack P (Context_MsgID (Request_Context r)) w err;
         Served_r := strip_internal r;
         Served_world := σ;
         Served_invoked := [] |}
  | inr ctx =>
      let '(err, ctx, σ, invoked) := runSteps (steps h) ctx σ [] in
      let w := rw_with_header (Ctx_RespHeader ctx) w in
      match err with
      | Some err =>
          {| Served_w := Response.SendNack P (Context_MsgID (Ctx_Context ctx)) w err;
             Served_r := strip_internal (Ctx_Request ctx);
             Served_world := σ;
             Served_invoked := invoked |}
      | None =>
          let r := Request_with_Body (BodyBytes (Ctx_Body ctx)) (Ctx_Request ctx) in
          let ctx := Ctx_with_Request r ctx in
          match Ctx_Route ctx with
          | None =>
              {| Served_w := Response.SendAck w;
                 Served_r := strip_internal r;
                 Served_world := σ;
                 Served_invoked := invoked |}
          | Some rt =>
              let ctx := Ctx_with_Request (strip_internal r) ctx in
              let '(ctx, w, σ) := route ctx rt w (publisher h) (httpClient h) σ in
              {| Served_w := w;
                 Served_r := strip_internal (Ctx_Request ctx);
                 Served_world := σ;
                 Served_invoked := invoked |}
          end
      end
  end.

End Serve.

End Handler.

(** ** The schema validator as a plugin of the handler *)

Module Wiring.
Import Model Http Handler.

Section Plugin.

Variable Schema : Type.
Variable Unmarshal_payload : string -> string + SchemaValidator.payload.
Variable Unmarshal_any : string -> string + JSON.
Variable path_Base : string -> string.
Variable ToLower : string -> string.
Variable Compile : string -> error + Schema.
Variable schema_Validate : Schema -> JSON -> SchemaValidator.SchemaResult.

(** The validator, in the state [v], behind the interface
    [definition.SchemaValidator]. *)
Definition validatorPlugin (v : SchemaValidator.schemaValidator Schema) : SchemaValidator :=
  {| SchemaValidator_Validate := fun url data =>
       fst (SchemaValidator.Validate Schema Unmarshal_payload Unmarshal_any path_Base
              ToLower Compile schema_Validate v url data) |}.

End Plugin.

End Wiring.

(** ** Notions used in the statements *)

Module Notions.
Import Model Http Handler.

(** A writer on which nothing was written yet and whose connection works. *)
Definition fresh (w : ResponseWriter) : Prop :=
  rw_status w = None /\ rw_broken w = false /\ rw_panicked w = false.

(** An error that [errors.As] matches with none of the five typed kinds. *)
Definition unrecognized (P : Model.Pkg) (err : error) : Prop :=
  As P KWorkbench err = None /\ As P KSchema err = None /\ As P KSign err = None
  /\ As P KBadReq err = None /\ As P KNotFound err = None.

(** The NACK body for a Beckn error with the given code and message. *)
Definition nackBody (code message : string) : Payload :=
  MarshalResponse
    {| Response_Message :=
         {| Message_Ack := {| Ack_Status := "NACK" |}; Message_Error := zeroError |};
       Response_Error :=
         Some {| Error_Code := code; Error_Paths := EmptyString;
                 Error_Message := message; Error_Context := None |};
       Response_Context := None |}.

(** The ACK body. *)
Definition ackBody : Payload :=
  MarshalResponse
    {| Response_Message :=
         {| Message_Ack := {| Ack_Status := "ACK" |}; Message_Error := zeroError |};
       Response_Error := None;
       Response_Context := None |}.


(** [v] is the quoted value of the first [keyId=] parameter of [header]:
    the header reads [pre], the prefix [keyIdPrefix], [v], a double quote,
    [post]; no occurrence of [keyIdPrefix] starts before the one after
    [pre]; and [v] holds no double quote. *)
Definition quoted_keyId (header v : string) : Prop :=
  exists pre post,
    header = (pre ++ keyIdPrefix ++ v ++ dquote ++ post)%string
    /\ (forall p q, header = (p ++ keyIdPrefix ++ q)%string ->
          String.length pre <= String.length p)
    /\ GoStrings.contains_byte (GoStrings.byte 34) v = false.

(** A subscriber id or key id that survives the codec: no double quote, no
    bar, no white space at either end. *)
Definition well_formed_id (s : string) : Prop :=
  GoStrings.contains_byte (GoStrings.byte 34) s = false
  /\ GoStrings.contains_byte "|" s = false
  /\ GoStrings.TrimSpace s = s.

(** The key under which [Validate] looks the schema up: domain in lower
    case with colons replaced, version, endpoint. *)
Definition schemaKeyOf (ToLower path_Base : string -> string)
  (p : SchemaValidator.payload) (url : string) : string :=
  (GoStrings.ReplaceAll (ToLower (SchemaValidator.Domain p)) ":" "_" ++ "_"
   ++ ("v" ++ (if String.eqb (SchemaValidator.Version p) EmptyString
               then SchemaValidator.CoreVersion p else SchemaValidator.Version p))
   ++ "_" ++ path_Base url)%string.

(** The entry of [SchemaValidationErr.Errors] for one cause. *)
Definition errorOfCause (cause : SchemaValidator.Cause) : Model.Error :=
  {| Error_Code := EmptyString;
     Error_Paths := SchemaValidator.Join (SchemaValidator.InstanceLocation cause) ".";
     Error_Message := SchemaValidator.Cause_Error cause;
     Error_Context := None |}.

(** Calls to the KeyManager or to the SignValidator. *)
Definition is_key_or_validator_call (e : Event) : bool :=
  match e with
  | CallKeyset _ | CallLookupNPKeys _ _ | CallSignValidate _ _ _ => true
  | _ => false
  end.

(** Calls that deliver the request upstream. *)
Definition is_delivery (e : Event) : bool :=
  match e with
  | CallPublish _ _ | CallHTTPDo _ _ _ | CallReverseProxy _ _ => true
  | _ => false
  end.

End Notions.

(** ** Sample configuration used in the examples *)

Module Sample.
Import Model Http Handler.

(** An instance of pkg/model: status texts as codes, the texts of the
    field errors joined into the message, the header names of the Beckn
    network. *)
Definition pkg : Model.Pkg :=
  {| typed_unwrap := false;
     Schema_BecknError := fun errs =>
       {| Error_Code := "Bad Request";
          Error_Paths := SchemaValidator.Join (List.map Error_Paths errs) ";";
          Error_Message := SchemaValidator.Join (List.map Error_Message errs) "; ";
          Error_Context := None |};
     Sign_BecknError := fun _ =>
       {| Error_Code := "Unauthorized"; Error_Paths := EmptyString;
          Error_Message := "Signature Validation Error"; Error_Context := None |};
     BadReq_BecknError := fun _ =>
       {| Error_Code := "Bad Request"; Error_Paths := EmptyString;
          Error_Message := "BAD Request"; Error_Context := None |};
     NotFound_BecknError := fun _ =>
       {| Error_Code := "Not Found"; Error_Paths := EmptyString;
          Error_Message := "Endpoint not found"; Error_Context := None |};
     Workbench_BecknError := fun _ e => e;
     AuthHeaderSubscriber := "Authorization";
     AuthHeaderGateway := "X-Gateway-Authorization";
     UnaAuthorizedHeaderGateway := "Proxy-Authenticate" |}.

(** [json.Unmarshal] on the documents of the examples: [true] decodes,
    the bare word [accepted] is not JSON. *)
Definition unmarshal (s : string) : option JSON :=
  if String.eqb s "true" then Some (JBool true) else None.

Definition context : Context :=
  {| Context_MsgID := Some "m-1"; Context_SubscriberID := None;
     Context_PostResponse := SlotHooks |}.

Definition request : Request :=
  {| Request_Header := ∅;
     Request_Cookies := [];
     Request_URL := "/bap/receiver/search";
     Request_Host := "adapter.example";
     Request_Body := BodyBytes "{}";
     Request_Context := context |}.

Definition world : World :=
  {| trace := []; now := fun _ => 0%Z; ticks := 0; hooks := [] |}.

Definition client : HttpClient :=
  {| Client_NewRequest := fun _ => None;
     Client_Do := fun _ _ => inr (200%Z, "ok");
     Client_Proxy := fun _ _ => (200%Z, ∅, "ok") |}.

(** A publisher that accepts every message, and one that refuses. *)
Definition okPublisher : Publisher := {| Publisher_Publish := fun _ _ => None |}.

(** Two steps: the first succeeds, the second fails; a third must not run. *)
Definition passStep : Step := {| Run := fun ctx σ => (None, ctx, σ) |}.
Definition failStep : Step :=
  {| Run := fun ctx σ => (Some (errorString "step failed"), ctx, σ) |}.

Definition handler (ss : list Step) : stdHandler :=
  {| steps := ss; publisher := Some okPublisher; httpClient := client;
     stdHandler_SubscriberID := "bap.example"; role := "bap";
     moduleName := "bapTxnReceiver" |}.

(** A key manager and a signer that always answer. *)
Definition keyManager : KeyManager :=
  {| KeyManager_Keyset := fun _ =>
       inr {| UniqueKeyID := "k1"; SigningPrivate := "private-key" |};
     KeyManager_LookupNPKeys := fun _ _ => inr "public-key" |}.

Definition signer : Signer :=
  {| Signer_Sign := fun _ _ _ _ => inr "c2ln" |}.

Definition signValidator : SignValidator :=
  {| SignValidator_Validate := fun _ _ _ => None |}.

Definition stepContext : StepContext :=
  {| Ctx_Context := context;
     Ctx_Request := request;
     Ctx_Body := "{}";
     Ctx_Role := "bap";
     Ctx_SubID := "bap.example";
     Ctx_RespHeader := ∅;
     Ctx_Route := None |}.

(** A clock whose first reading falls just before the end of a second and
    whose second reading just after it. *)
Definition straddling_clock (k : nat) : Z :=
  match k with
  | O => 1700000000999999900%Z
  | S _ => 1700000001000000100%Z
  end.

Definition straddling_world : World :=
  {| trace := []; now := straddling_clock; ticks := 0; hooks := [] |}.

(** Routes of the dispatcher examples. *)
Definition msgqRoute : Route :=
  {| TargetType := "msgq"; PublisherID := "search_requests";
     Route_URL := None; ActAsProxy := true |}.

Definition publisherRoute (proxy : bool) : Route :=
  {| TargetType := "publisher"; PublisherID := "search_requests";
     Route_URL := None; ActAsProxy := proxy |}.

Definition stepContext_with (rt : Route) (slot : PostResponseSlot)
  (cookies : list (string * string)) : StepContext :=
  {| Ctx_Context := context;
     Ctx_Request :=
       {| Request_Header := ∅;
          Request_Cookies := cookies;
          Request_URL := "/bap/receiver/search";
          Request_Host := "adapter.example";
          Request_Body := BodyBytes "{}";
          Request_Context :=
            {| Context_MsgID := Some "m-1"; Context_SubscriberID := None;
               Context_PostResponse := slot |} |};
     Ctx_Body := "{}";
     Ctx_Role := "bap";
     Ctx_SubID := "bap.example";
     Ctx_RespHeader := ∅;
     Ctx_Route := Some rt |}.

(** *** Schema validation examples *)

(** [q s] is [s] between double quotes. *)
Definition q (s : string) : string := (dquote ++ s ++ dquote)%string.

(** A search request whose context has no domain, and one with a domain
    whose message the schema rejects. *)
Definition doc_without_domain : string :=
  ("{" ++ q "context" ++ ":{" ++ q "version" ++ ":" ++ q "1.1.0" ++ "}}")%string.

Definition doc_rejected : string :=
  ("{" ++ q "context" ++ ":{" ++ q "domain" ++ ":" ++ q "retail" ++ ","
   ++ q "version" ++ ":" ++ q "1.1.0" ++ "}," ++ q "message" ++ ":{}}")%string.

(** The library calls on these two documents. *)
Definition unmarshal_payload (data : string) : string + SchemaValidator.payload :=
  if String.eqb data doc_without_domain then
    inr {| SchemaValidator.Domain := EmptyString;
           SchemaValidator.Version := "1.1.0";
           SchemaValidator.CoreVersion := EmptyString |}
  else if String.eqb data doc_rejected then
    inr {| SchemaValidator.Domain := "retail";
           SchemaValidator.Version := "1.1.0";
           SchemaValidator.CoreVersion := EmptyString |}
  else inl "unexpected end of JSON input".

Definition unmarshal_any (data : string) : string + JSON :=
  if String.eqb data doc_rejected then
    inr (JObject [("context", JObject [("domain", JString "retail");
                                       ("version", JString "1.1.0")]);
                  ("message", JObject [])])
  else inl "unexpected end of JSON input".

(** The schema of the search endpoint requires [message.intent]. *)
Definition search_schema (j : JSON) : SchemaValidator.SchemaResult :=
  SchemaValidator.ValidationError
    [ {| SchemaValidator.InstanceLocation := ["message"];
         SchemaValidator.Cause_Error := "missing property 'intent'" |} ].

Definition validator_state : SchemaValidator.schemaValidator unit :=
  {| SchemaValidator.schemaCache := ∅;
     SchemaValidator.schemaFiles :=
       {[ "retail_v1.1.0_search" := "schemas/retail/v1.1.0/search.json" ]} |}.

Definition path_Base (url : string) : string := "search".
Definition ToLower (d : string) : string := d.
Definition Compile (path : string) : error + unit := inr tt.
Definition schema_Validate (schema : unit) (j : JSON) : SchemaValidator.SchemaResult :=
  search_schema j.

Definition schemaPlugin : SchemaValidator :=
  Wiring.validatorPlugin unit unmarshal_payload unmarshal_any path_Base ToLower Compile
    schema_Validate validator_state.

Definition schemaStepConfig : validateSchemaStep :=
  {| validateSchemaStep_validator := schemaPlugin;
     validateSchemaStep_metrics := false |}.

Definition schemaStep : Step := {| Run := validateSchemaStep_Run schemaStepConfig |}.

Definition request_with_body (data : string) : Request :=
  {| Request_Header := ∅;
     Request_Cookies := [];
     Request_URL := "/bap/receiver/search";
     Request_Host := "adapter.example";
     Request_Body := BodyBytes data;
     Request_Context := context |}.

End Sample.

(** ** Further notions: error chains, writers, contexts *)

Module Predicates.
Import Model Http Handler.

(** [fmt.Errorf] applied repeatedly with a [%w] verb: the error [e] under
    the layers [formats], outermost first. *)
Fixpoint wraps (formats : list string) (e : error) : error :=
  match formats with
  | [] => e
  | f :: fs => wrapError f (wraps fs e)
  end.

(** A typed error other than a workbench error whose cause, if it has
    one, is of no typed kind itself. *)
Definition typed_leaf (P : Model.Pkg) (e : error) : Prop :=
  match e with
  | SchemaValidationErr _ => True
  | SignValidationErr c | BadReqErr c | NotFoundErr c => Notions.unrecognized P c
  | _ => False
  end.

(** The status that the [switch] of [SendNack] gives to each typed kind. *)
Definition status_of_typed (e : error) : Z :=
  match e with
  | SchemaValidationErr _ => 200
  | SignValidationErr _ => 401
  | BadReqErr _ => 400
  | NotFoundErr _ => 404
  | _ => 500
  end.

(** The writer [w] on a connection that refuses writes ([true]) or works. *)
Definition with_connection (broken : bool) (w : ResponseWriter) : ResponseWriter :=
  {| rw_header := rw_header w; rw_status := rw_status w; rw_sent := rw_sent w;
     rw_body := rw_body w; rw_broken := broken; rw_panicked := rw_panicked w;
     rw_interim := rw_interim w |}.

(** The request as [ServeHTTP] hands it to [stepCtx]: with the two
    internal headers set. *)
Definition stamped (h : stdHandler) (r : Request) : Request :=
  Request_with_Header (Header_Set "X-Role" (role h))
    (Request_with_Header (Header_Set "X-Module-Name" (moduleName h)) r).

(** Running steps one after the other: [Invocations ctx σ ss log ctx' σ']
    says that [Run] of the steps [ss] was called in this order, the first
    on the context [ctx] and the world [σ] and each next one on the context
    and the world that the call before it left; that [log] pairs each step
    with the error that this call returned; and that the last call left
    [ctx'] and [σ']. *)
Inductive Invocations :
  StepContext -> World -> list Step -> list (Step * option error)
  -> StepContext -> World -> Prop :=
| Invocations_nil (ctx : StepContext) (σ : World) : Invocations ctx σ [] [] ctx σ
| Invocations_cons (ctx : StepContext) (σ : World) (st : Step) (ss : list Step)
    (err : option error) (ctx1 : StepContext) (σ1 : World)
    (log : list (Step * option error)) (ctx' : StepContext) (σ' : World) :
    Run st ctx σ = (err, ctx1, σ1) ->
    Invocations ctx1 σ1 ss log ctx' σ' ->
    Invocations ctx σ (st :: ss) ((st, err) :: log) ctx' σ'.

(** Registering closures one after the other. *)
Definition registerAll (r : Request) (fns : list PostResponseHook) (σ : World) : World :=
  fold_left (fun σ fn => RegisterPostResponseHook r fn σ) fns σ.

(** The challenge that [validateHeaders] puts into the response headers. *)
Definition challenge (subID : string) : string :=
  ("Signature realm=" ++ dquote ++ subID ++ dquote
   ++ ",headers=" ++ dquote ++ "(created) (expires) digest" ++ dquote)%string.

(** The header that [signStep.Run] sets for a role. *)
Definition auth_header_of_role (P : Model.Pkg) (role : string) : string :=
  if String.eqb role RoleGateway then AuthHeaderGateway P else AuthHeaderSubscriber P.

(** What [recordMetrics] of the validateSign step adds to the trace. *)
Definition sign_metric (metrics : bool) (failed : bool) : list Event :=
  if metrics then
    [MetricAdd "SignatureValidationsTotal" (if failed then "failed" else "success")]
  else [].

(** What the metric of the addRoute step adds to the trace. *)
Definition route_metric (metrics : bool) (targetType : string) : list Event :=
  if metrics then [MetricAdd "RoutingDecisionsTotal" targetType] else [].

End Predicates.

(** ** step.go: the ONDC validator steps and the workbench steps *)

Module OndcSteps.
Import Model Http Handler.

(** [definition.OndcValidator] *)
Record OndcValidator := {
  OndcValidator_ValidatePayload : string -> string -> option error;
  OndcValidator_SaveValidationData : string -> string -> option error
}.

(** [definition.OndcWorkbench].  Both methods receive the pointer to the
    request, so besides the error they give back the request as they left
    it. *)
Record OndcWorkbench := {
  OndcWorkbench_WorkbenchReceiver : Request -> string -> option error * Request;
  OndcWorkbench_WorkbenchValidateContext : Request -> string -> option error * Request
}.

(** The calls these steps make, in the order they are made.  The steps
    read no clock and register no hook: they return their calls beside the
    error and the context. *)
Inductive OndcCall :=
| CallValidatePayload (url body : string)
| CallSaveValidationData (url body : string)
| CallWorkbenchReceiver (body : string)
| CallWorkbenchValidateContext (body : string).

Definition OndcResult : Type := option error * StepContext * list OndcCall.

Record validateOndcStep := { validateOndcStep_validator : OndcValidator }.
Record validateOndcCallSaveStep := { validateOndcCallSaveStep_validator : OndcValidator }.
Record workbenchReceiveStep := { workbenchReceiveStep_workbench : OndcWorkbench }.
Record workbenchValidateContextStep := {
  workbenchValidateContextStep_workbench : OndcWorkbench
}.

(** [validateOndcStep.Run] *)
Definition validateOndcStep_Run (s : validateOndcStep) (ctx : StepContext) : OndcResult :=
  let skipCookie :=
    match Cookie "protocol_validation" (Request_Cookies (Ctx_Request ctx)) with
    | Some v => v
    | None => "true"
    end in
  if String.eqb skipCookie "false" then (None, ctx, [])
  else
    match OndcValidator_ValidatePayload (validateOndcStep_validator s)
            (Request_URL (Ctx_Request ctx)) (Ctx_Body ctx) with
    | Some err =>
        (Some (wrapError "ondc validation failed: %w" err), ctx,
         [CallValidatePayload (Request_URL (Ctx_Request ctx)) (Ctx_Body ctx)])
    | None =>
        (None, ctx, [CallValidatePayload (Request_URL (Ctx_Request ctx)) (Ctx_Body ctx)])
    end.

(** [validateOndcCallSaveStep.Run] *)
Definition validateOndcCallSaveStep_Run (s : validateOndcCallSaveStep)
  (ctx : StepContext) : OndcResult :=
  match OndcValidator_SaveValidationData (validateOndcCallSaveStep_validator s)
          (Request_URL (Ctx_Request ctx)) (Ctx_Body ctx) with
  | Some err =>
      (Some (wrapError "ondc call save validation failed: %w" err), ctx,
       [CallSaveValidationData (Request_URL (Ctx_Request ctx)) (Ctx_Body ctx)])
  | None =>
      (None, ctx, [CallSaveValidationData (Request_URL (Ctx_Request ctx)) (Ctx_Body ctx)])
  end.

Definition Ctx_with_SubID (subID : string) (c : StepContext) : StepContext :=
  {| Ctx_Context := Ctx_Context c; Ctx_Request := Ctx_Request c; Ctx_Body := Ctx_Body c;
     Ctx_Role := Ctx_Role c; Ctx_SubID := subID;
     Ctx_RespHeader := Ctx_RespHeader c; Ctx_Route := Ctx_Route c |}.

(** [workbenchReceiveStep.Run] *)
Definition workbenchReceiveStep_Run (s : workbenchReceiveStep) (ctx : StepContext)
  : OndcResult :=
  let '(err, r) :=
    OndcWorkbench_WorkbenchReceiver (workbenchReceiveStep_workbench s)
      (Ctx_Request ctx) (Ctx_Body ctx) in
  let ctx := Ctx_with_Request r ctx in
  match err with
  | Some err =>
      (Some (wrapError "ondc workbench receive step failed: %w" err), ctx,
       [CallWorkbenchReceiver (Ctx_Body ctx)])
  | None =>
      match Cookie "subscriber_id" (Request_Cookies (Ctx_Request ctx)) with
      | Some value => (None, Ctx_with_SubID value ctx, [CallWorkbenchReceiver (Ctx_Body ctx)])
      | None => (None, ctx, [CallWorkbenchReceiver (Ctx_Body ctx)])
      end
  end.

(** [workbenchValidateContextStep.Run] *)
Definition workbenchValidateContextStep_Run (s : workbenchValidateContextStep)
  (ctx : StepContext) : OndcResult :=
  let '(err, r) :=
    OndcWorkbench_WorkbenchValidateContext (workbenchValidateContextStep_workbench s)
      (Ctx_Request ctx) (Ctx_Body ctx) in
  let ctx := Ctx_with_Request r ctx in
  match err with
  | Some err =>
      (Some (wrapError "ondc workbench context validation step failed: %w" err), ctx,
       [CallWorkbenchValidateContext (Ctx_Body ctx)])
  | None => (None, ctx, [CallWorkbenchValidateContext (Ctx_Body ctx)])
  end.

End OndcSteps.

(** ** postResponse.go: building the handler *)

Module Builder.
Import Model Http Handler OndcSteps.

(** [plugin.Config] *)
Record Config := {
  Config_ID : string;
  Config_Config : list (string * string)
}.

(** A call to the plugin manager: the kind of plugin asked for and the id
    of the configuration. *)
Inductive MgrCall := Load (kind id : string).

(** The steps that [initSteps] can put into [h.steps], by their dynamic
    type; a custom step is what the plugin manager returned, which may be
    nil. *)
Inductive builtStep :=
| BuiltSign (s : signStep)
| BuiltValidateSign (s : validateSignStep)
| BuiltValidateSchema (s : validateSchemaStep)
| BuiltAddRoute (s : addRouteStep)
| BuiltValidateOndc (s : validateOndcStep)
| BuiltValidateOndcCallSave (s : validateOndcCallSaveStep)
| BuiltWorkbenchReceive (s : workbenchReceiveStep)
| BuiltWorkbenchValidateContext (s : workbenchValidateContextStep)
| BuiltCustom (st : option Step).

Section Build.

(** The plugin types of which the handler only passes values around. *)
Variable Cache Registry TransportWrapper : Type.

(** [PluginManager]; an interface value that a method returns may be nil
    ([None]) without an error. *)
Record PluginManager := {
  Mgr_Cache : Config -> error + option Cache;
  Mgr_Registry : Config -> error + option Registry;
  Mgr_KeyManager : Cache -> option Registry -> Config -> error + option KeyManager;
  Mgr_SignValidator : Config -> error + option SignValidator;
  Mgr_SchemaValidator : Config -> error + option SchemaValidator;
  Mgr_Router : Config -> error + option Router;
  Mgr_Publisher : Config -> error + option Publisher;
  Mgr_Signer : Config -> error + option Signer;
  Mgr_TransportWrapper : Config -> error + option TransportWrapper;
  Mgr_OndcValidator : option Cache -> Config -> error + option OndcValidator;
  Mgr_OndcWorkbench : option Cache -> Config -> error + option OndcWorkbench;
  Mgr_Step : Config -> error + option Step
}.

(** [PluginCfg] *)
Record PluginCfg := {
  Cfg_Cache : option Config;
  Cfg_Registry : option Config;
  Cfg_KeyManager : option Config;
  Cfg_SignValidator : option Config;
  Cfg_SchemaValidator : option Config;
  Cfg_Router : option Config;
  Cfg_Publisher : option Config;
  Cfg_Signer : option Config;
  Cfg_TransportWrapper : option Config;
  Cfg_OndcValidator : option Config;
  Cfg_OndcWorkbench : option Config;
  Cfg_Steps : list Config
}.

(** The plugin fields of [stdHandler]. *)
Record Plugins := {
  h_cache : option Cache;
  h_registry : option Registry;
  h_km : option KeyManager;
  h_signValidator : option SignValidator;
  h_schemaValidator : option SchemaValidator;
  h_router : option Router;
  h_publisher : option Publisher;
  h_signer : option Signer;
  h_transportWrapper : option TransportWrapper;
  h_ondcValidator : option OndcValidator;
  h_ondcWorkbench : option OndcWorkbench
}.

Definition noPlugins : Plugins :=
  {| h_cache := None; h_registry := None; h_km := None; h_signValidator := None;
     h_schemaValidator := None; h_router := None; h_publisher := None;
     h_signer := None; h_transportWrapper := None; h_ondcValidator := None;
     h_ondcWorkbench := None |}.

(** [loadPlugin]: the plugin or the error, and the call made to the
    manager, if any. *)
Definition loadPlugin {T : Type} (name : string) (cfg : option Config)
  (mgrFunc : Config -> error + option T) : (error + option T) * list MgrCall :=
  match cfg with
  | None => (inr None, [])
  | Some c =>
      match mgrFunc c with
      | inl err =>
          (inl (wrapError "failed to load %s plugin (%s): %w" err), [Load name (Config_ID c)])
      | inr plugin => (inr plugin, [Load name (Config_ID c)])
      end
  end.

(** [loadKeyManager] *)
Definition loadKeyManager (mgr : PluginManager) (cache : option Cache)
  (registry : option Registry) (cfg : option Config)
  : (error + option KeyManager) * list MgrCall :=
  match cfg with
  | None => (inr None, [])
  | Some c =>
      match cache with
      | None =>
          (inl (errorString ("failed to load KeyManager plugin (" ++ Config_ID c
                             ++ "): Cache plugin not configured")), [])
      | Some cache =>
          match Mgr_KeyManager mgr cache registry c with
          | inl err =>
              (inl (wrapError "failed to load KeyManager plugin (%s): %w" err),
               [Load "KeyManager" (Config_ID c)])
          | inr km => (inr km, [Load "KeyManager" (Config_ID c)])
          end
      end
  end.

(** [loadOndcValidator] *)
Definition loadOndcValidator (mgr : PluginManager) (cache : option Cache)
  (cfg : option Config) : (error + option OndcValidator) * list MgrCall :=
  match cfg with
  | None => (inr None, [])
  | Some c =>
      match Mgr_OndcValidator mgr cache c with
      | inl err =>
          (inl (wrapError "failed to load OndcValidator plugin (%s): %w" err),
           [Load "OndcValidator" (Config_ID c)])
      | inr ov => (inr ov, [Load "OndcValidator" (Config_ID c)])
      end
  end.

(** [loadOndcWorkbench] *)
Definition loadOndcWorkbench (mgr : PluginManager) (cache : option Cache)
  (cfg : option Config) : (error + option OndcWorkbench) * list MgrCall :=
  match cfg with
  | None => (inr None, [])
  | Some c =>
      match Mgr_OndcWorkbench mgr cache c with
      | inl err =>
          (inl (wrapError "failed to load OndcWorkbench plugin (%s): %w" err),
           [Load "OndcWorkbench" (Config_ID c)])
      | inr ow => (inr ow, [Load "OndcWorkbench" (Config_ID c)])
      end
  end.

Definition set_cache (x : option Cache) (h : Plugins) : Plugins :=
  {| h_cache := x; h_registry := h_registry h; h_km := h_km h;
     h_signValidator := h_signValidator h; h_schemaValidator := h_schemaValidator h;
     h_router := h_router h; h_publisher := h_publisher h; h_signer := h_signer h;
     h_transportWrapper := h_transportWrapper h; h_ondcValidator := h_ondcValidator h;
     h_ondcWorkbench := h_ondcWorkbench h |}.

Definition set_registry (x : option Registry) (h : Plugins) : Plugins :=
  {| h_cache := h_cache h; h_registry := x; h_km := h_km h;
     h_signValidator := h_signValidator h; h_schemaValidator := h_schemaValidator h;
     h_router := h_router h; h_publisher := h_publisher h; h_signer := h_signer h;
     h_transportWrapper := h_transportWrapper h; h_ondcValidator := h_ondcValidator h;
     h_ondcWorkbench := h_ondcWorkbench h |}.

Definition set_km (x : option KeyManager) (h : Plugins) : Plugins :=
  {| h_cache := h_cache h; h_registry := h_registry h; h_km := x;
     h_signValidator := h_signValidator h; h_schemaValidator := h_schemaValidator h;
     h_router := h_router h; h_publisher := h_publisher h; h_signer := h_signer h;
     h_transportWrapper := h_transportWrapper h; h_ondcValidator := h_ondcValidator h;
     h_ondcWorkbench := h_ondcWorkbench h |}.

Definition set_signValidator (x : option SignValidator) (h : Plugins) : Plugins :=
  {| h_cache := h_cache h; h_registry := h_registry h; h_km := h_km h;
     h_signValidator := x; h_schemaValidator := h_schemaValidator h;
     h_router := h_router h; h_publisher := h_publisher h; h_signer := h_signer h;
     h_transportWrapper := h_transportWrapper h; h_ondcValidator := h_ondcValidator h;
     h_ondcWorkbench := h_ondcWorkbench h |}.

Definition set_schemaValidator (x : option SchemaValidator) (h : Plugins) : Plugins :=
  {| h_cache := h_cache h; h_registry := h_registry h; h_km := h_km h;
     h_signValidator := h_signValidator h; h_schemaValidator := x;
     h_router := h_router h; h_publisher := h_publisher h; h_signer := h_signer h;
     h_transportWrapper := h_transportWrapper h; h_ondcValidator := h_ondcValidator h;
     h_ondcWorkbench := h_ondcWorkbench h |}.

Definition set_router (x : option Router) (h : Plugins) : Plugins :=
  {| h_cache := h_cache h; h_registry := h_registry h; h_km := h_km h;
     h_signValidator := h_signValidator h; h_schemaValidator := h_schemaValidator h;
     h_router := x; h_publisher := h_publisher h; h_signer := h_signer h;
     h_transportWrapper := h_transportWrapper h; h_ondcValidator := h_ondcValidator h;
     h_ondcWorkbench := h_ondcWorkbench h |}.

Definition set_publisher (x : option Publisher) (h : Plugins) : Plugins :=
  {| h_cache := h_cache h; h_registry := h_registry h; h_km := h_km h;
     h_signValidator := h_signValidator h; h_schemaValidator := h_schemaValidator h;
     h_router := h_router h; h_publisher := x; h_signer := h_signer h;
     h_transportWrapper := h_transportWrapper h; h_ondcValidator := h_ondcValidator h;
     h_ondcWorkbench := h_ondcWorkbench h |}.

Definition set_signer (x : option Signer) (h : Plugins) : Plugins :=
  {| h_cache := h_cache h; h_registry := h_registry h; h_km := h_km h;
     h_signValidator := h_signValidator h; h_schemaValidator := h_schemaValidator h;
     h_router := h_router h; h_publisher := h_publisher h; h_signer := x;
     h_transportWrapper := h_transportWrapper h; h_ondcValidator := h_ondcValidator h;
     h_ondcWorkbench := h_ondcWorkbench h |}.

Definition set_transportWrapper (x : option TransportWrapper) (h : Plugins) : Plugins :=
  {| h_cache := h_cache h; h_registry := h_registry h; h_km := h_km h;
     h_signValidator := h_signValidator h; h_schemaValidator := h_schemaValidator h;
     h_router := h_router h; h_publisher := h_publisher h; h_signer := h_signer h;
     h_transportWrapper := x; h_ondcValidator := h_ondcValidator h;
     h_ondcWorkbench := h_ondcWorkbench h |}.

Definition set_ondcValidator (x : option OndcValidator) (h : Plugins) : Plugins :=
  {| h_cache := h_cache h; h_registry := h_registry h; h_km := h_km h;
     h_signValidator := h_signValidator h; h_schemaValidator := h_schemaValidator h;
     h_router := h_router h; h_publisher := h_publisher h; h_signer := h_signer h;
     h_transportWrapper := h_transportWrapper h; h_ondcValidator := x;
     h_ondcWorkbench := h_ondcWorkbench h |}.

Definition set_ondcWorkbench (x : option OndcWorkbench) (h : Plugins) : Plugins :=
  {| h_cache := h_cache h; h_registry := h_registry h; h_km := h_km h;
     h_signValidator := h_signValidator h; h_schemaValidator := h_schemaValidator h;
     h_router := h_router h; h_publisher := h_publisher h; h_signer := h_signer h;
     h_transportWrapper := h_transportWrapper h; h_ondcValidator := h_ondcValidator h;
     h_ondcWorkbench := x |}.

(** One [if h.x, err = load(...); err != nil { return err }] of
    [initPlugins]: on an error the field gets the zero value and the
    function returns. *)
Definition andThen {T : Type} (loaded : (error + option T) * list MgrCall)
  (set : option T -> Plugins -> Plugins) (h : Plugins) (log : list MgrCall)
  (rest : Plugins -> list MgrCall -> option error * Plugins * list MgrCall)
  : option error * Plugins * list MgrCall :=
  match loaded with
  | (inl err, calls) => (Some err, set None h, log ++ calls)
  | (inr plugin, calls) => rest (set plugin h) (log ++ calls)
  end.

(** [stdHandler.initPlugins]: the error, the plugin fields as the function
    leaves them, and the calls made to the manager. *)
Definition initPlugins (mgr : PluginManager) (cfg : PluginCfg) (h : Plugins)
  : option error * Plugins * list MgrCall :=
  andThen (loadPlugin "Cache" (Cfg_Cache cfg) (Mgr_Cache mgr)) set_cache h [] (fun h log =>
  andThen (loadPlugin "Registry" (Cfg_Registry cfg) (Mgr_Registry mgr)) set_registry h log
    (fun h log =>
  andThen (loadKeyManager mgr (h_cache h) (h_registry h) (Cfg_KeyManager cfg)) set_km h log
    (fun h log =>
  andThen (loadPlugin "SignValidator" (Cfg_SignValidator cfg) (Mgr_SignValidator mgr))
    set_signValidator h log (fun h log =>
  andThen (loadPlugin "SchemaValidator" (Cfg_SchemaValidator cfg) (Mgr_SchemaValidator mgr))
    set_schemaValidator h log (fun h log =>
  andThen (loadPlugin "Router" (Cfg_Router cfg) (Mgr_Router mgr)) set_router h log
    (fun h log =>
  andThen (loadPlugin "Publisher" (Cfg_Publisher cfg) (Mgr_Publisher mgr)) set_publisher h log
    (fun h log =>
  andThen (loadPlugin "Signer" (Cfg_Signer cfg) (Mgr_Signer mgr)) set_signer h log
    (fun h log =>
  andThen (loadPlugin "TransportWrapper" (Cfg_TransportWrapper cfg)
             (Mgr_TransportWrapper mgr)) set_transportWrapper h log (fun h log =>
  andThen (loadOndcValidator mgr (h_cache h) (Cfg_OndcValidator cfg)) set_ondcValidator h log
    (fun h log =>
  andThen (loadOndcWorkbench mgr (h_cache h) (Cfg_OndcWorkbench cfg)) set_ondcWorkbench h log
    (fun h log => (None, h, log)))))))))))).

(** *** The steps *)

(** Whether [GetHandlerMetrics] gives the step constructors a non-nil
    [*HandlerMetrics].  The function is not part of the sources at hand: it
    is taken to answer every constructor alike, as an accessor of the
    metrics of the process does. *)
Variable metrics : bool.

(** [NewInstrumentedStep(s, name, module)]; it is not part of the sources
    at hand. *)
Variable NewInstrumentedStep : builtStep -> string -> string -> error + builtStep.

(** [newSignStep] *)
Definition newSignStep (signer : option Signer) (km : option KeyManager)
  : error + builtStep :=
  match signer with
  | None => inl (errorString "invalid config: Signer plugin not configured")
  | Some signer =>
      match km with
      | None => inl (errorString "invalid config: KeyManager plugin not configured")
      | Some km => inr (BuiltSign {| signStep_signer := signer; signStep_km := km |})
      end
  end.

(** [newValidateSignStep] *)
Definition newValidateSignStep (signValidator : option SignValidator)
  (km : option KeyManager) : error + builtStep :=
  match signValidator with
  | None => inl (errorString "invalid config: SignValidator plugin not configured")
  | Some signValidator =>
      match km with
      | None => inl (errorString "invalid config: KeyManager plugin not configured")
      | Some km =>
          inr (BuiltValidateSign
                 {| validateSignStep_validator := signValidator;
                    validateSignStep_km := km;
                    validateSignStep_metrics := metrics |})
      end
  end.

(** [newValidateSchemaStep] *)
Definition newValidateSchemaStep (schemaValidator : option SchemaValidator)
  : error + builtStep :=
  match schemaValidator with
  | None => inl (errorString "invalid config: SchemaValidator plugin not configured")
  | Some schemaValidator =>
      inr (BuiltValidateSchema
             {| validateSchemaStep_validator := schemaValidator;
                validateSchemaStep_metrics := metrics |})
  end.

(** [newAddRouteStep] *)
Definition newAddRouteStep (router : option Router) : error + builtStep :=
  match router with
  | None => inl (errorString "invalid config: Router plugin not configured")
  | Some router =>
      inr (BuiltAddRoute {| addRouteStep_router := router; addRouteStep_metrics := metrics |})
  end.

(** [newValidateOndcStep] *)
Definition newValidateOndcStep (ondcValidator : option OndcValidator)
  : error + builtStep :=
  match ondcValidator with
  | None => inl (errorString "invalid config: OndcValidator plugin not configured")
  | Some v => inr (BuiltValidateOndc {| validateOndcStep_validator := v |})
  end.

(** [newValidateOndcCallSaveStep] *)
Definition newValidateOndcCallSaveStep (ondcValidator : option OndcValidator)
  : error + builtStep :=
  match ondcValidator with
  | None => inl (errorString "invalid config: OndcValidator plugin not configured")
  | Some v =>
      inr (BuiltValidateOndcCallSave {| validateOndcCallSaveStep_validator := v |})
  end.

(** [newWorkbenchReceiveStep] *)
Definition newWorkbenchReceiveStep (workbench : option OndcWorkbench)
  : error + builtStep :=
  match workbench with
  | None => inl (errorString "invalid config: OndcWorkbench plugin not configured")
  | Some wb => inr (BuiltWorkbenchReceive {| workbenchReceiveStep_workbench := wb |})
  end.

(** [newWorkbenchValidateContextStep] *)
Definition newWorkbenchValidateContextStep (workbench : option OndcWorkbench)
  : error + builtStep :=
  match workbench with
  | None => inl (errorString "invalid config: OndcWorkbench plugin not configured")
  | Some wb =>
      inr (BuiltWorkbenchValidateContext
             {| workbenchValidateContextStep_workbench := wb |})
  end.

(** The first loop of [initSteps]: the custom steps by id; a later
    configuration with the same id replaces an earlier one. *)
Fixpoint loadCustomSteps (mgr : PluginManager) (cs : list Config)
  (steps : gmap string (option Step)) (log : list MgrCall)
  : (error + gmap string (option Step)) * list MgrCall :=
  match cs with
  | [] => (inr steps, log)
  | c :: rest =>
      match Mgr_Step mgr c with
      | inl err =>
          (inl (wrapError "failed to initialize plugin step %s: %w" err),
           log ++ [Load "Step" (Config_ID c)])
      | inr step =>
          loadCustomSteps mgr rest (<[Config_ID c := step]> steps)
            (log ++ [Load "Step" (Config_ID c)])
      end
  end.

(** The [switch] of the second loop. *)
Definition buildStep (h : Plugins) (steps : gmap string (option Step)) (step : string)
  : error + builtStep :=
  if String.eqb step "sign" then newSignStep (h_signer h) (h_km h)
  else if String.eqb step "validateSign" then
    newValidateSignStep (h_signValidator h) (h_km h)
  else if String.eqb step "validateSchema" then newValidateSchemaStep (h_schemaValidator h)
  else if String.eqb step "addRoute" then newAddRouteStep (h_router h)
  else if String.eqb step "validateOndcPayload" then newValidateOndcStep (h_ondcValidator h)
  else if String.eqb step "validateOndcCallSave" then
    newValidateOndcCallSaveStep (h_ondcValidator h)
  else if String.eqb step "ondcWorkbenchReceiver" then
    newWorkbenchReceiveStep (h_ondcWorkbench h)
  else if String.eqb step "ondcWorkbenchValidateContext" then
    newWorkbenchValidateContextStep (h_ondcWorkbench h)
  else match steps !! step with
       | Some customStep => inr (BuiltCustom customStep)
       | None => inl (errorString ("unrecognized step: " ++ step))
       end.

(** The second loop of [initSteps]: [acc] is [h.steps] so far. *)
Fixpoint registerSteps (h : Plugins) (moduleName : string)
  (steps : gmap string (option Step)) (names : list string) (acc : list builtStep)
  : option error * list builtStep :=
  match names with
  | [] => (None, acc)
  | step :: rest =>
      match buildStep h steps step with
      | inl err => (Some err, acc)
      | inr s =>
          match NewInstrumentedStep s step moduleName with
          | inl _ => registerSteps h moduleName steps rest (acc ++ [s])
          | inr instrumentedStep =>
              registerSteps h moduleName steps rest (acc ++ [instrumentedStep])
          end
      end
  end.

(** [stdHandler.initSteps]: the error, [h.steps] as the function leaves it,
    and the calls made to the manager. *)
Definition initSteps (mgr : PluginManager) (h : Plugins) (moduleName : string)
  (customCfg : list Config) (names : list string)
  : option error * list builtStep * list MgrCall :=
  match loadCustomSteps mgr customCfg ∅ [] with
  | (inl err, log) => (Some err, [], log)
  | (inr steps, log) =>
      let '(err, built) := registerSteps h moduleName steps names [] in
      (err, built, log)
  end.

End Build.

Arguments andThen {Cache Registry TransportWrapper T}.
Arguments loadKeyManager {Cache Registry TransportWrapper}.
Arguments loadOndcValidator {Cache Registry TransportWrapper}.
Arguments loadOndcWorkbench {Cache Registry TransportWrapper}.
Arguments initPlugins {Cache Registry TransportWrapper}.
Arguments loadCustomSteps {Cache Registry TransportWrapper}.
Arguments buildStep {Cache Registry TransportWrapper}.
Arguments registerSteps {Cache Registry TransportWrapper}.
Arguments initSteps {Cache Registry TransportWrapper}.

End Builder.

(** ** The schema validator plugin: indexing the schema directory *)

Module SchemaIndex.
Import Model GoStrings.

(** [strings.HasSuffix] *)
Definition HasSuffix (s suffix : string) : bool := HasPrefix (rev s) (rev suffix).

(** [strings.TrimSuffix] *)
Definition TrimSuffix (s suffix : string) : string :=
  if HasSuffix s suffix then take (String.length s - String.length suffix) s else s.

(** [filepath.Ext]: the suffix that starts at the last dot of the last
    element of the path; the scan runs from the end and stops at a
    separator. *)
Fixpoint ext_scan (reversed acc : string) : string :=
  match reversed with
  | EmptyString => EmptyString
  | String c r =>
      if Ascii.eqb c "/" then EmptyString
      else if Ascii.eqb c "." then String c acc
      else ext_scan r (String c acc)
  end.

Definition Ext (path : string) : string := ext_scan (rev path) EmptyString.

(** What [os.ReadDir] and [entry.IsDir] show of the schema directory: a
    file, or a directory with the error of reading it, if any, and its
    entries in the order [os.ReadDir] returns them. *)
#[warnings="-register-all"] Inductive Entry :=
| File (name : string)
| Dir (name : string) (readError : option string) (entries : list Entry).

(** What [os.Stat] shows of the configured path. *)
Inductive Stat :=
| NotExist
| StatFails (text : string)
| NotADirectory
| Directory (readError : option string) (entries : list Entry).

Section Index.

(** [filepath.Join(dir, name)] *)
Variable Join : string -> string -> string.

(** The body of the loop for a file with the extension [.json], on a
    system whose path separator is the slash.  [parts] is
    [strings.Split(relativePath, "/")]: the names on the way from the
    schema directory to the file, which is what [filepath.Rel] of a path
    built by [filepath.Join] from the schema directory gives (it does not
    fail on such a path, so its error branch is never taken). *)
Definition indexFile (parts : list string) (entryPath : string)
  (schemaFiles : gmap string string) : string + gmap string string :=
  let relativePath := SchemaValidator.Join parts "/" in
  match parts with
  | p0 :: p1 :: p2 :: _ =>
      let domain := TrimSpace p0 in
      let version := TrimSpace p1 in
      let schemaFileName := TrimSpace p2 in
      let schemaFileName := TrimSuffix schemaFileName ".json" in
      if String.eqb domain EmptyString || String.eqb version EmptyString
         || String.eqb schemaFileName EmptyString
      then inl ("invalid schema file structure, one or more components are empty. Relative path: "
                ++ relativePath)%string
      else
        let uniqueKey := (domain ++ "_" ++ version ++ "_" ++ schemaFileName)%string in
        inr (<[uniqueKey := entryPath]> schemaFiles)
  | _ =>
      inl ("invalid schema file structure, expected domain/version/schema.json but got: "
           ++ relativePath)%string
  end.

(** One round of the loop of [processDir] on the entry [e] of the
    directory [dir], whose names from the schema directory are [rel]; the
    left summand is the text of the error returned. *)
Fixpoint processEntry (dir : string) (rel : list string) (e : Entry)
  (schemaFiles : gmap string string) {struct e} : string + gmap string string :=
  match e with
  | File name =>
      if String.eqb (Ext name) ".json"
      then indexFile (rel ++ [name]) (Join dir name) schemaFiles
      else inr schemaFiles
  | Dir name readError entries =>
      match readError with
      | Some text => inl ("failed to read directory: " ++ text)%string
      | None =>
          (fix loop (es : list Entry) (files : gmap string string) {struct es}
             : string + gmap string string :=
             match es with
             | [] => inr files
             | e' :: es' =>
                 match processEntry (Join dir name) (rel ++ [name]) e' files with
                 | inl err => inl err
                 | inr files' => loop es' files'
                 end
             end) entries schemaFiles
      end
  end.

(** [processDir] on a directory that was read. *)
Fixpoint processEntries (dir : string) (rel : list string) (es : list Entry)
  (schemaFiles : gmap string string) : string + gmap string string :=
  match es with
  | [] => inr schemaFiles
  | e :: es' =>
      match processEntry dir rel e schemaFiles with
      | inl err => inl err
      | inr files' => processEntries dir rel es' files'
      end
  end.

(** [schemaValidator.initialise]: the error, or [v.schemaFiles]. *)
Definition initialise (schemaDir : string) (stat : Stat) : error + gmap string string :=
  match stat with
  | NotExist => inl (errorString ("schema directory does not exist: " ++ schemaDir))
  | StatFails text => inl (errorString ("failed to access schema directory: " ++ text))
  | NotADirectory =>
      inl (errorString ("provided schema path is not a directory: " ++ schemaDir))
  | Directory readError entries =>
      match readError with
      | Some text =>
          inl (errorString ("failed to read schema directory: "
                            ++ "failed to read directory: " ++ text))
      | None =>
          match processEntries schemaDir [] entries ∅ with
          | inl err => inl (errorString ("failed to read schema directory: " ++ err))
          | inr files => inr files
          end
      end
  end.

(** *** The walk, flattened *)

(** What the walk meets: a [.json] file, with its names from the schema
    directory and its path, or a directory that cannot be read. *)
Inductive Item :=
| JsonFile (parts : list string) (path : string)
| Unreadable (text : string).

(** The items below an entry, in the order of the walk. *)
Fixpoint itemsOf (dir : string) (rel : list string) (e : Entry) {struct e} : list Item :=
  match e with
  | File name =>
      if String.eqb (Ext name) ".json" then [JsonFile (rel ++ [name]) (Join dir name)]
      else []
  | Dir name readError entries =>
      match readError with
      | Some text => [Unreadable text]
      | None =>
          (fix loop (es : list Entry) {struct es} : list Item :=
             match es with
             | [] => []
             | e' :: es' => itemsOf (Join dir name) (rel ++ [name]) e' ++ loop es'
             end) entries
      end
  end.

Fixpoint itemsOfEntries (dir : string) (rel : list string) (es : list Entry) : list Item :=
  match es with
  | [] => []
  | e :: es' => itemsOf dir rel e ++ itemsOfEntries dir rel es'
  end.

(** The key of a [.json] file with at least three names. *)
Definition keyOf (parts : list string) : option string :=
  match parts with
  | p0 :: p1 :: p2 :: _ =>
      Some (TrimSpace p0 ++ "_" ++ TrimSpace p1 ++ "_"
            ++ TrimSuffix (TrimSpace p2) ".json")%string
  | _ => None
  end.

(** An item that the index accepts: a file at least three names deep none
    of whose first three names trims to nothing (the third after dropping
    the suffix [.json]). *)
Definition accepted (it : Item) : Prop :=
  match it with
  | JsonFile (p0 :: p1 :: p2 :: _) _ =>
      TrimSpace p0 <> EmptyString /\ TrimSpace p1 <> EmptyString
      /\ TrimSuffix (TrimSpace p2) ".json" <> EmptyString
  | _ => False
  end.

(** Indexing the items one after the other, as the walk does. *)
Fixpoint indexItems (items : list Item) (schemaFiles : gmap string string)
  : string + gmap string string :=
  match items with
  | [] => inr schemaFiles
  | JsonFile parts path :: rest =>
      match indexFile parts path schemaFiles with
      | inl err => inl err
      | inr files' => indexItems rest files'
      end
  | Unreadable text :: _ => inl ("failed to read directory: " ++ text)%string
  end.

(** The path of the last [.json] file among the items whose key is [k]. *)
Fixpoint lookupItems (k : string) (items : list Item) : option string :=
  match items with
  | [] => None
  | it :: rest =>
      match lookupItems k rest with
      | Some path => Some path
      | None =>
          match it with
          | JsonFile parts path =>
              match keyOf parts with
              | Some k' => if String.eqb k' k then Some path else None
              | None => None
              end
          | Unreadable _ => None
          end
      end
  end.

End Index.

End SchemaIndex.

(** ** Notions used in the statements about the builder *)

Module Plans.
Import Model Handler OndcSteps Builder.

(** The call that loading a configured plugin makes. *)
Definition plannedCall (kind : string) (cfg : option Config) : list MgrCall :=
  match cfg with
  | Some c => [Load kind (Config_ID c)]
  | None => []
  end.

(** The calls that a configuration asks for, in the order of [initPlugins]. *)
Definition planned (cfg : PluginCfg) : list MgrCall :=
  plannedCall "Cache" (Cfg_Cache cfg)
  ++ plannedCall "Registry" (Cfg_Registry cfg)
  ++ plannedCall "KeyManager" (Cfg_KeyManager cfg)
  ++ plannedCall "SignValidator" (Cfg_SignValidator cfg)
  ++ plannedCall "SchemaValidator" (Cfg_SchemaValidator cfg)
  ++ plannedCall "Router" (Cfg_Router cfg)
  ++ plannedCall "Publisher" (Cfg_Publisher cfg)
  ++ plannedCall "Signer" (Cfg_Signer cfg)
  ++ plannedCall "TransportWrapper" (Cfg_TransportWrapper cfg)
  ++ plannedCall "OndcValidator" (Cfg_OndcValidator cfg)
  ++ plannedCall "OndcWorkbench" (Cfg_OndcWorkbench cfg).

(** A run that started with the calls [log] made and the calls [plan]
    ahead: the calls made at its end are an initial part of [log] followed
    by [plan], and all of it when the run returned no error. *)
Definition follows_plan {H : Type} (plan log : list MgrCall)
  (out : option error * H * list MgrCall) : Prop :=
  (exists rest, log ++ plan = snd out ++ rest)
  /\ (fst (fst out) = None -> snd out = log ++ plan).

Definition present {T : Type} (x : option T) : bool :=
  match x with
  | Some _ => true
  | None => false
  end.

(** What a step name needs: the plugins of the built-in step of that name,
    or, for any other name, a custom step configured under that id. *)
Definition available {Cache Registry TransportWrapper : Type}
  (h : Plugins Cache Registry TransportWrapper) (customIDs : list string)
  (name : string) : bool :=
  if String.eqb name "sign" then present (h_signer _ _ _ h) && present (h_km _ _ _ h)
  else if String.eqb name "validateSign" then
    present (h_signValidator _ _ _ h) && present (h_km _ _ _ h)
  else if String.eqb name "validateSchema" then present (h_schemaValidator _ _ _ h)
  else if String.eqb name "addRoute" then present (h_router _ _ _ h)
  else if String.eqb name "validateOndcPayload" || String.eqb name "validateOndcCallSave"
  then present (h_ondcValidator _ _ _ h)
  else if String.eqb name "ondcWorkbenchReceiver"
          || String.eqb name "ondcWorkbenchValidateContext"
  then present (h_ondcWorkbench _ _ _ h)
  else existsb (String.eqb name) customIDs.

(** The step that [initSteps] appends for a built step: its instrumented
    form, or the step itself when instrumenting fails. *)
Definition instrumented (NewInstrumentedStep : builtStep -> string -> string -> error + builtStep)
  (s : builtStep) (name moduleName : string) : builtStep :=
  match NewInstrumentedStep s name moduleName with
  | inl _ => s
  | inr instrumentedStep => instrumentedStep
  end.

End Plans.

(** ** Further sample values used in the examples *)

Module Cases.
Import Model Http Handler OndcSteps Builder SchemaIndex.

(** A request whose body breaks off while it is read. *)
Definition unreadable_request : Request :=
  {| Request_Header := ∅;
     Request_Cookies := [];
     Request_URL := "/bap/receiver/search";
     Request_Host := "adapter.example";
     Request_Body := BodyFails (errorString "unexpected EOF");
     Request_Context := Sample.context |}.

(** The context that [ServeHTTP] builds for the sample request on a new
    writer. *)
Definition served_context (h : stdHandler) : StepContext :=
  {| Ctx_Context := Sample.context;
     Ctx_Request :=
       Request_with_Body (BodyBytes EmptyString) (Predicates.stamped h Sample.request);
     Ctx_Body := "{}";
     Ctx_Role := role h;
     Ctx_SubID := stdHandler_SubscriberID h;
     Ctx_RespHeader := ∅;
     Ctx_Route := None |}.

(** A step that only sets the route. *)
Definition setRoute (rt : Route) : Step :=
  {| Run := fun ctx σ => (None, Ctx_with_Route (Some rt) ctx, σ) |}.

Definition bppURL : URL :=
  {| URL_String := "https://bpp.example/search"; URL_Host := "bpp.example" |}.

Definition urlRoute : Route :=
  {| TargetType := "url"; PublisherID := EmptyString;
     Route_URL := Some bppURL; ActAsProxy := true |}.

Definition asyncMsgqRoute : Route :=
  {| TargetType := "msgq"; PublisherID := "search_requests";
     Route_URL := None; ActAsProxy := false |}.

(** A workbench error that asks for the status 429, and one with a
    behaviour the encoder does not know. *)
Definition throttled : Model.Error :=
  {| Error_Code := "429"; Error_Paths := EmptyString;
     Error_Message := "too many requests"; Error_Context := None |}.

(** A publisher that answers with a workbench error of a behaviour the
    encoder does not know. *)
Definition dropPublisher : Publisher :=
  {| Publisher_Publish := fun _ _ => Some (WorkbenchErr "DROP" throttled) |}.

(** A signer whose key store is out of reach. *)
Definition brokenSigner : Signer :=
  {| Signer_Sign := fun _ _ _ _ => inl (errorString "hsm unavailable") |}.

(** The sign step of the samples, and a context without subscriber id. *)
Definition signConfig : signStep :=
  {| signStep_signer := Sample.signer; signStep_km := Sample.keyManager |}.

Definition anonymous : StepContext := Ctx_with_SubID EmptyString Sample.stepContext.

Definition signed : StepResult :=
  signStep_Run Sample.pkg signConfig Sample.stepContext Sample.straddling_world.

Definition sampleKeyset : Keyset :=
  {| UniqueKeyID := "k1"; SigningPrivate := "private-key" |}.

(** The validateSign step of the samples, with metrics, and contexts whose
    request carries an authorization header and cookies. *)
Definition validateSignConfig : validateSignStep :=
  {| validateSignStep_validator := Sample.signValidator;
     validateSignStep_km := Sample.keyManager;
     validateSignStep_metrics := true |}.

Definition context_with (authorization : string) (cookies : list (string * string))
  : StepContext :=
  Ctx_with_Request
    {| Request_Header := Header_Set "Authorization" authorization ∅;
       Request_Cookies := cookies;
       Request_URL := "/bap/receiver/search";
       Request_Host := "adapter.example";
       Request_Body := BodyBytes EmptyString;
       Request_Context := Sample.context |}
    Sample.stepContext.

Definition goodHeader : string := generateAuthHeader "bap.example" "k1" 100 400 "c2ln".

Definition rejected : StepResult :=
  validateSignStep_Run Sample.pkg validateSignConfig (context_with "Signature" [])
    Sample.world.

Definition rejection : error :=
  SignValidationErr
    (wrapError "failed to validate %s: %w" (errorString "failed to parse header")).

(** The context of a request with the body [data]. *)
Definition schema_context (data : string) : StepContext :=
  {| Ctx_Context := Sample.context;
     Ctx_Request := Sample.request_with_body data;
     Ctx_Body := data;
     Ctx_Role := "bap";
     Ctx_SubID := "bap.example";
     Ctx_RespHeader := ∅;
     Ctx_Route := None |}.

(** A router that knows no route. *)
Definition lostRouter : Router :=
  {| Router_Route := fun _ _ _ => inl (NotFoundErr (errorString "no route for /search")) |}.

Definition addRouteConfig : addRouteStep :=
  {| addRouteStep_router := lostRouter; addRouteStep_metrics := false |}.

(** A workbench that names the subscriber in a cookie. *)
Definition named_request (r : Request) : Request :=
  {| Request_Header := Request_Header r;
     Request_Cookies := [("subscriber_id", "bpp.example")];
     Request_URL := Request_URL r;
     Request_Host := Request_Host r;
     Request_Body := Request_Body r;
     Request_Context := Request_Context r |}.

Definition workbench : OndcWorkbench :=
  {| OndcWorkbench_WorkbenchReceiver := fun r _ => (None, named_request r);
     OndcWorkbench_WorkbenchValidateContext := fun r _ => (None, r) |}.

Definition receiveConfig : workbenchReceiveStep :=
  {| workbenchReceiveStep_workbench := workbench |}.

(** A plugin manager that loads whatever it is asked for, and a
    configuration with a KeyManager and a Registry but no Cache. *)
Definition manager : PluginManager unit unit unit :=
  {| Mgr_Cache := fun _ => inr (Some tt);
     Mgr_Registry := fun _ => inr (Some tt);
     Mgr_KeyManager := fun _ _ _ => inr (Some Sample.keyManager);
     Mgr_SignValidator := fun _ => inr (Some Sample.signValidator);
     Mgr_SchemaValidator := fun _ => inr (Some Sample.schemaPlugin);
     Mgr_Router := fun _ => inr (Some lostRouter);
     Mgr_Publisher := fun _ => inr (Some Sample.okPublisher);
     Mgr_Signer := fun _ => inr (Some Sample.signer);
     Mgr_TransportWrapper := fun _ => inr (Some tt);
     Mgr_OndcValidator := fun _ _ => inr None;
     Mgr_OndcWorkbench := fun _ _ => inr (Some workbench);
     Mgr_Step := fun _ => inr (Some Sample.passStep) |}.

Definition config (id : string) : Config := {| Config_ID := id; Config_Config := [] |}.

Definition cfg_without_cache : PluginCfg :=
  {| Cfg_Cache := None;
     Cfg_Registry := Some (config "registry");
     Cfg_KeyManager := Some (config "keymanager");
     Cfg_SignValidator := Some (config "signvalidator");
     Cfg_SchemaValidator := None;
     Cfg_Router := None;
     Cfg_Publisher := None;
     Cfg_Signer := None;
     Cfg_TransportWrapper := None;
     Cfg_OndcValidator := None;
     Cfg_OndcWorkbench := None;
     Cfg_Steps := [] |}.

(** A schema directory with one schema, and [filepath.Join] on names
    without separators. *)
Definition Join (dir name : string) : string := (dir ++ "/" ++ name)%string.

Definition tree : list Entry :=
  [Dir "retail" None [Dir "v1.1.0" None [File "search.json"; File "README.md"]]].

Definition schema_index : gmap string string :=
  {[ "retail_v1.1.0_search" := "schemas/retail/v1.1.0/search.json" ]}.

Definition retail_payload : SchemaValidator.payload :=
  {| SchemaValidator.Domain := "retail";
     SchemaValidator.Version := "1.1.0";
     SchemaValidator.CoreVersion := EmptyString |}.

End Cases.

(* ===================================================================== *)
(** * Part II.  Properties                                                *)
(* ===================================================================== *)

Import Model Http Handler Wiring Notions.

#[local] Arguments String.append !_ _ /.

(** ** Strings *)

Section Strings.
Import GoStrings.

Lemma append_nil_r (s : string) : (s ++ EmptyString)%string = s.
Proof. induction s as [|c s IH]; cbn [append]; [reflexivity | now rewrite IH]. Qed.

Lemma append_assoc (a b c : string) : ((a ++ b) ++ c)%string = (a ++ b ++ c)%string.
Proof. induction a as [|x a IH]; cbn [append]; [reflexivity | now rewrite IH]. Qed.

Lemma length_append (a b : string) :
  String.length (a ++ b) = String.length a + String.length b.
Proof.
  induction a as [|x a IH]; cbn [append String.length]; [reflexivity | now rewrite IH].
Qed.

Lemma take_drop n : forall s, (take n s ++ drop n s)%string = s.
Proof.
  induction n as [|n IH]; intros [|c s]; cbn [take drop append]; try reflexivity.
  now rewrite IH.
Qed.

Lemma length_take n : forall s, n <= String.length s -> String.length (take n s) = n.
Proof.
  induction n as [|n IH]; intros [|c s] H; cbn [take String.length] in *;
    try reflexivity; try lia.
  rewrite IH; [reflexivity | lia].
Qed.

Lemma drop_drop n : forall m s, drop n (drop m s) = drop (m + n) s.
Proof.
  intros m. induction m as [|m IH]; intros s; simpl; [reflexivity|].
  destruct s as [|c s]; [destruct n; reflexivity | apply IH].
Qed.

Lemma drop_app_length (a b : string) : drop (String.length a) (a ++ b) = b.
Proof. induction a as [|x a IH]; cbn [append String.length drop]; [reflexivity | exact IH]. Qed.

Lemma take_app_length (a b : string) : take (String.length a) (a ++ b) = a.
Proof.
  induction a as [|x a IH]; cbn [append String.length take];
    [destruct b; reflexivity | now rewrite IH].
Qed.

Lemma HasPrefix_app (p r : string) : HasPrefix (p ++ r) p = true.
Proof.
  induction p as [|a p IH]; simpl; [reflexivity|].
  rewrite Ascii.eqb_refl. exact IH.
Qed.

Lemma HasPrefix_inv : forall p s, HasPrefix s p = true -> s = (p ++ drop (String.length p) s)%string.
Proof.
  induction p as [|a p IH]; intros s H; simpl in *; [reflexivity|].
  destruct s as [|b s]; [discriminate|].
  apply andb_true_iff in H. destruct H as [Hab Hp].
  apply Ascii.eqb_eq in Hab. subst b. simpl. f_equal. apply IH, Hp.
Qed.

Lemma Index_Some sep : forall s n,
  Index s sep = Some n ->
  HasPrefix (drop n s) sep = true
  /\ n <= String.length s
  /\ forall m, m < n -> HasPrefix (drop m s) sep = false.
Proof.
  induction s as [|c s IH]; intros n H.
  - simpl in H. destruct (HasPrefix EmptyString sep) eqn:Hp; [|discriminate].
    inversion H; subst. simpl. split; [exact Hp|]. split; [lia|]. intros m Hm; lia.
  - cbn [Index] in H. destruct (HasPrefix (String c s) sep) eqn:Hp.
    + inversion H; subst. cbn [drop]. split; [exact Hp|]. split; [lia|]. intros m Hm; lia.
    + destruct (Index s sep) as [k|] eqn:Hk; [|discriminate].
      inversion H; subst. destruct (IH k eq_refl) as (H1 & H2 & H3).
      cbn [drop String.length]. split; [exact H1|]. split; [lia|].
      intros m Hm. destruct m as [|m]; [exact Hp|]. cbn [drop]. apply H3. lia.
Qed.

Lemma Index_None sep : forall s,
  Index s sep = None -> forall m, HasPrefix (drop m s) sep = false.
Proof.
  induction s as [|c s IH]; intros H m.
  - simpl in H. destruct (HasPrefix EmptyString sep) eqn:Hp; [discriminate|].
    destruct m; exact Hp.
  - cbn [Index] in H. destruct (HasPrefix (String c s) sep) eqn:Hp; [discriminate|].
    destruct (Index s sep) eqn:Hk; [discriminate|].
    destruct m as [|m]; [exact Hp|]. cbn [drop]. apply IH. reflexivity.
Qed.

(** The index of the first occurrence, from a decomposition of the string. *)
Lemma Index_first (s sep pre rest : string) :
  s = (pre ++ sep ++ rest)%string ->
  (forall p q, s = (p ++ sep ++ q)%string -> String.length pre <= String.length p) ->
  Index s sep = Some (String.length pre).
Proof.
  intros Hs Hmin.
  assert (Hat : HasPrefix (drop (String.length pre) s) sep = true).
  { rewrite Hs, drop_app_length. apply HasPrefix_app. }
  destruct (Index s sep) as [n|] eqn:Hi.
  - destruct (Index_Some sep s n Hi) as (Hp & Hle & Hlt).
    f_equal.
    assert (String.length pre <= n).
    { assert (Hd : s = (take n s ++ sep ++ drop (String.length sep) (drop n s))%string).
      { rewrite <- (HasPrefix_inv sep (drop n s) Hp). symmetry. apply take_drop. }
      specialize (Hmin _ _ Hd). rewrite length_take in Hmin; assumption. }
    destruct (Nat.eq_dec n (String.length pre)) as [|Hne]; [assumption|].
    rewrite Hlt in Hat; [discriminate | lia].
  - rewrite (Index_None sep s Hi) in Hat. discriminate.
Qed.

Lemma Index_byte c post : forall v,
  contains_byte c v = false ->
  Index (v ++ String c post) (String c EmptyString) = Some (String.length v).
Proof.
  induction v as [|d v IH]; intros H.
  - simpl. rewrite Ascii.eqb_refl. reflexivity.
  - simpl in H. apply orb_false_iff in H. destruct H as [Hd Hv].
    cbn [append Index HasPrefix]. rewrite Ascii.eqb_sym, Hd. simpl.
    rewrite (IH Hv). reflexivity.
Qed.

Lemma take_no_byte c : forall m s,
  (forall k, k < m -> HasPrefix (drop k s) (String c EmptyString) = false) ->
  contains_byte c (take m s) = false.
Proof.
  induction m as [|m IH]; intros s H; [reflexivity|].
  destruct s as [|d s]; [reflexivity|]. simpl.
  apply orb_false_iff. split.
  - specialize (H 0 ltac:(lia)). simpl in H.
    rewrite andb_true_r in H. rewrite Ascii.eqb_sym. exact H.
  - apply IH. intros k Hk. apply (H (S k)). lia.
Qed.

Lemma contains_byte_app c (a b : string) :
  contains_byte c (a ++ b) = contains_byte c a || contains_byte c b.
Proof.
  induction a as [|x a IH]; simpl; [reflexivity|]. rewrite IH. apply orb_assoc.
Qed.

(** *** The quoted value of [keyId] is what [keyIDPart] trims *)

Lemma keyIDPart_of_quoted header v :
  quoted_keyId header v -> keyIDPart header = TrimSpace v.
Proof.
  intros (pre & post & Hh & Hmin & Hq).
  unfold keyIDPart.
  rewrite (Index_first header keyIdPrefix pre _ Hh Hmin).
  assert (Hd : drop (String.length pre + String.length keyIdPrefix) header
               = (v ++ dquote ++ post)%string).
  { rewrite <- drop_drop, Hh, drop_app_length, drop_app_length. reflexivity. }
  rewrite Hd.
  change (v ++ dquote ++ post)%string with (v ++ String (byte 34) post)%string.
  change dquote with (String (byte 34) EmptyString).
  rewrite (Index_byte _ post v Hq), take_app_length. reflexivity.
Qed.

Lemma quoted_of_keyIDPart header n m :
  Index header keyIdPrefix = Some n ->
  Index (drop (n + String.length keyIdPrefix) header) dquote = Some m ->
  quoted_keyId header (take m (drop (n + String.length keyIdPrefix) header)).
Proof.
  intros Hn Hm.
  destruct (Index_Some _ _ _ Hn) as (Hp & Hle & Hlt).
  destruct (Index_Some _ _ _ Hm) as (Hp' & Hle' & Hlt').
  set (X := drop (n + String.length keyIdPrefix) header) in *.
  exists (take n header), (drop (String.length dquote) (drop m X)).
  split; [|split].
  - rewrite <- (HasPrefix_inv dquote (drop m X) Hp'), take_drop.
    unfold X. rewrite <- drop_drop.
    rewrite <- (HasPrefix_inv keyIdPrefix (drop n header) Hp). symmetry. apply take_drop.
  - intros p q Hpq. rewrite length_take by assumption.
    destruct (Nat.le_gt_cases n (String.length p)) as [|Hgt]; [assumption|].
    specialize (Hlt _ Hgt). rewrite Hpq, drop_app_length, HasPrefix_app in Hlt.
    discriminate.
  - apply take_no_byte. exact Hlt'.
Qed.

(** C8, as the code has it.  [parseHeader] reads the first occurrence of
    the text [keyId=] followed by a double quote, wherever it stands, and
    nothing after it: it succeeds exactly when this first occurrence is
    followed by a closing quote and the trimmed content between the two
    splits on the bar into three components, and then returns the three
    components, each trimmed, as subscriber id, unique key id and
    algorithm; in every other case (no such text, no closing quote,
    another number of components) it returns an error. *)
Theorem parseHeader_three_components (header : string) :
  (forall a : authHeader,
     parseHeader header = inl a <->
     exists v c0 c1 c2,
       quoted_keyId header v
       /\ Split (TrimSpace v) "|" = [c0; c1; c2]
       /\ a = {| SubscriberID := TrimSpace c0;
                 UniqueID := TrimSpace c1;
                 Algorithm := TrimSpace c2 |})
  /\ ((~ exists v c0 c1 c2,
          quoted_keyId header v /\ Split (TrimSpace v) "|" = [c0; c1; c2]) ->
      exists e, parseHeader header = inr e).
Proof.
  assert (Hfwd : forall a, parseHeader header = inl a ->
            exists v c0 c1 c2,
              quoted_keyId header v
              /\ Split (TrimSpace v) "|" = [c0; c1; c2]
              /\ a = {| SubscriberID := TrimSpace c0;
                        UniqueID := TrimSpace c1;
                        Algorithm := TrimSpace c2 |}).
  { intros a H. unfold parseHeader in H.
    destruct (String.eqb (keyIDPart header) EmptyString) eqn:Hne; [discriminate|].
    apply String.eqb_neq in Hne.
    destruct (Split (keyIDPart header) "|") as [|c0 [|c1 [|c2 [|c3 l]]]] eqn:Hsp;
      try discriminate.
    inversion H; subst a; clear H.
    unfold keyIDPart in Hne, Hsp.
    destruct (Index header keyIdPrefix) as [n|] eqn:Hn; [|congruence].
    destruct (Index (drop (n + String.length keyIdPrefix) header) dquote) as [m|] eqn:Hm;
      [|congruence].
    exists (take m (drop (n + String.length keyIdPrefix) header)), c0, c1, c2.
    split; [apply quoted_of_keyIDPart; assumption|]. split; [exact Hsp | reflexivity]. }
  split.
  - intros a. split; [apply Hfwd|].
    intros (v & c0 & c1 & c2 & Hq & Hsp & Ha).
    unfold parseHeader. rewrite (keyIDPart_of_quoted header v Hq).
    destruct (String.eqb (TrimSpace v) EmptyString) eqn:He.
    + apply String.eqb_eq in He. rewrite He in Hsp. discriminate.
    + rewrite Hsp. subst a. reflexivity.
  - intros Hno. destruct (parseHeader header) as [a|e] eqn:Hp.
    + exfalso. apply Hno. destruct (Hfwd a eq_refl) as (v & c0 & c1 & c2 & Hq & Hsp & _).
      exists v, c0, c1, c2. split; assumption.
    + exists e. reflexivity.
Qed.

(** *** Splitting and trimming *)

Lemma Split_nosep sep : forall a,
  contains_byte sep a = false -> Split a sep = [a].
Proof.
  induction a as [|c a IH]; intros H; [reflexivity|].
  simpl in H. apply orb_false_iff in H. destruct H as [Hc Ha].
  cbn [Split]. rewrite Hc, (IH Ha). reflexivity.
Qed.

Lemma Split_app sep r : forall a,
  contains_byte sep a = false ->
  Split (a ++ String sep r) sep = a :: Split r sep.
Proof.
  induction a as [|c a IH]; intros H.
  - cbn [append Split]. rewrite Ascii.eqb_refl. reflexivity.
  - simpl in H. apply orb_false_iff in H. destruct H as [Hc Ha].
    cbn [append Split]. rewrite Hc, (IH Ha). reflexivity.
Qed.

Lemma length_drop : forall k s, String.length (drop k s) = String.length s - k.
Proof.
  induction k as [|k IH]; intros s; cbn [drop]; [lia|].
  destruct s as [|c s]; [reflexivity|]. cbn [String.length]. apply IH.
Qed.

(** Trimming returns a suffix of its argument. *)
Lemma trim_front_drop p2 p3 : forall n s,
  String.length s <= n ->
  exists k, k <= String.length s /\ trim_front p2 p3 s = drop k s.
Proof.
  induction n as [|n IH]; intros s Hn.
  - destruct s; [|simpl in Hn; lia]. exists 0. split; [lia | reflexivity].
  - destruct s as [|c r]; [exists 0; split; [lia | reflexivity]|].
    cbn [String.length] in *. cbn [trim_front].
    destruct (asciiSpace c).
    { destruct (IH r ltac:(lia)) as (k & Hk & E). exists (S k). split; [lia | exact E]. }
    destruct r as [|d r2]; [exists 0; split; [lia | reflexivity]|].
    cbn [String.length] in *.
    destruct (p2 c d).
    { destruct (IH r2 ltac:(lia)) as (k & Hk & E). exists (S (S k)). split; [lia | exact E]. }
    destruct r2 as [|e r3]; [exists 0; split; [lia | reflexivity]|].
    cbn [String.length] in *.
    destruct (p3 c d e).
    { destruct (IH r3 ltac:(lia)) as (k & Hk & E). exists (S (S (S k))).
      split; [lia | exact E]. }
    exists 0. split; [lia | reflexivity].
Qed.

Lemma trim_front_length p2 p3 s :
  String.length (trim_front p2 p3 s) <= String.length s.
Proof.
  destruct (trim_front_drop p2 p3 (String.length s) s (le_n _)) as (k & _ & E).
  rewrite E, length_drop. lia.
Qed.

(** A string of the same length as its trimmed form is its trimmed form. *)
Lemma trim_front_same_length p2 p3 s :
  String.length (trim_front p2 p3 s) = String.length s -> trim_front p2 p3 s = s.
Proof.
  destruct (trim_front_drop p2 p3 (String.length s) s (le_n _)) as (k & Hk & E).
  rewrite E, length_drop. intros H.
  assert (k = 0 \/ String.length s = 0) as [->| H0] by lia; [reflexivity|].
  destruct s; [destruct k; reflexivity | discriminate].
Qed.

Lemma trim_front_eq p2 p3 c r :
  trim_front p2 p3 (String c r)
  = if asciiSpace c then trim_front p2 p3 r
    else match r with
         | EmptyString => String c r
         | String d r2 =>
             if p2 c d then trim_front p2 p3 r2
             else match r2 with
                  | EmptyString => String c r
                  | String e r3 =>
                      if p3 c d e then trim_front p2 p3 r3 else String c r
                  end
         end.
Proof. reflexivity. Qed.

(** An untrimmable string stays so when a byte follows that is no part of
    any white-space rune. *)
Lemma trim_front_fixed_app p2 p3 b rest s :
  asciiSpace b = false ->
  (forall c, p2 c b = false) -> (forall d, p2 b d = false) ->
  (forall c d, p3 c d b = false) -> (forall c e, p3 c b e = false) ->
  (forall d e, p3 b d e = false) ->
  trim_front p2 p3 s = s ->
  trim_front p2 p3 (s ++ String b rest) = (s ++ String b rest)%string.
Proof.
  intros Hb H2l H2f H3l H3m H3f H.
  assert (Hshort : forall c r, trim_front p2 p3 r <> String c r).
  { intros c r E. pose proof (trim_front_length p2 p3 r) as L.
    rewrite E in L. cbn [String.length] in L. lia. }
  assert (Hshort2 : forall c d r, trim_front p2 p3 r <> String c (String d r)).
  { intros c d r E. pose proof (trim_front_length p2 p3 r) as L.
    rewrite E in L. cbn [String.length] in L. lia. }
  assert (Hshort3 : forall c d e r, trim_front p2 p3 r <> String c (String d (String e r))).
  { intros c d e r E. pose proof (trim_front_length p2 p3 r) as L.
    rewrite E in L. cbn [String.length] in L. lia. }
  destruct s as [|c [|d [|e r3]]]; cbn [append]; rewrite trim_front_eq;
    try rewrite trim_front_eq in H.
  - rewrite Hb. destruct rest as [|d [|e r]]; [reflexivity| |].
    + rewrite H2f. reflexivity.
    + rewrite H2f, H3f. reflexivity.
  - destruct (asciiSpace c); [discriminate|].
    rewrite H2l. destruct rest as [|e r]; [reflexivity|]. rewrite H3m. reflexivity.
  - destruct (asciiSpace c); [exfalso; exact (Hshort _ _ H)|].
    destruct (p2 c d); [discriminate|]. rewrite H3l. reflexivity.
  - destruct (asciiSpace c); [exfalso; exact (Hshort _ _ H)|].
    destruct (p2 c d); [exfalso; exact (Hshort2 _ _ _ H)|].
    destruct (p3 c d e); [exfalso; exact (Hshort3 _ _ _ _ H)|]. reflexivity.
Qed.

Lemma rev_onto_spec : forall s acc, rev_onto s acc = (rev s ++ acc)%string.
Proof.
  unfold rev. induction s as [|c s IH]; intros acc; cbn [rev_onto]; [reflexivity|].
  rewrite IH, (IH (String c EmptyString)), append_assoc. reflexivity.
Qed.

Lemma rev_app (a b : string) : rev (a ++ b) = (rev b ++ rev a)%string.
Proof.
  induction a as [|c a IH]; cbn [append].
  - rewrite append_nil_r. reflexivity.
  - unfold rev at 1 3. cbn [rev_onto]. rewrite !rev_onto_spec, IH, append_assoc. reflexivity.
Qed.

Lemma rev_rev (s : string) : rev (rev s) = s.
Proof.
  induction s as [|c s IH]; [reflexivity|].
  unfold rev at 2. cbn [rev_onto]. rewrite rev_onto_spec, rev_app, IH. reflexivity.
Qed.

Lemma length_rev (s : string) : String.length (rev s) = String.length s.
Proof.
  induction s as [|c s IH]; [reflexivity|].
  unfold rev. cbn [rev_onto]. rewrite rev_onto_spec, length_append, IH.
  cbn [String.length]. lia.
Qed.

Lemma TrimRightSpace_length s : String.length (TrimRightSpace s) <= String.length s.
Proof.
  unfold TrimRightSpace. rewrite length_rev.
  etransitivity; [apply trim_front_length|]. rewrite length_rev. lia.
Qed.

(** A string that [TrimSpace] leaves alone has no white space at either end. *)
Lemma TrimSpace_fixed s :
  TrimSpace s = s -> TrimLeftSpace s = s /\ TrimRightSpace s = s.
Proof.
  intros H. unfold TrimSpace in H.
  assert (Hl : TrimLeftSpace s = s).
  { apply trim_front_same_length.
    pose proof (TrimRightSpace_length (TrimLeftSpace s)) as L1.
    pose proof (trim_front_length space2 space3 s) as L2.
    rewrite H in L1. unfold TrimLeftSpace in L1. lia. }
  split; [exact Hl|]. rewrite Hl in H. exact H.
Qed.

(** *** The header built by [generateAuthHeader] *)

Lemma TrimLeftSpace_bar s rest :
  TrimLeftSpace s = s ->
  TrimLeftSpace (s ++ String "|" rest) = (s ++ String "|" rest)%string.
Proof.
  apply trim_front_fixed_app.
  - reflexivity.
  - intros c. unfold space2. apply andb_false_r.
  - intros d. reflexivity.
  - intros c d. unfold space3.
    destruct (byte_eqb c 225), (byte_eqb c 226), (byte_eqb c 227),
      (byte_eqb d 154), (byte_eqb d 128), (byte_eqb d 129); reflexivity.
  - intros c e. unfold space3.
    destruct (byte_eqb c 225), (byte_eqb c 226), (byte_eqb c 227); reflexivity.
  - intros d e. reflexivity.
Qed.

Lemma TrimRightSpace_algorithm x :
  TrimRightSpace (x ++ "ed25519") = (x ++ "ed25519")%string.
Proof.
  unfold TrimRightSpace. rewrite rev_app.
  change (rev "ed25519") with "91552de".
  cbn [append]. rewrite trim_front_eq.
  change (asciiSpace "9") with false. cbv iota.
  change (space2 "1" "9") with false. cbv iota.
  change (space3 "5" "1" "9") with false. cbv iota.
  change (String "9" (String "1" (String "5" (String "5" (String "2"
            (String "d" (String "e" (rev x))))))))
    with ("91552de" ++ rev x)%string.
  rewrite rev_app, rev_rev. reflexivity.
Qed.

(** The key id part of a generated header, for ids that hold no double
    quote. *)
Lemma keyIDPart_generated subID keyID createdAt validTill signature :
  contains_byte (byte 34) subID = false ->
  contains_byte (byte 34) keyID = false ->
  keyIDPart (generateAuthHeader subID keyID createdAt validTill signature)
  = TrimSpace (subID ++ "|" ++ keyID ++ "|ed25519").
Proof.
  intros Hs Hk. apply keyIDPart_of_quoted.
  exists "Signature ".
  eexists.
  split; [|split].
  - unfold generateAuthHeader. rewrite !append_assoc. reflexivity.
  - intros p q E. unfold generateAuthHeader in E.
    do 10 (destruct p as [|? p]; [cbn in E; discriminate E|]).
    cbn [String.length]. lia.
  - rewrite !contains_byte_app, Hs, Hk. reflexivity.
Qed.

(** C4, as the code has it.  Parsing the header built from a subscriber id
    and a key id that hold no double quote, no bar and no white space at
    either end gives back the subscriber id, the key id and the algorithm
    [ed25519]; these three are all that [parseHeader] returns. *)
Theorem parse_generated_header (subID keyID : string) (createdAt validTill : Z)
  (signature : string) :
  well_formed_id subID -> well_formed_id keyID ->
  parseHeader (generateAuthHeader subID keyID createdAt validTill signature)
  = inl {| SubscriberID := subID; UniqueID := keyID; Algorithm := "ed25519" |}.
Proof.
  intros (Hsq & Hsb & Hst) (Hkq & Hkb & Hkt).
  destruct (TrimSpace_fixed subID Hst) as [Hsl _].
  assert (Hpart : TrimSpace (subID ++ "|" ++ keyID ++ "|ed25519")
                  = (subID ++ "|" ++ keyID ++ "|ed25519")%string).
  { unfold TrimSpace.
    change (subID ++ "|" ++ keyID ++ "|ed25519")%string
      with (subID ++ String "|" (keyID ++ "|ed25519"))%string.
    rewrite (TrimLeftSpace_bar subID _ Hsl).
    change (keyID ++ "|ed25519")%string with (keyID ++ "|" ++ "ed25519")%string.
    change (subID ++ String "|" (keyID ++ "|" ++ "ed25519"))%string
      with (subID ++ "|" ++ keyID ++ "|" ++ "ed25519")%string.
    rewrite <- !append_assoc. apply TrimRightSpace_algorithm. }
  unfold parseHeader.
  rewrite (keyIDPart_generated _ _ _ _ _ Hsq Hkq), Hpart.
  assert (Hne : String.eqb (subID ++ "|" ++ keyID ++ "|ed25519") EmptyString = false).
  { destruct subID; reflexivity. }
  rewrite Hne.
  change (subID ++ "|" ++ keyID ++ "|ed25519")%string
    with (subID ++ String "|" (keyID ++ String "|" "ed25519"))%string.
  rewrite (Split_app "|" _ subID Hsb), (Split_app "|" _ keyID Hkb).
  change (Split "ed25519" "|") with ["ed25519"].
  rewrite Hst, Hkt. reflexivity.
Qed.

End Strings.

(** ** The response writer *)

Section WriterFacts.

Lemma fresh_new : fresh (newResponseWriter false).
Proof. repeat split. Qed.

Lemma fresh_with_header h w : fresh w -> fresh (rw_with_header h w).
Proof. intros (Hs & Hb & Hp). repeat split; assumption. Qed.

Lemma nack_fresh msgID w e status :
  fresh w -> final_with_body status = true ->
  rw_status (Response.nack msgID w e status) = Some status
  /\ rw_body (Response.nack msgID w e status)
     = rw_body w ++ [MarshalResponse (Response.nackResponse e)]
  /\ rw_sent (Response.nack msgID w e status)
     = Header_Set "Content-Type" "application/json" (rw_header w)
  /\ rw_panicked (Response.nack msgID w e status) = false.
Proof.
  intros (Hs & Hb & Hp) Hv. unfold final_with_body in Hv.
  apply andb_true_iff in Hv. destruct Hv as [Hv Hba].
  apply andb_true_iff in Hv. destruct Hv as [Hv Hni]. apply negb_true_iff in Hni.
  unfold Response.nack, Write, WriteHeader, set_header; simpl.
  rewrite Hs; simpl. rewrite Hv, Hni; simpl. rewrite Hp; simpl. rewrite Hba; simpl.
  rewrite Hb; simpl. repeat split; assumption.
Qed.

Lemma SendAck_fresh w :
  fresh w ->
  rw_status (Response.SendAck w) = Some 200%Z
  /\ rw_body (Response.SendAck w) = rw_body w ++ [MarshalResponse Response.ackResponse].
Proof.
  intros (Hs & Hb & Hp).
  unfold Response.SendAck, Write, WriteHeader, set_header; simpl.
  rewrite Hs; simpl. rewrite Hb; simpl. split; reflexivity.
Qed.

Lemma SendBody_fresh U msgID w val :
  fresh w ->
  rw_status (Response.SendBody U msgID w val) = Some 200%Z
  /\ rw_body (Response.SendBody U msgID w val)
     = rw_body w ++ [MarshalJSON (Response.parseJSONOrDefault U val)].
Proof.
  intros (Hs & Hb & Hp).
  unfold Response.SendBody, Write, WriteHeader, set_header; simpl.
  rewrite Hs; simpl. rewrite Hb; simpl. split; reflexivity.
Qed.

End WriterFacts.

(** ** The pipeline executor *)

Section Pipeline.

Variable P : Model.Pkg.
Variable U : string -> option JSON.

(** What one run of the loop adds to the invocation log. *)
Lemma runSteps_log ss : forall ctx σ inv err ctx' σ' inv',
  runSteps ss ctx σ inv = (err, ctx', σ', inv') ->
  exists new,
    inv' = inv ++ new
    /\ List.map fst new = firstn (length new) ss
    /\ length new <= length ss
    /\ (forall k st e, nth_error new k = Some (st, Some e) ->
          length new = S k /\ err = Some e)
    /\ match err with
       | Some e => exists k st, nth_error new k = Some (st, Some e)
       | None => length new = length ss
       end.
Proof.
  induction ss as [|step rest IH]; intros ctx σ inv err ctx' σ' inv' H; simpl in H.
  - inversion H; subst. exists []. rewrite app_nil_r.
    split; [reflexivity|]. split; [reflexivity|]. split; [simpl; lia|].
    split; [|reflexivity]. intros k st e Hk. destruct k; discriminate.
  - destruct (Run step ctx σ) as [[e1 ctx1] σ1] eqn:Hrun.
    destruct e1 as [e|].
    + inversion H; subst. exists [(step, Some e)].
      split; [reflexivity|]. split; [reflexivity|]. split; [simpl; lia|].
      split.
      * intros k st e0 Hk. destruct k as [|k]; simpl in Hk.
        -- split; [reflexivity|]. congruence.
        -- destruct k; discriminate.
      * exists 0, step. reflexivity.
    + apply IH in H. destruct H as (new & Hinv & Hpos & Hlen & Hab & Hlast).
      exists ((step, None) :: new).
      split; [rewrite Hinv, <- app_assoc; reflexivity|].
      split; [simpl; rewrite Hpos; reflexivity|].
      split; [simpl; lia|].
      split.
      * intros k st e Hk. destruct k as [|k]; simpl in Hk; [congruence|].
        apply Hab in Hk. simpl. split; [lia|tauto].
      * destruct err as [e|]; [|simpl; lia].
        destruct Hlast as (k & st & Hk). exists (S k), st. exact Hk.
Qed.

(** The invocations that one run of the loop adds to the log are calls of
    [Run], each on what the call before it left. *)
Lemma runSteps_chain ss : forall ctx σ inv err ctx' σ' inv',
  runSteps ss ctx σ inv = (err, ctx', σ', inv') ->
  exists new,
    inv' = inv ++ new
    /\ Predicates.Invocations ctx σ (firstn (length new) ss) new ctx' σ'.
Proof.
  induction ss as [|step rest IH]; intros ctx σ inv err ctx' σ' inv' H; simpl in H.
  - inversion H; subst. exists []. rewrite app_nil_r. split; [reflexivity|]. constructor.
  - destruct (Run step ctx σ) as [[e1 ctx1] σ1] eqn:Hrun.
    destruct e1 as [e|].
    + inversion H; subst. exists [(step, Some e)]. split; [reflexivity|].
      simpl. econstructor; [exact Hrun | constructor].
    + apply IH in H. destruct H as (new & Hinv & Hch).
      exists ((step, None) :: new).
      split; [rewrite Hinv, <- app_assoc; reflexivity|].
      simpl. econstructor; [exact Hrun | exact Hch].
Qed.

(** C1, as the code has it.  A request whose body cannot be read is
    answered by [SendNack] with the bad-request error before any step is
    invoked.  For every other request the invoked steps are an initial
    part of the configured sequence, called in that order, each on the
    context and the world that the step before it left; when an invoked
    step returns an error it is the last one invoked, so no step after it
    runs, and the response is what [SendNack] writes for that error on the
    writer with the response headers the steps have set; when no invoked
    step returns an error the whole sequence is invoked. *)
Theorem pipeline_ordering (h : stdHandler) (w : ResponseWriter) (r : Request)
  (σ : World) :
  let out := ServeHTTP P U h w r σ in
  let inv := Served_invoked out in
  match stepCtx h (Predicates.stamped h r) (rw_header w) with
  | inl err =>
      inv = [] /\ Served_world out = σ
      /\ Served_w out = Response.SendNack P (Context_MsgID (Request_Context r)) w err
  | inr ctx0 =>
      exists ctx' σ',
        Predicates.Invocations ctx0 σ (firstn (length inv) (steps h)) inv ctx' σ'
        /\ length inv <= length (steps h)
        /\ (forall k st e, nth_error inv k = Some (st, Some e) ->
              length inv = S k
              /\ Served_world out = σ'
              /\ Served_w out
                 = Response.SendNack P (Context_MsgID (Ctx_Context ctx'))
                     (rw_with_header (Ctx_RespHeader ctx') w) e)
        /\ ((forall k st e, nth_error inv k <> Some (st, Some e)) ->
              List.map fst inv = steps h)
  end.
Proof.
  cbn zeta. unfold ServeHTTP. fold (Predicates.stamped h r).
  destruct (stepCtx h (Predicates.stamped h r) (rw_header w)) as [err0|ctx0] eqn:Hctx.
  { simpl. split; [reflexivity|]. split; reflexivity. }
  destruct (runSteps (steps h) ctx0 σ []) as [[[err ctx'] σ'] inv'] eqn:Hrun.
  destruct (runSteps_chain _ _ _ _ _ _ _ _ Hrun) as (new' & Hinv' & Hchain).
  apply runSteps_log in Hrun. destruct Hrun as (new & Hinv & Hpos & Hlen & Hab & Hlast).
  simpl in Hinv, Hinv'. subst inv'. subst new'.
  exists ctx', σ'.
  destruct err as [e0|].
  - simpl. split; [exact Hchain|]. split; [exact Hlen|]. split.
    + intros k st e Hk. destruct (Hab k st e Hk) as [Hl He]. split; [exact Hl|].
      inversion He; subst. split; reflexivity.
    + intros Hnone. exfalso. destruct Hlast as (k & st & Hk). exact (Hnone k st e0 Hk).
  - assert (Hnoerr : forall k st e, nth_error new k <> Some (st, Some e)).
    { intros k st e Hk. destruct (Hab k st e Hk) as [_ He]. discriminate. }
    assert (Hall : List.map fst new = steps h).
    { rewrite Hpos, Hlast. apply firstn_all. }
    simpl. destruct (Ctx_Route ctx') as [rt|].
    + destruct (route _ _ _ _ _ _ _ _) as [[ctx2 w2] σ2]. simpl.
      split; [exact Hchain|]. split; [exact Hlen|]. split.
      * intros k st e Hk. exfalso. exact (Hnoerr k st e Hk).
      * intros _. exact Hall.
    + simpl. split; [exact Hchain|]. split; [exact Hlen|]. split.
      * intros k st e Hk. exfalso. exact (Hnoerr k st e Hk).
      * intros _. exact Hall.
Qed.

End Pipeline.

(** ** The response encoder *)

Section Encoder.

Variable P : Model.Pkg.


(** Plain errors, and errors that wrap them with [%w], are of no typed kind. *)
Lemma unrecognized_errorString text : unrecognized P (errorString text).
Proof. unfold unrecognized. simpl. repeat split; reflexivity. Qed.

Lemma unrecognized_wrapError format err :
  unrecognized P err -> unrecognized P (wrapError format err).
Proof. unfold unrecognized. simpl. tauto. Qed.


(** C2, as the code has it.  An error that unwraps to none of the typed
    kinds is answered with status 500 and a NACK body whose error has the
    code [Internal Server Error] and the message
    [Internal server error, MessageID: <id>]; the text of the error
    itself does not reach the body. *)
Theorem SendNack_unrecognized (msgID : option string) (w : ResponseWriter) (err : error) :
  unrecognized P err -> fresh w ->
  rw_status (Response.SendNack P msgID w err) = Some 500%Z
  /\ rw_body (Response.SendNack P msgID w err)
     = rw_body w
       ++ [nackBody "Internal Server Error"
             ("Internal server error, MessageID: " ++ Response.fmt_MsgID msgID)].
Proof.
  intros (H1 & H2 & H3 & H4 & H5) Hw.
  unfold Response.SendNack. rewrite H1, H2, H3, H4, H5.
  destruct (nack_fresh msgID w (Response.internalServerError msgID) 500%Z Hw eq_refl)
    as (Hs & Hb & _).
  split; [exact Hs|]. rewrite Hb. reflexivity.
Qed.

End Encoder.

(** ** The dispatcher *)

Section Dispatcher.

Variable P : Model.Pkg.
Variable U : string -> option JSON.


(** C7.  With [ActAsProxy] unset the client gets status 200 and, when the
    request carries the cookie [custom-response-body], the cookie's value
    decoded as JSON, or wrapped as the object with the one field [message]
    when it does not decode; without the cookie it gets the ACK body.  In
    both cases nothing is delivered while the response is written: the
    delivery is the closure handed to [RegisterPostResponseHook], which
    posts the body to the URL or publishes it when it is run. *)
Theorem route_async (ctx : StepContext) (rt : Route) (w : ResponseWriter)
  (pb : option Publisher) (client : HttpClient) (σ : World) :
  ActAsProxy rt = false -> Ctx_Route ctx = Some rt -> fresh w ->
  let hook := {| Hook_ctx := ctx; Hook_pb := pb; Hook_httpClient := client |} in
  let '(_, w', σ') := route P U ctx rt w pb client σ in
  rw_status w' = Some 200%Z
  /\ rw_body w'
     = rw_body w
       ++ [match Cookie "custom-response-body" (Request_Cookies (Ctx_Request ctx)) with
           | Some val =>
               MarshalJSON match U val with
                           | Some j => j
                           | None => JObject [("message", JString val)]
                           end
           | None => ackBody
           end]
  /\ trace σ' = trace σ
  /\ σ' = RegisterPostResponseHook (Ctx_Request ctx) hook σ
  /\ (Context_PostResponse (Request_Context (Ctx_Request ctx)) = SlotHooks ->
      hooks σ' = hooks σ ++ [hook])
  /\ (forall σ1 p, TargetType rt = "publisher" -> pb = Some p ->
        trace (runHook hook σ1)
        = trace σ1 ++ [CallPublish (PublisherID rt) (Ctx_Body ctx)])
  /\ (forall σ1 target, TargetType rt = "url" -> Route_URL rt = Some target ->
        Client_NewRequest client (URL_String target) = None ->
        trace (runHook hook σ1)
        = trace σ1
          ++ [CallHTTPDo (URL_String target) (Ctx_Body ctx)
                (Header_Set "X-Forwarded-Host" (URL_Host target)
                   (Header_Set "Content-Type" "application/json" ∅))]).
Proof.
  intros Hproxy Hroute Hw hook. subst hook. unfold route. rewrite Hproxy.
  split.
  { destruct (Cookie _ _); [apply SendBody_fresh | apply SendAck_fresh]; exact Hw. }
  split.
  { destruct (Cookie _ _) as [val|].
    - destruct (SendBody_fresh U (Context_MsgID (Ctx_Context ctx)) w val Hw) as [_ Hb].
      rewrite Hb. reflexivity.
    - destruct (SendAck_fresh w Hw) as [_ Hb]. rewrite Hb. reflexivity. }
  split.
  { unfold RegisterPostResponseHook.
    destruct (Context_PostResponse _); reflexivity. }
  split; [reflexivity|].
  split.
  { intros Hslot. unfold RegisterPostResponseHook. rewrite Hslot. reflexivity. }
  split.
  - intros σ1 p Htype Hpb. unfold runHook. simpl. rewrite Hroute, Htype, Hpb. reflexivity.
  - intros σ1 target Htype Hurl Hreq. unfold runHook, makeAsyncRequest. simpl.
    rewrite Hroute, Htype. simpl. rewrite Hurl, Hreq.
    destruct (Client_Do client _ _); reflexivity.
Qed.

(** C10.  When the request's context holds no hook slice, or a nil one,
    [RegisterPostResponseHook] changes nothing and the closure is dropped;
    in async mode the dispatcher then answers with status 200 (the ACK body,
    or the custom body of the cookie) and leaves the world as it was: no
    call delivers the request and no hook is left to deliver it later. *)
Theorem hook_dropped_without_middleware (ctx : StepContext) (rt : Route)
  (w : ResponseWriter) (pb : option Publisher) (client : HttpClient) (σ : World) :
  Context_PostResponse (Request_Context (Ctx_Request ctx)) <> SlotHooks ->
  ActAsProxy rt = false -> fresh w ->
  (forall fn, RegisterPostResponseHook (Ctx_Request ctx) fn σ = σ)
  /\ let '(_, w', σ') := route P U ctx rt w pb client σ in
     rw_status w' = Some 200%Z
     /\ rw_body w'
        = rw_body w
          ++ [match Cookie "custom-response-body" (Request_Cookies (Ctx_Request ctx)) with
              | Some val => MarshalJSON (Response.parseJSONOrDefault U val)
              | None => ackBody
              end]
     /\ σ' = σ
     /\ List.filter is_delivery (trace σ') = List.filter is_delivery (trace σ)
     /\ hooks σ' = hooks σ.
Proof.
  intros Hslot Hproxy Hw.
  assert (Hreg : forall fn, RegisterPostResponseHook (Ctx_Request ctx) fn σ = σ).
  { intros fn. unfold RegisterPostResponseHook.
    destruct (Context_PostResponse _); [reflexivity|reflexivity|congruence]. }
  split; [exact Hreg|].
  unfold route. rewrite Hproxy, Hreg.
  destruct (Cookie _ _) as [val|].
  - destruct (SendBody_fresh U (Context_MsgID (Ctx_Context ctx)) w val Hw) as [Hs Hb].
    split; [exact Hs|]. split; [exact Hb|]. split; [reflexivity|]. split; reflexivity.
  - destruct (SendAck_fresh w Hw) as [Hs Hb].
    split; [exact Hs|]. split; [exact Hb|]. split; [reflexivity|]. split; reflexivity.
Qed.

End Dispatcher.

(** ** The validateSign step *)

Section ValidateSign.

Variable P : Model.Pkg.

(** C9.  When the request has no subscriber authorization header and the
    cookie [header_validation] is not [false], the step succeeds, leaves the
    context as it was, and calls neither the KeyManager nor the
    SignValidator. *)
Theorem validateSign_without_header (s : validateSignStep) (ctx : StepContext) (σ : World) :
  Header_Get (AuthHeaderSubscriber P) (Request_Header (Ctx_Request ctx)) = EmptyString ->
  Cookie "header_validation" (Request_Cookies (Ctx_Request ctx)) <> Some "false" ->
  exists σ' extra,
    validateSignStep_Run P s ctx σ = (None, ctx, σ')
    /\ trace σ' = trace σ ++ extra
    /\ List.filter is_key_or_validator_call extra = [].
Proof.
  intros Hheader Hcookie.
  unfold validateSignStep_Run, validateSignStep_validateHeaders.
  rewrite Hheader. simpl.
  assert (Hrec : forall σ0, exists extra,
             trace (validateSignStep_recordMetrics s None σ0) = trace σ0 ++ extra
             /\ List.filter is_key_or_validator_call extra = []).
  { intros σ0. unfold validateSignStep_recordMetrics.
    destruct (validateSignStep_metrics s).
    - eexists. split; [reflexivity|reflexivity].
    - exists []. rewrite app_nil_r. split; reflexivity. }
  destruct (String.eqb _ "false");
    destruct (Hrec σ) as (extra & Ht & Hf);
    exists (validateSignStep_recordMetrics s None σ), extra;
    (split; [reflexivity|]); split; assumption.
Qed.

End ValidateSign.

(** ** The sign step *)

Section Sign.

Variable P : Model.Pkg.

(** The window of a generated header: [expires - created] is 300 plus the
    number of second boundaries that the wall clock crossed between the two
    readings of [time.Now]. *)
Lemma signStep_window (s : signStep) (ctx ctx' : StepContext) (σ σ' : World) :
  signStep_Run P s ctx σ = (None, ctx', σ') ->
  exists keySet sign,
    let createdAt := time_Unix (now σ (ticks σ)) in
    let validTill := time_Unix (time_Add (now σ (S (ticks σ))) (5 * Minute)) in
    let header :=
      if String.eqb (Ctx_Role ctx) RoleGateway then AuthHeaderGateway P
      else AuthHeaderSubscriber P in
    Header_Get header (Request_Header (Ctx_Request ctx'))
    = generateAuthHeader (Ctx_SubID ctx) (UniqueKeyID keySet) createdAt validTill sign
    /\ (validTill - createdAt
        = 300 + (time_Unix (now σ (S (ticks σ))) - time_Unix (now σ (ticks σ))))%Z.
Proof.
  unfold signStep_Run. intros H.
  destruct (String.length (Ctx_SubID ctx) =? 0)%nat; [discriminate|].
  destruct (KeyManager_Keyset (signStep_km s) (Ctx_SubID ctx)) as [e|keySet];
    [discriminate|].
  cbn [time_Now emit trace now ticks hooks] in H.
  destruct (Signer_Sign _ _ _ _ _) as [e|sign] eqn:Hsign; [discriminate|].
  inversion H; subst; clear H.
  exists keySet, sign. cbn zeta. split.
  - unfold Header_Get, Header_Set. cbn [Ctx_Request Ctx_with_Request Request_Header
      Request_with_Header]. rewrite lookup_insert_eq. reflexivity.
  - unfold time_Unix, time_Add, Minute.
    replace (now σ (S (ticks σ)) + 5 * (60 * 1000000000))%Z
      with (now σ (S (ticks σ)) + 300 * 1000000000)%Z by lia.
    rewrite Z.div_add by lia. lia.
Qed.

(** When both readings fall into the same second the window is 300. *)
Lemma signStep_window_same_second (s : signStep) (ctx ctx' : StepContext) (σ σ' : World) :
  signStep_Run P s ctx σ = (None, ctx', σ') ->
  time_Unix (now σ (S (ticks σ))) = time_Unix (now σ (ticks σ)) ->
  (time_Unix (time_Add (now σ (S (ticks σ))) (5 * Minute))
   - time_Unix (now σ (ticks σ)) = 300)%Z.
Proof.
  intros H Hsame. destruct (signStep_window s ctx ctx' σ σ' H) as (_ & _ & _ & Hw).
  cbn zeta in Hw. rewrite Hw, Hsame. lia.
Qed.

End Sign.

(** ** Schema failures *)

Section SchemaFailure.

Variable P : Model.Pkg.
Variable Schema : Type.
Variable Unmarshal_payload : string -> string + SchemaValidator.payload.
Variable Unmarshal_any : string -> string + JSON.
Variable path_Base : string -> string.
Variable ToLower : string -> string.
Variable Compile : string -> error + Schema.
Variable schema_Validate : Schema -> JSON -> SchemaValidator.SchemaResult.
Variable v : SchemaValidator.schemaValidator Schema.

(** A body without [context.domain] is a bad request, whatever the schema. *)
Lemma Validate_without_domain url data p :
  Unmarshal_payload data = inr p ->
  SchemaValidator.Domain p = EmptyString ->
  SchemaValidator_Validate
    (validatorPlugin Schema Unmarshal_payload Unmarshal_any path_Base ToLower Compile
       schema_Validate v) url data
  = Some (BadReqErr (errorString "missing field Domain in context")).
Proof.
  intros Hp Hd. cbn [validatorPlugin SchemaValidator_Validate].
  unfold SchemaValidator.Validate. rewrite Hp, Hd. reflexivity.
Qed.

(** When the body has a domain and a version, its schema is found and
    rejects the document, the validator returns one error per cause, with
    the JSON path of the cause joined by dots. *)
Lemma Validate_rejected url data p schema v' j causes :
  Unmarshal_payload data = inr p ->
  SchemaValidator.Domain p <> EmptyString ->
  (SchemaValidator.Version p <> EmptyString \/ SchemaValidator.CoreVersion p <> EmptyString) ->
  SchemaValidator.getCompiledSchema Schema Compile v (schemaKeyOf ToLower path_Base p url)
  = (SchemaValidator.CompiledSchema Schema schema, v') ->
  Unmarshal_any data = inr j ->
  schema_Validate schema j = SchemaValidator.ValidationError causes ->
  SchemaValidator_Validate
    (validatorPlugin Schema Unmarshal_payload Unmarshal_any path_Base ToLower Compile
       schema_Validate v) url data
  = Some (SchemaValidationErr (List.map errorOfCause causes)).
Proof.
  intros Hp Hd Hv Hc Hj Hs. cbn [validatorPlugin SchemaValidator_Validate].
  unfold SchemaValidator.Validate. rewrite Hp.
  apply String.eqb_neq in Hd. rewrite Hd.
  assert (Hvv : String.eqb (SchemaValidator.Version p) EmptyString
                && String.eqb (SchemaValidator.CoreVersion p) EmptyString = false).
  { destruct Hv as [Hv|Hv]; apply String.eqb_neq in Hv; rewrite Hv;
      [reflexivity | apply andb_false_r]. }
  rewrite Hvv. unfold schemaKeyOf in Hc. cbv zeta. rewrite Hc, Hj, Hs. reflexivity.
Qed.

(** C6, as the code has it.  When the validator rejects the body with the
    causes reported by the compiled schema (it returns a schema validation
    error), the step fails with that error wrapped, and the response encoder
    answers status 200 with a NACK body whose error has the code and the
    message of the error's Beckn form. *)
Theorem schema_failure_nack (metrics : bool) (ctx : StepContext) (σ : World)
  (w : ResponseWriter) (errs : list Model.Error) :
  SchemaValidator_Validate
    (validatorPlugin Schema Unmarshal_payload Unmarshal_any path_Base ToLower Compile
       schema_Validate v) (Request_URL (Ctx_Request ctx)) (Ctx_Body ctx)
  = Some (SchemaValidationErr errs) ->
  fresh w ->
  exists e σ',
    validateSchemaStep_Run
      {| validateSchemaStep_validator :=
           validatorPlugin Schema Unmarshal_payload Unmarshal_any path_Base ToLower Compile
             schema_Validate v;
         validateSchemaStep_metrics := metrics |} ctx σ
    = (Some e, ctx, σ')
    /\ rw_status (Response.SendNack P (Context_MsgID (Ctx_Context ctx)) w e) = Some 200%Z
    /\ exists resp,
         rw_body (Response.SendNack P (Context_MsgID (Ctx_Context ctx)) w e)
         = rw_body w ++ [MarshalResponse resp]
         /\ Ack_Status (Message_Ack (Response_Message resp)) = "NACK"
         /\ Response_Error resp
            = Some {| Error_Code := Error_Code (Schema_BecknError P errs);
                      Error_Paths := EmptyString;
                      Error_Message := Error_Message (Schema_BecknError P errs);
                      Error_Context := None |}.
Proof.
  intros Hv Hw. unfold validateSchemaStep_Run.
  cbn [validateSchemaStep_validator validateSchemaStep_metrics]. rewrite Hv.
  eexists. eexists. split; [reflexivity|].
  unfold Response.SendNack. cbn [As has_kind kind_of Kind_eqb BecknError].
  destruct (nack_fresh (Context_MsgID (Ctx_Context ctx)) w (Schema_BecknError P errs)
              200%Z Hw eq_refl) as (Hs & Hb & _).
  split; [exact Hs|].
  exists (Response.nackResponse (Schema_BecknError P errs)).
  split; [exact Hb|].
  unfold Response.nackResponse.
  destruct (Error_Context (Schema_BecknError P errs));
    destruct (String.eqb (Error_Code (Schema_BecknError P errs)) "500");
    split; reflexivity.
Qed.

End SchemaFailure.

(** ** The properties on the sample configuration *)

Section Examples.

(** The pipeline [pass; fail; pass] on the sample request: the third step is
    never invoked and the client gets the NACK of the failure. *)
Example pipeline_stops_at_failure :
  let out := ServeHTTP Sample.pkg Sample.unmarshal
               (Sample.handler [Sample.passStep; Sample.failStep; Sample.passStep])
               (newResponseWriter false) Sample.request Sample.world in
  Served_invoked out
  = [(Sample.passStep, None); (Sample.failStep, Some (errorString "step failed"))]
  /\ rw_status (Served_w out) = Some 500%Z.
Proof. vm_compute. split; reflexivity. Qed.

Lemma pipeline_ordering_witness :
  let h := Sample.handler [Sample.passStep; Sample.failStep; Sample.passStep] in
  let w := newResponseWriter false in
  let out := ServeHTTP Sample.pkg Sample.unmarshal h w Sample.request Sample.world in
  let inv := Served_invoked out in
  exists ctx' σ',
    Predicates.Invocations (Cases.served_context h) Sample.world
      (firstn (length inv) (steps h)) inv ctx' σ'
    /\ length inv <= length (steps h)
    /\ (forall k st e, nth_error inv k = Some (st, Some e) ->
          length inv = S k
          /\ Served_world out = σ'
          /\ Served_w out
             = Response.SendNack Sample.pkg (Context_MsgID (Ctx_Context ctx'))
                 (rw_with_header (Ctx_RespHeader ctx') w) e)
    /\ ((forall k st e, nth_error inv k <> Some (st, Some e)) ->
          List.map fst inv = steps h).
Proof.
  exact (pipeline_ordering Sample.pkg Sample.unmarshal
           (Sample.handler [Sample.passStep; Sample.failStep; Sample.passStep])
           (newResponseWriter false) Sample.request Sample.world).
Defined.

(** C1, counterexample.  A request whose body breaks off while it is read,
    on a handler with one step that would succeed: no step is invoked and
    none returned an error, so the invocations are not the configured
    sequence; the client gets status 400. *)
Lemma unreadable_body_invokes_no_step :
  let h := Sample.handler [Sample.passStep] in
  let out := ServeHTTP Sample.pkg Sample.unmarshal h (newResponseWriter false)
               Cases.unreadable_request Sample.world in
  steps h = [Sample.passStep]
  /\ Served_invoked out = []
  /\ List.map fst (Served_invoked out) <> steps h
  /\ rw_status (Served_w out) = Some 400%Z.
Proof.
  vm_compute. split; [reflexivity|]. split; [reflexivity|].
  split; [discriminate | reflexivity].
Qed.

(** C2, counterexample.  A plain error is answered with status 500, but the
    message of the body is the text with the message id, not the literal
    [INTERNAL_SERVER_ERROR]; the literal is nowhere in the body. *)
Lemma SendNack_message_is_not_the_literal :
  unrecognized Sample.pkg (errorString "dial tcp 10.0.0.7:5432: connection refused")
  /\ rw_status (Response.SendNack Sample.pkg (Some "m-1") (newResponseWriter false)
                  (errorString "dial tcp 10.0.0.7:5432: connection refused"))
     = Some 500%Z
  /\ rw_body (Response.SendNack Sample.pkg (Some "m-1") (newResponseWriter false)
                (errorString "dial tcp 10.0.0.7:5432: connection refused"))
     = [nackBody "Internal Server Error" "Internal server error, MessageID: m-1"]
  /\ "Internal server error, MessageID: m-1" <> "INTERNAL_SERVER_ERROR".
Proof.
  split; [repeat split|]. split; [reflexivity|]. split; [reflexivity|]. discriminate.
Qed.

Lemma SendNack_unrecognized_witness :
  unrecognized Sample.pkg (errorString "dial tcp 10.0.0.7:5432: connection refused")
  /\ fresh (newResponseWriter false)
  /\ rw_status (Response.SendNack Sample.pkg (Some "m-1") (newResponseWriter false)
                  (errorString "dial tcp 10.0.0.7:5432: connection refused"))
     = Some 500%Z
  /\ rw_body (Response.SendNack Sample.pkg (Some "m-1") (newResponseWriter false)
                (errorString "dial tcp 10.0.0.7:5432: connection refused"))
     = rw_body (newResponseWriter false)
       ++ [nackBody "Internal Server Error"
             ("Internal server error, MessageID: " ++ Response.fmt_MsgID (Some "m-1"))].
Proof.
  assert (Hu : unrecognized Sample.pkg
                 (errorString "dial tcp 10.0.0.7:5432: connection refused")).
  { unfold unrecognized. simpl. repeat split; reflexivity. }
  assert (Hf : fresh (newResponseWriter false)).
  { unfold fresh. simpl. repeat split; reflexivity. }
  split; [exact Hu|]. split; [exact Hf|].
  exact (SendNack_unrecognized Sample.pkg (Some "m-1") (newResponseWriter false)
           (errorString "dial tcp 10.0.0.7:5432: connection refused") Hu Hf).
Defined.

(** C3, at the failing input.  The first reading of the clock is 100 ns
    before the end of second 1700000000 and the second reading 100 ns after
    it: the header carries created=1700000000 and expires=1700000301, a
    window of 301 seconds. *)
Theorem signStep_window_across_seconds :
  let '(err, ctx', σ') :=
    signStep_Run Sample.pkg
      {| signStep_signer := Sample.signer; signStep_km := Sample.keyManager |}
      Sample.stepContext Sample.straddling_world in
  err = None
  /\ Header_Get "Authorization" (Request_Header (Ctx_Request ctx'))
     = generateAuthHeader "bap.example" "k1" 1700000000 1700000301 "c2ln"
  /\ trace σ' = [CallKeyset "bap.example";
                 CallSign "{}" "private-key" 1700000000 1700000301]
  /\ (1700000301 - 1700000000 = 301)%Z.
Proof. vm_compute. repeat split; reflexivity. Qed.

(** C4, counterexample.  Headers that differ in created, expires and
    signature parse to the same value, so these three fields cannot be
    recovered from what [parseHeader] returns. *)
Lemma parseHeader_forgets_window :
  ~ exists recover : authHeader -> Z * Z * string,
      forall c e sig,
        match parseHeader (generateAuthHeader "bap.example" "k1" c e sig) with
        | inl a => recover a = (c, e, sig)
        | inr _ => False
        end.
Proof.
  intros [recover H].
  pose proof (H 100%Z 400%Z "c2ln") as H1.
  pose proof (H 200%Z 500%Z "b3Ro") as H2.
  vm_compute in H1, H2. rewrite H1 in H2. discriminate H2.
Qed.

Lemma parse_generated_header_witness :
  well_formed_id "bap.example" /\ well_formed_id "k1"
  /\ parseHeader (generateAuthHeader "bap.example" "k1" 100 400 "c2ln")
     = inl {| SubscriberID := "bap.example"; UniqueID := "k1"; Algorithm := "ed25519" |}.
Proof.
  assert (H1 : well_formed_id "bap.example").
  { unfold well_formed_id. vm_compute. repeat split; reflexivity. }
  assert (H2 : well_formed_id "k1").
  { unfold well_formed_id. vm_compute. repeat split; reflexivity. }
  split; [exact H1|]. split; [exact H2|].
  exact (parse_generated_header "bap.example" "k1" 100 400 "c2ln" H1 H2).
Defined.

(** An id with white space around it does not come back as it went in. *)
Example parse_trims_ids :
  parseHeader (generateAuthHeader " bap.example " "k1" 100 400 "c2ln")
  = inl {| SubscriberID := "bap.example"; UniqueID := "k1"; Algorithm := "ed25519" |}.
Proof. vm_compute. reflexivity. Qed.



(** A Publisher error that is a workbench error of an unknown behaviour:
    the message is published and the client gets no answer at all. *)
Example route_proxy_publisher_unanswered :
  let '(_, w', σ') :=
    route Sample.pkg Sample.unmarshal
      (Sample.stepContext_with (Sample.publisherRoute true) SlotHooks [])
      (Sample.publisherRoute true) (newResponseWriter false) (Some Cases.dropPublisher)
      Sample.client Sample.world in
  trace σ' = [CallPublish "search_requests" "{}"]
  /\ rw_status w' = None /\ rw_body w' = [].
Proof. vm_compute. repeat split; reflexivity. Qed.

(** With the accepting Publisher the same route is published and acknowledged. *)
Example route_proxy_publisher_ack :
  let '(_, w', σ') :=
    route Sample.pkg Sample.unmarshal
      (Sample.stepContext_with (Sample.publisherRoute true) SlotHooks [])
      (Sample.publisherRoute true) (newResponseWriter false) (Some Sample.okPublisher)
      Sample.client Sample.world in
  trace σ' = [CallPublish "search_requests" "{}"]
  /\ rw_status w' = Some 200%Z /\ rw_body w' = [ackBody].
Proof. vm_compute. repeat split; reflexivity. Qed.

(** C6, counterexample.  A search request whose context lacks the required
    field [domain] is answered with status 400, not 200; and when the
    schema rejects the document at the path [message], the NACK body has
    the code and the message of the error and no path. *)
Lemma schema_failure_is_not_always_200 :
  rw_status
    (Served_w (ServeHTTP Sample.pkg Sample.unmarshal (Sample.handler [Sample.schemaStep])
                 (newResponseWriter false)
                 (Sample.request_with_body Sample.doc_without_domain) Sample.world))
  = Some 400%Z
  /\ SchemaValidator_Validate Sample.schemaPlugin "/bap/receiver/search" Sample.doc_rejected
     = Some (SchemaValidationErr
               [{| Error_Code := EmptyString; Error_Paths := "message";
                   Error_Message := "missing property 'intent'";
                   Error_Context := None |}])
  /\ rw_body
       (Served_w (ServeHTTP Sample.pkg Sample.unmarshal (Sample.handler [Sample.schemaStep])
                    (newResponseWriter false)
                    (Sample.request_with_body Sample.doc_rejected) Sample.world))
     = [nackBody "Bad Request" "missing property 'intent'"].
Proof. vm_compute. repeat split; reflexivity. Qed.

Lemma schema_failure_nack_witness :
  SchemaValidator_Validate Sample.schemaPlugin
    (Request_URL (Ctx_Request (Ctx_with_Request
       (Sample.request_with_body Sample.doc_rejected) Sample.stepContext)))
    Sample.doc_rejected
  = Some (SchemaValidationErr
            [{| Error_Code := EmptyString; Error_Paths := "message";
                Error_Message := "missing property 'intent'";
                Error_Context := None |}])
  /\ fresh (newResponseWriter false)
  /\ exists e σ',
       validateSchemaStep_Run Sample.schemaStepConfig
         {| Ctx_Context := Sample.context;
            Ctx_Request := Sample.request_with_body Sample.doc_rejected;
            Ctx_Body := Sample.doc_rejected;
            Ctx_Role := "bap";
            Ctx_SubID := "bap.example";
            Ctx_RespHeader := ∅;
            Ctx_Route := None |} Sample.world
       = (Some e,
          {| Ctx_Context := Sample.context;
             Ctx_Request := Sample.request_with_body Sample.doc_rejected;
             Ctx_Body := Sample.doc_rejected;
             Ctx_Role := "bap";
             Ctx_SubID := "bap.example";
             Ctx_RespHeader := ∅;
             Ctx_Route := None |}, σ')
       /\ rw_status (Response.SendNack Sample.pkg (Some "m-1") (newResponseWriter false) e)
          = Some 200%Z
       /\ exists resp,
            rw_body (Response.SendNack Sample.pkg (Some "m-1") (newResponseWriter false) e)
            = rw_body (newResponseWriter false) ++ [MarshalResponse resp]
            /\ Ack_Status (Message_Ack (Response_Message resp)) = "NACK"
            /\ Response_Error resp
               = Some {| Error_Code := "Bad Request";
                         Error_Paths := EmptyString;
                         Error_Message := "missing property 'intent'";
                         Error_Context := None |}.
Proof.
  assert (Hf : fresh (newResponseWriter false)).
  { unfold fresh. simpl. repeat split; reflexivity. }
  split; [vm_compute; reflexivity|]. split; [exact Hf|].
  exact (schema_failure_nack Sample.pkg unit Sample.unmarshal_payload Sample.unmarshal_any
           Sample.path_Base Sample.ToLower Sample.Compile Sample.schema_Validate
           Sample.validator_state false
           {| Ctx_Context := Sample.context;
              Ctx_Request := Sample.request_with_body Sample.doc_rejected;
              Ctx_Body := Sample.doc_rejected;
              Ctx_Role := "bap";
              Ctx_SubID := "bap.example";
              Ctx_RespHeader := ∅;
              Ctx_Route := None |}
           Sample.world (newResponseWriter false)
           [{| Error_Code := EmptyString; Error_Paths := "message";
               Error_Message := "missing property 'intent'";
               Error_Context := None |}]
           ltac:(vm_compute; reflexivity) Hf).
Defined.

Lemma route_async_witness :
  ActAsProxy (Sample.publisherRoute false) = false
  /\ Ctx_Route (Sample.stepContext_with (Sample.publisherRoute false) SlotHooks
                  [("custom-response-body", "accepted")])
     = Some (Sample.publisherRoute false)
  /\ fresh (newResponseWriter false)
  /\ (let ctx := Sample.stepContext_with (Sample.publisherRoute false) SlotHooks
                   [("custom-response-body", "accepted")] in
      let rt := Sample.publisherRoute false in
      let w := newResponseWriter false in
      let pb := Some Sample.okPublisher in
      let client := Sample.client in
      let σ := Sample.world in
      let hook := {| Hook_ctx := ctx; Hook_pb := pb; Hook_httpClient := client |} in
      let '(_, w', σ') := route Sample.pkg Sample.unmarshal ctx rt w pb client σ in
      rw_status w' = Some 200%Z
      /\ rw_body w'
         = rw_body w
           ++ [match Cookie "custom-response-body" (Request_Cookies (Ctx_Request ctx)) with
               | Some val =>
                   MarshalJSON match Sample.unmarshal val with
                               | Some j => j
                               | None => JObject [("message", JString val)]
                               end
               | None => ackBody
               end]
      /\ trace σ' = trace σ
      /\ σ' = RegisterPostResponseHook (Ctx_Request ctx) hook σ
      /\ (Context_PostResponse (Request_Context (Ctx_Request ctx)) = SlotHooks ->
          hooks σ' = hooks σ ++ [hook])
      /\ (forall σ1 p, TargetType rt = "publisher" -> pb = Some p ->
            trace (runHook hook σ1)
            = trace σ1 ++ [CallPublish (PublisherID rt) (Ctx_Body ctx)])
      /\ (forall σ1 target, TargetType rt = "url" -> Route_URL rt = Some target ->
            Client_NewRequest client (URL_String target) = None ->
            trace (runHook hook σ1)
            = trace σ1
              ++ [CallHTTPDo (URL_String target) (Ctx_Body ctx)
                    (Header_Set "X-Forwarded-Host" (URL_Host target)
                       (Header_Set "Content-Type" "application/json" ∅))])).
Proof.
  assert (Hf : fresh (newResponseWriter false)).
  { unfold fresh. simpl. repeat split; reflexivity. }
  split; [reflexivity|]. split; [reflexivity|]. split; [exact Hf|].
  exact (route_async Sample.pkg Sample.unmarshal
           (Sample.stepContext_with (Sample.publisherRoute false) SlotHooks
              [("custom-response-body", "accepted")])
           (Sample.publisherRoute false) (newResponseWriter false)
           (Some Sample.okPublisher) Sample.client Sample.world eq_refl eq_refl Hf).
Defined.

(** The async receiver on the sample request: the cookie's text is wrapped,
    nothing is delivered before the hooks run, and running them publishes. *)
Example route_async_then_hooks :
  let '(_, w', σ') :=
    route Sample.pkg Sample.unmarshal
      (Sample.stepContext_with (Sample.publisherRoute false) SlotHooks
         [("custom-response-body", "accepted")])
      (Sample.publisherRoute false) (newResponseWriter false)
      (Some Sample.okPublisher) Sample.client Sample.world in
  rw_status w' = Some 200%Z
  /\ rw_body w' = [MarshalJSON (JObject [("message", JString "accepted")])]
  /\ trace σ' = []
  /\ trace (runPostResponseHooks σ') = [CallPublish "search_requests" "{}"].
Proof. vm_compute. repeat split; reflexivity. Qed.

Lemma validateSign_without_header_witness :
  Header_Get (AuthHeaderSubscriber Sample.pkg)
    (Request_Header (Ctx_Request Sample.stepContext)) = EmptyString
  /\ Cookie "header_validation" (Request_Cookies (Ctx_Request Sample.stepContext))
     <> Some "false"
  /\ exists σ' extra,
       validateSignStep_Run Sample.pkg
         {| validateSignStep_validator := Sample.signValidator;
            validateSignStep_km := Sample.keyManager;
            validateSignStep_metrics := true |} Sample.stepContext Sample.world
       = (None, Sample.stepContext, σ')
       /\ trace σ' = trace Sample.world ++ extra
       /\ List.filter is_key_or_validator_call extra = [].
Proof.
  split; [reflexivity|]. split; [discriminate|].
  exact (validateSign_without_header Sample.pkg
           {| validateSignStep_validator := Sample.signValidator;
              validateSignStep_km := Sample.keyManager;
              validateSignStep_metrics := true |} Sample.stepContext Sample.world
           eq_refl ltac:(discriminate)).
Defined.

Lemma hook_dropped_without_middleware_witness :
  Context_PostResponse
    (Request_Context (Ctx_Request
       (Sample.stepContext_with (Sample.publisherRoute false) SlotAbsent [])))
  <> SlotHooks
  /\ ActAsProxy (Sample.publisherRoute false) = false
  /\ fresh (newResponseWriter false)
  /\ (forall fn,
        RegisterPostResponseHook
          (Ctx_Request (Sample.stepContext_with (Sample.publisherRoute false) SlotAbsent []))
          fn Sample.world = Sample.world)
  /\ (let '(_, w', σ') :=
        route Sample.pkg Sample.unmarshal
          (Sample.stepContext_with (Sample.publisherRoute false) SlotAbsent [])
          (Sample.publisherRoute false) (newResponseWriter false)
          (Some Sample.okPublisher) Sample.client Sample.world in
      rw_status w' = Some 200%Z
      /\ rw_body w'
         = rw_body (newResponseWriter false)
           ++ [match Cookie "custom-response-body"
                       (Request_Cookies (Ctx_Request
                          (Sample.stepContext_with (Sample.publisherRoute false)
                             SlotAbsent []))) with
               | Some val => MarshalJSON (Response.parseJSONOrDefault Sample.unmarshal val)
               | None => ackBody
               end]
      /\ σ' = Sample.world
      /\ List.filter is_delivery (trace σ') = List.filter is_delivery (trace Sample.world)
      /\ hooks σ' = hooks Sample.world).
Proof.
  assert (Hf : fresh (newResponseWriter false)).
  { unfold fresh. simpl. repeat split; reflexivity. }
  split; [discriminate|]. split; [reflexivity|]. split; [exact Hf|].
  exact (hook_dropped_without_middleware Sample.pkg Sample.unmarshal
           (Sample.stepContext_with (Sample.publisherRoute false) SlotAbsent [])
           (Sample.publisherRoute false) (newResponseWriter false)
           (Some Sample.okPublisher) Sample.client Sample.world
           ltac:(discriminate) eq_refl Hf).
Defined.

(** Without the middleware the same request is acknowledged and never
    published. *)
Example async_without_middleware_loses_delivery :
  let '(_, w', σ') :=
    route Sample.pkg Sample.unmarshal
      (Sample.stepContext_with (Sample.publisherRoute false) SlotAbsent [])
      (Sample.publisherRoute false) (newResponseWriter false)
      (Some Sample.okPublisher) Sample.client Sample.world in
  rw_status w' = Some 200%Z /\ rw_body w' = [ackBody]
  /\ hooks σ' = [] /\ trace (runPostResponseHooks σ') = [].
Proof. vm_compute. repeat split; reflexivity. Qed.

(** C8, counterexample.  A header that holds a quoted [keyId] value with
    three components, after a parameter whose name ends in [keyId]: the
    parser reads the value of that first parameter and fails. *)
Lemma parseHeader_reads_first_keyId :
  let header := ("xkeyId=" ++ dquote ++ "junk" ++ dquote
                 ++ ",keyId=" ++ dquote ++ "a|b|ed25519" ++ dquote)%string in
  (exists pre v post c0 c1 c2,
     header = (pre ++ keyIdPrefix ++ v ++ dquote ++ post)%string
     /\ GoStrings.contains_byte (GoStrings.byte 34) v = false
     /\ GoStrings.Split (GoStrings.TrimSpace v) "|" = [c0; c1; c2])
  /\ exists e, parseHeader header = inr e.
Proof.
  cbv zeta. split.
  - exists ("xkeyId=" ++ dquote ++ "junk" ++ dquote ++ ",")%string, "a|b|ed25519",
      EmptyString, "a", "b", "ed25519".
    vm_compute. split; [reflexivity|]. split; reflexivity.
  - eexists. vm_compute. reflexivity.
Qed.

(** [parseHeader] on headers of other shapes. *)
Example parseHeader_two_components :
  exists e, parseHeader ("keyId=" ++ dquote ++ "a|b" ++ dquote) = inr e.
Proof. eexists. vm_compute. reflexivity. Qed.

Example parseHeader_no_closing_quote :
  exists e, parseHeader ("keyId=" ++ dquote ++ "a|b|c") = inr e.
Proof. eexists. vm_compute. reflexivity. Qed.

Example parseHeader_no_keyId :
  exists e, parseHeader ("Signature algorithm=" ++ dquote ++ "ed25519" ++ dquote) = inr e.
Proof. eexists. vm_compute. reflexivity. Qed.

Example parseHeader_trims_components :
  parseHeader ("keyId=" ++ dquote ++ " a | b |c " ++ dquote)
  = inl {| SubscriberID := "a"; UniqueID := "b"; Algorithm := "c" |}.
Proof. vm_compute. reflexivity. Qed.

End Examples.

(* ===================================================================== *)
(** * Part III.  Further properties of the modelled code                  *)
(* ===================================================================== *)

Import Predicates.

(** ** The response encoder on typed errors *)

Section EncoderKinds.

Variable P : Model.Pkg.

Lemma As_wraps k formats e : As P k (wraps formats e) = As P k e.
Proof. induction formats as [|f fs IH]; [reflexivity|]. simpl. exact IH. Qed.

Lemma unrecognized_As k c : unrecognized P c -> As P k c = None.
Proof. intros (H1 & H2 & H3 & H4 & H5). destruct k; assumption. Qed.

(** On a typed leaf [errors.As] finds the leaf for its own kind only. *)
Lemma As_typed_leaf k e :
  typed_leaf P e ->
  As P k e = if has_kind k e then Some e else None.
Proof.
  intros H. destruct e as [t|f c|l|c|c|c|b x]; simpl in H; try contradiction;
    destruct k; simpl; try reflexivity;
    destruct (typed_unwrap P); try reflexivity; apply unrecognized_As; exact H.
Qed.

(** The status and body of a typed leaf under [%w] layers. *)
Lemma SendNack_of_typed_leaf (msgID : option string) (w : ResponseWriter)
  (formats : list string) (e : error) :
  fresh w -> typed_leaf P e ->
  rw_status (Response.SendNack P msgID w (wraps formats e)) = Some (status_of_typed e)
  /\ rw_body (Response.SendNack P msgID w (wraps formats e))
     = rw_body w ++ [MarshalResponse (Response.nackResponse (BecknError P e))]
  /\ rw_sent (Response.SendNack P msgID w (wraps formats e))
     = Header_Set "Content-Type" "application/json" (rw_header w).
Proof.
  intros Hw He. unfold Response.SendNack. rewrite !As_wraps, !(As_typed_leaf _ e He).
  destruct e as [t|f c|l|c|c|c|b x]; simpl in He; try contradiction; simpl;
    match goal with
    | |- context [Response.nack msgID w ?b ?st] =>
        destruct (nack_fresh msgID w b st Hw eq_refl) as (Hs & Hb & Hsent & _);
        split; [exact Hs | split; [exact Hb | exact Hsent]]
    end.
Qed.

(** X1.  A schema, sign, bad-request or not-found error keeps its status
    under any number of [%w] layers: [SendNack] answers 200, 401, 400 or
    404 with the NACK body of the error's Beckn form. *)
Theorem SendNack_typed_status (msgID : option string) (w : ResponseWriter)
  (formats : list string) (e : error) :
  fresh w -> typed_leaf P e ->
  rw_status (Response.SendNack P msgID w (wraps formats e)) = Some (status_of_typed e)
  /\ rw_body (Response.SendNack P msgID w (wraps formats e))
     = rw_body w ++ [MarshalResponse (Response.nackResponse (BecknError P e))].
Proof.
  intros Hw He.
  destruct (SendNack_of_typed_leaf msgID w formats e Hw He) as (Hs & Hb & _).
  split; assumption.
Qed.

(** After a status that allows no body, [http.Error] changes the header
    map only. *)
Lemma Error_refused (msg : string) (code : Z) (w : ResponseWriter) (status : Z) :
  rw_status w = Some status -> bodyAllowedForStatus status = false ->
  rw_status (Http.Error msg code w) = Some status
  /\ rw_interim (Http.Error msg code w) = rw_interim w
  /\ rw_body (Http.Error msg code w) = rw_body w.
Proof.
  intros Hs Hba. unfold Http.Error.
  set (w3 := set_header "X-Content-Type-Options" "nosniff"
               (set_header "Content-Type" "text/plain; charset=utf-8"
                  (del_header "Content-Length" w))).
  assert (Hs3 : rw_status w3 = Some status) by exact Hs.
  assert (Hw : WriteHeader code w3 = w3).
  { unfold WriteHeader. rewrite Hs3. reflexivity. }
  cbv zeta. rewrite Hw. unfold Write.
  assert (Hw200 : WriteHeader 200 w3 = w3).
  { unfold WriteHeader. rewrite Hs3. reflexivity. }
  rewrite Hw200. cbv zeta.
  assert (Hne : payload_empty (Text (msg ++ String (GoStrings.byte 10) EmptyString)) = false).
  { destruct msg; reflexivity. }
  rewrite Hne, Hs3, Hba. cbn [negb fst].
  split; [exact Hs|]. split; reflexivity.
Qed.

(** What [nack] writes on a fresh writer for every status that
    [WriteHeader] accepts. *)
Lemma nack_fresh_any (msgID : option string) (w : ResponseWriter) (e : Model.Error)
  (code : Z) :
  fresh w -> valid_code code = true ->
  let w' := Response.nack msgID w e code in
  let body := MarshalResponse (Response.nackResponse e) in
  if informational code then
    rw_status w' = Some 200%Z
    /\ rw_interim w'
       = rw_interim w ++ [(code, Header_Set "Content-Type" "application/json" (rw_header w))]
    /\ rw_body w' = rw_body w ++ [body]
  else
    rw_status w' = Some code
    /\ rw_interim w' = rw_interim w
    /\ rw_body w' = if bodyAllowedForStatus code then rw_body w ++ [body] else rw_body w.
Proof.
  intros (Hs & Hb & Hp) Hv. cbn zeta.
  unfold Response.nack, Write, WriteHeader, set_header; simpl.
  rewrite Hs; simpl. rewrite Hv; simpl.
  destruct (informational code) eqn:Hi; simpl.
  - rewrite Hp; simpl. rewrite ?Hs; simpl. rewrite Hb; simpl.
    split; [reflexivity|]. split; reflexivity.
  - rewrite Hp; simpl.
    destruct (bodyAllowedForStatus code) eqn:Hba; simpl.
    + rewrite Hb; simpl. split; [reflexivity|]. split; reflexivity.
    + match goal with
      | |- context [Http.Error ?m 500 ?w0] =>
          destruct (Error_refused m 500%Z w0 code eq_refl Hba) as (H1 & H2 & H3)
      end.
      rewrite H1, H2, H3. split; [reflexivity|]. split; reflexivity.
Qed.

(** X2.  A workbench error under any number of [%w] layers, on a fresh
    writer.  Behaviour [NACK] is answered with status 200 and the NACK of
    the error's Beckn form.  Behaviour [HTTP] with a code that spells a
    status between 100 and 999 is answered as net/http treats that status:
    an informational status (1xx other than 101) goes out as an interim
    response and the NACK follows with status 200; the statuses 101, 204
    and 304 are sent without a body; every other status is sent with the
    NACK as its body. *)
Theorem SendNack_workbench_status (msgID : option string) (w : ResponseWriter)
  (formats : list string) (behavior : string) (x : Model.Error) :
  fresh w ->
  (behavior = "NACK"
   \/ (behavior = "HTTP" /\ valid_code (Response.Atoi (Error_Code x)) = true)) ->
  let code := if String.eqb behavior "NACK" then 200%Z else Response.Atoi (Error_Code x) in
  let w' := Response.SendNack P msgID w (wraps formats (WorkbenchErr behavior x)) in
  let body := MarshalResponse (Response.nackResponse (Workbench_BecknError P behavior x)) in
  if informational code then
    rw_status w' = Some 200%Z
    /\ rw_interim w'
       = rw_interim w ++ [(code, Header_Set "Content-Type" "application/json" (rw_header w))]
    /\ rw_body w' = rw_body w ++ [body]
  else
    rw_status w' = Some code
    /\ rw_interim w' = rw_interim w
    /\ rw_body w' = if bodyAllowedForStatus code then rw_body w ++ [body] else rw_body w.
Proof.
  intros Hw Hb. cbn zeta. unfold Response.SendNack. rewrite As_wraps. simpl.
  destruct Hb as [->|[-> Hv]]; simpl.
  - exact (nack_fresh_any msgID w (Workbench_BecknError P "NACK" x) 200%Z Hw eq_refl).
  - exact (nack_fresh_any msgID w (Workbench_BecknError P "HTTP" x) _ Hw Hv).
Qed.

(** X3.  What a workbench error can leave unanswered: with a behaviour
    other than [NACK] and [HTTP] the encoder writes nothing at all, and
    with behaviour [HTTP] and a code that is no status between 100 and 999
    [WriteHeader] panics before any status or body is written. *)
Theorem SendNack_workbench_unanswered (msgID : option string) (w : ResponseWriter)
  (formats : list string) (behavior : string) (x : Model.Error) :
  rw_status w = None ->
  (behavior <> "NACK" -> behavior <> "HTTP" ->
   Response.SendNack P msgID w (wraps formats (WorkbenchErr behavior x)) = w)
  /\ (behavior = "HTTP" -> valid_code (Response.Atoi (Error_Code x)) = false ->
      let w' := Response.SendNack P msgID w (wraps formats (WorkbenchErr behavior x)) in
      rw_status w' = None /\ rw_body w' = rw_body w /\ rw_panicked w' = true).
Proof.
  intros Hs. unfold Response.SendNack. rewrite As_wraps. simpl. split.
  - intros Hn Hh. apply String.eqb_neq in Hn, Hh. rewrite Hn, Hh. reflexivity.
  - intros -> Hv. simpl. unfold Response.nack, WriteHeader, set_header. simpl.
    rewrite Hs. simpl. rewrite Hv. simpl. split; [reflexivity|]. split; reflexivity.
Qed.

(** Once the status line is written, [http.Error] cannot change it. *)
Lemma Error_keeps_status (msg : string) (code : Z) (w : ResponseWriter) (status : Z) :
  rw_status w = Some status ->
  rw_status (Http.Error msg code w) = Some status
  /\ (rw_broken w = true -> rw_body (Http.Error msg code w) = rw_body w).
Proof.
  intros Hs. unfold Http.Error.
  set (w3 := set_header "X-Content-Type-Options" "nosniff"
               (set_header "Content-Type" "text/plain; charset=utf-8"
                  (del_header "Content-Length" w))).
  assert (Hs3 : rw_status w3 = Some status) by exact Hs.
  assert (Hw : forall c, WriteHeader c w3 = w3).
  { intros c. unfold WriteHeader. rewrite Hs3. reflexivity. }
  cbv zeta. rewrite Hw. unfold Write. rewrite Hw. cbv zeta.
  destruct (payload_empty _); [split; [exact Hs | reflexivity]|].
  rewrite Hs3. destruct (bodyAllowedForStatus status); cbn [negb];
    [|split; [exact Hs | reflexivity]].
  destruct (rw_broken w3) eqn:Hb; cbn [fst]; [split; [exact Hs | reflexivity]|].
  split; [reflexivity|]. intros Hbw. change (rw_broken w3) with (rw_broken w) in Hb.
  congruence.
Qed.

Lemma nack_on_connections (msgID : option string) (w : ResponseWriter) (e : Model.Error)
  (st : Z) :
  rw_status w = None -> rw_panicked w = false ->
  rw_status (Response.nack msgID (with_connection true w) e st)
  = rw_status (Response.nack msgID (with_connection false w) e st)
  /\ rw_body (Response.nack msgID (with_connection true w) e st) = rw_body w.
Proof.
  intros Hs Hp. destruct w as [h s sent body br pan int]. simpl in Hs, Hp. subst s pan.
  unfold Response.nack, with_connection, set_header, WriteHeader.
  cbn [rw_header rw_status rw_sent rw_body rw_broken rw_panicked rw_interim].
  destruct (valid_code st); cbn [negb rw_panicked]; [|split; reflexivity].
  destruct (informational st); cbn [rw_panicked].
  - unfold Write, WriteHeader.
    cbn [rw_header rw_status rw_sent rw_body rw_broken rw_panicked rw_interim
         payload_empty].
    change (valid_code 200) with true. change (informational 200) with false.
    cbn [negb rw_header rw_status rw_sent rw_body rw_broken rw_panicked rw_interim].
    change (bodyAllowedForStatus 200) with true. cbn [negb].
    match goal with
    | |- context [Http.Error ?m 500 ?w0] =>
        destruct (Error_keeps_status m 500%Z w0 200%Z eq_refl) as [H1 H2];
        rewrite H1, (H2 eq_refl)
    end.
    split; reflexivity.
  - unfold Write, WriteHeader.
    cbn [rw_header rw_status rw_sent rw_body rw_broken rw_panicked rw_interim
         payload_empty].
    destruct (bodyAllowedForStatus st); cbn [negb].
    + match goal with
      | |- context [Http.Error ?m 500 ?w0] =>
          destruct (Error_keeps_status m 500%Z w0 st eq_refl) as [H1 H2];
          rewrite H1, (H2 eq_refl)
      end.
      split; reflexivity.
    + match goal with
      | |- context [Http.Error ?m 500 ?w0] =>
          destruct (Error_keeps_status m 500%Z w0 st eq_refl) as [H1 H2];
          rewrite H1, (H2 eq_refl)
      end.
      match goal with
      | |- context [Http.Error ?m 500 ?w0] =>
          destruct (Error_keeps_status m 500%Z w0 st eq_refl) as [H3 _]; rewrite H3
      end.
      split; reflexivity.
Qed.

Lemma SendAck_on_broken (w : ResponseWriter) :
  rw_status w = None ->
  rw_status (Response.SendAck (with_connection true w)) = Some 200%Z
  /\ rw_body (Response.SendAck (with_connection true w)) = rw_body w.
Proof.
  intros Hs. destruct w as [h s sent body br pan int]. simpl in Hs. subst s.
  unfold Response.SendAck, with_connection, set_header, Write, WriteHeader.
  cbn [rw_header rw_status rw_sent rw_body rw_broken rw_panicked rw_interim
       payload_empty].
  change (valid_code 200) with true. change (informational 200) with false.
  cbn [negb rw_header rw_status rw_sent rw_body rw_broken rw_panicked rw_interim].
  change (bodyAllowedForStatus 200) with true. cbn [negb].
  match goal with
  | |- context [Http.Error ?m 500 ?w0] =>
      destruct (Error_keeps_status m 500%Z w0 200%Z eq_refl) as [H1 H2];
      rewrite H1, (H2 eq_refl)
  end.
  split; reflexivity.
Qed.

(** X4.  A connection that refuses writes changes the body only: for every
    error [SendNack] records the same status as on a working connection
    and leaves the body as it was; the status 500 that [http.Error] asks
    for after the failed write never replaces it.  The same holds for
    [SendAck]. *)
Theorem write_failure_keeps_status (msgID : option string) (w : ResponseWriter)
  (err : error) :
  rw_status w = None -> rw_panicked w = false ->
  rw_status (Response.SendNack P msgID (with_connection true w) err)
  = rw_status (Response.SendNack P msgID (with_connection false w) err)
  /\ rw_body (Response.SendNack P msgID (with_connection true w) err) = rw_body w
  /\ rw_status (Response.SendAck (with_connection true w)) = Some 200%Z
  /\ rw_body (Response.SendAck (with_connection true w)) = rw_body w.
Proof.
  intros Hs Hp.
  assert (Hnack : forall e st,
            rw_status (Response.nack msgID (with_connection true w) e st)
            = rw_status (Response.nack msgID (with_connection false w) e st)
            /\ rw_body (Response.nack msgID (with_connection true w) e st) = rw_body w).
  { intros e st. apply nack_on_connections; assumption. }
  split; [|split; [|apply SendAck_on_broken; exact Hs]].
  - unfold Response.SendNack.
    destruct (As P KWorkbench err) as [[| | | | | |b x]|]; try reflexivity.
    + destruct (String.eqb b "NACK"); [apply Hnack|].
      destruct (String.eqb b "HTTP"); [apply Hnack | reflexivity].
    + destruct (As P KSchema err); [apply Hnack|].
      destruct (As P KSign err); [apply Hnack|].
      destruct (As P KBadReq err); [apply Hnack|].
      destruct (As P KNotFound err); apply Hnack.
  - unfold Response.SendNack.
    destruct (As P KWorkbench err) as [[| | | | | |b x]|]; try reflexivity.
    + destruct (String.eqb b "NACK"); [apply Hnack|].
      destruct (String.eqb b "HTTP"); [apply Hnack | reflexivity].
    + destruct (As P KSchema err); [apply Hnack|].
      destruct (As P KSign err); [apply Hnack|].
      destruct (As P KBadReq err); [apply Hnack|].
      destruct (As P KNotFound err); apply Hnack.
Qed.

End EncoderKinds.

(** ** The handler around the pipeline *)

Section HandlerEdges.

Variable P : Model.Pkg.
Variable U : string -> option JSON.

(** X5.  A request whose body cannot be read: no step is invoked, nothing
    outside the handler is called, and the client gets status 400 with the
    NACK of the bad-request error that wraps the read error. *)
Theorem ServeHTTP_unreadable_body (h : stdHandler) (w : ResponseWriter) (r : Request)
  (σ : World) (err : error) :
  Request_Body r = BodyFails err -> unrecognized P err -> fresh w ->
  let out := ServeHTTP P U h w r σ in
  Served_invoked out = []
  /\ Served_world out = σ
  /\ rw_status (Served_w out) = Some 400%Z
  /\ rw_body (Served_w out)
     = rw_body w ++ [MarshalResponse
                       (Response.nackResponse (BadReq_BecknError P (BadReqErr err)))].
Proof.
  intros Hbody Hu Hw. unfold ServeHTTP, stepCtx. simpl. rewrite Hbody. simpl.
  split; [reflexivity|]. split; [reflexivity|].
  destruct (SendNack_of_typed_leaf P (Context_MsgID (Request_Context (stamped h r))) w []
              (BadReqErr err) Hw Hu) as (Hs & Hb & _).
  split; [exact Hs | exact Hb].
Qed.

(** X6.  The internal headers never outlive the call: whatever the steps
    and the dispatcher do, the request that [ServeHTTP] leaves behind has
    neither [X-Module-Name] nor [X-Role]. *)
Theorem ServeHTTP_strips_internal_headers (h : stdHandler) (w : ResponseWriter)
  (r : Request) (σ : World) :
  Request_Header (Served_r (ServeHTTP P U h w r σ)) !! "X-Module-Name" = None
  /\ Request_Header (Served_r (ServeHTTP P U h w r σ)) !! "X-Role" = None.
Proof.
  assert (Hstrip : forall r0,
            Request_Header (strip_internal r0) !! "X-Module-Name" = None
            /\ Request_Header (strip_internal r0) !! "X-Role" = None).
  { intros r0. unfold strip_internal, Request_with_Header, Header_Del. simpl. split.
    - rewrite lookup_delete_ne by discriminate. apply lookup_delete_eq.
    - apply lookup_delete_eq. }
  unfold ServeHTTP.
  destruct (stepCtx h _ (rw_header w)) as [e|ctx]; [apply Hstrip|].
  destruct (runSteps (steps h) ctx σ []) as [[[err ctx'] σ'] inv].
  destruct err; [apply Hstrip|]. simpl.
  destruct (Ctx_Route ctx'); [|apply Hstrip].
  destruct (route _ _ _ _ _ _ _ _) as [[ctx2 w2] σ2]. apply Hstrip.
Qed.

(** X7.  When every step succeeds and none sets a route, every step was
    invoked, the client gets the ACK with status 200, nothing is delivered
    or registered beyond what the steps did, and the request body is
    restored from the buffer as the last step left it. *)
Theorem ServeHTTP_without_route (h : stdHandler) (w : ResponseWriter) (r : Request)
  (σ : World) (ctx0 ctx' : StepContext) (σ' : World)
  (inv : list (Step * option error)) :
  stepCtx h (stamped h r) (rw_header w) = inr ctx0 ->
  runSteps (steps h) ctx0 σ [] = (None, ctx', σ', inv) ->
  Ctx_Route ctx' = None ->
  rw_status w = None -> rw_broken w = false ->
  let out := ServeHTTP P U h w r σ in
  List.map fst (Served_invoked out) = steps h
  /\ Served_world out = σ'
  /\ rw_status (Served_w out) = Some 200%Z
  /\ rw_body (Served_w out) = rw_body w ++ [ackBody]
  /\ rw_sent (Served_w out)
     = Header_Set "Content-Type" "application/json" (Ctx_RespHeader ctx')
  /\ Request_Body (Served_r out) = BodyBytes (Ctx_Body ctx').
Proof.
  intros Hctx Hrun Hroute Hs Hb. unfold ServeHTTP. fold (stamped h r).
  rewrite Hctx, Hrun. simpl. rewrite Hroute. simpl.
  destruct (runSteps_log _ _ _ _ _ _ _ _ Hrun) as (new & Hinv & Hpos & _ & _ & Hlen).
  simpl in Hinv. subst inv.
  split; [rewrite Hpos, Hlen; apply firstn_all|]. split; [reflexivity|].
  unfold Response.SendAck, Write, WriteHeader, set_header, rw_with_header. simpl.
  rewrite Hs. simpl. rewrite Hb. simpl.
  split; [reflexivity|]. split; [reflexivity|]. split; reflexivity.
Qed.

(** X8.  Body stability on the publisher path: when the steps succeed and
    leave a proxying route of type [publisher], the one call made after the
    steps publishes, under the route's publisher id, the body as the last
    step left it. *)
Theorem ServeHTTP_publishes_final_body (h : stdHandler) (w : ResponseWriter)
  (r : Request) (σ : World) (ctx0 ctx' : StepContext) (σ' : World)
  (inv : list (Step * option error)) (rt : Route) (pb : Publisher) :
  stepCtx h (stamped h r) (rw_header w) = inr ctx0 ->
  runSteps (steps h) ctx0 σ [] = (None, ctx', σ', inv) ->
  Ctx_Route ctx' = Some rt -> ActAsProxy rt = true -> TargetType rt = "publisher" ->
  publisher h = Some pb ->
  let out := ServeHTTP P U h w r σ in
  trace (Served_world out) = trace σ' ++ [CallPublish (PublisherID rt) (Ctx_Body ctx')]
  /\ hooks (Served_world out) = hooks σ'
  /\ List.map fst (Served_invoked out) = steps h.
Proof.
  intros Hctx Hrun Hroute Hproxy Htype Hpb. unfold ServeHTTP. fold (stamped h r).
  rewrite Hctx, Hrun. simpl. rewrite Hroute. unfold route. rewrite Hproxy, Htype, Hpb.
  simpl.
  destruct (runSteps_log _ _ _ _ _ _ _ _ Hrun) as (new & Hinv & Hpos & _ & _ & Hlen).
  simpl in Hinv. subst inv.
  assert (Hall : List.map fst new = steps h).
  { rewrite Hpos, Hlen. apply firstn_all. }
  destruct (Publisher_Publish pb (PublisherID rt) (Ctx_Body ctx'));
    simpl; (split; [reflexivity|]); split; [reflexivity | exact Hall | reflexivity | exact Hall].
Qed.

End HandlerEdges.

(** ** The dispatcher on the remaining routes *)

Section DispatcherEdges.

Variable P : Model.Pkg.
Variable U : string -> option JSON.

(** X9.  A proxying route that the dispatcher cannot serve: with a target
    type other than [url] and [publisher], or with type [publisher] and no
    Publisher plugin, nothing is called or registered and the client gets
    status 500 with the internal-error NACK. *)
Theorem route_unservable (ctx : StepContext) (rt : Route) (w : ResponseWriter)
  (pb : option Publisher) (client : HttpClient) (σ : World) :
  ActAsProxy rt = true ->
  ((TargetType rt <> "url" /\ TargetType rt <> "publisher")
   \/ (TargetType rt = "publisher" /\ pb = None)) ->
  fresh w ->
  let '(ctx', w', σ') := route P U ctx rt w pb client σ in
  ctx' = ctx /\ σ' = σ
  /\ rw_status w' = Some 500%Z
  /\ rw_body w'
     = rw_body w
       ++ [nackBody "Internal Server Error"
             ("Internal server error, MessageID: "
              ++ Response.fmt_MsgID (Context_MsgID (Ctx_Context ctx)))].
Proof.
  intros Hproxy Hcase Hw. unfold route. rewrite Hproxy.
  assert (H500 : forall text,
            rw_status (Response.SendNack P (Context_MsgID (Ctx_Context ctx)) w
                         (errorString text)) = Some 500%Z
            /\ rw_body (Response.SendNack P (Context_MsgID (Ctx_Context ctx)) w
                          (errorString text))
               = rw_body w
                 ++ [nackBody "Internal Server Error"
                       ("Internal server error, MessageID: "
                        ++ Response.fmt_MsgID (Context_MsgID (Ctx_Context ctx)))]).
  { intros text. unfold Response.SendNack. simpl.
    destruct (nack_fresh (Context_MsgID (Ctx_Context ctx)) w
                (Response.internalServerError (Context_MsgID (Ctx_Context ctx)))
                500%Z Hw eq_refl) as (Hs & Hb & _).
    split; [exact Hs|]. rewrite Hb. reflexivity. }
  destruct Hcase as [[Hu Hp]|[Hp ->]].
  - apply String.eqb_neq in Hu, Hp. rewrite Hu, Hp.
    split; [reflexivity|]. split; [reflexivity|]. apply H500.
  - rewrite Hp. simpl. split; [reflexivity|]. split; [reflexivity|]. apply H500.
Qed.

(** X10.  Body stability on the reverse-proxy path: when the steps succeed
    and leave a proxying route of type [url] with a URL, the one call made
    after the steps hands the reverse proxy, for that URL, the request
    whose body is the body as the last step left it (the handler restores
    it before routing), with [X-Forwarded-Host] set to the host the request
    came for, without the two internal headers and with every other header
    as the steps left it; nothing is published and no hook is registered.
    With a nil URL the proxy panics before anything is written. *)
Theorem ServeHTTP_proxies_final_body (h : stdHandler) (w : ResponseWriter) (r : Request)
  (σ : World) (ctx0 ctx' : StepContext) (σ' : World)
  (inv : list (Step * option error)) (rt : Route) :
  stepCtx h (stamped h r) (rw_header w) = inr ctx0 ->
  runSteps (steps h) ctx0 σ [] = (None, ctx', σ', inv) ->
  Ctx_Route ctx' = Some rt -> ActAsProxy rt = true -> TargetType rt = "url" ->
  let out := ServeHTTP P U h w r σ in
  hooks (Served_world out) = hooks σ'
  /\ match Route_URL rt with
     | Some target =>
         exists forwarded,
           trace (Served_world out) = trace σ' ++ [CallReverseProxy target forwarded]
           /\ Request_Body forwarded = BodyBytes (Ctx_Body ctx')
           /\ Header_Get "X-Forwarded-Host" (Request_Header forwarded)
              = Request_Host (Ctx_Request ctx')
           /\ Request_Header forwarded !! "X-Module-Name" = None
           /\ Request_Header forwarded !! "X-Role" = None
           /\ (forall k, k <> "X-Forwarded-Host" -> k <> "X-Module-Name" -> k <> "X-Role" ->
                 Request_Header forwarded !! k = Request_Header (Ctx_Request ctx') !! k)
     | None =>
         trace (Served_world out) = trace σ' ++ [Panic "nil URL"]
         /\ rw_status (Served_w out) = rw_status w
         /\ rw_body (Served_w out) = rw_body w
     end.
Proof.
  intros Hctx Hrun Hroute Hproxy Htype. unfold ServeHTTP. fold (stamped h r).
  rewrite Hctx, Hrun. simpl. rewrite Hroute. unfold route. rewrite Hproxy, Htype.
  simpl. unfold proxy.
  destruct (Route_URL rt) as [target|].
  - destruct (Client_Proxy (httpClient h) target _) as [[st hdr] body].
    match goal with
    | |- context [if ?b then _ else _] => destruct b
    end; simpl;
      (split; [reflexivity|]); eexists; (split; [reflexivity|]); simpl;
      (split; [reflexivity|]);
      unfold Header_Get, Header_Set, Header_Del;
      (split; [rewrite lookup_insert_eq; reflexivity|]);
      (split; [rewrite lookup_insert_ne by discriminate;
               rewrite lookup_delete_ne by discriminate; apply lookup_delete_eq|]);
      (split; [rewrite lookup_insert_ne by discriminate; apply lookup_delete_eq|]);
      intros k H1 H2 H3;
      rewrite lookup_insert_ne by congruence;
      rewrite lookup_delete_ne by congruence;
      rewrite lookup_delete_ne by congruence; reflexivity.
  - simpl. split; [reflexivity|]. split; [reflexivity|]. split; reflexivity.
Qed.

(** X11.  What async mode loses silently: with [ActAsProxy] unset and a
    target type other than [url] and [publisher], or type [publisher]
    without a Publisher plugin, the client still gets status 200 and the
    closure is registered, but running the closure calls nothing. *)
Theorem route_async_delivers_nothing (ctx : StepContext) (rt : Route)
  (w : ResponseWriter) (pb : option Publisher) (client : HttpClient) (σ : World) :
  ActAsProxy rt = false -> Ctx_Route ctx = Some rt ->
  ((TargetType rt <> "url" /\ TargetType rt <> "publisher")
   \/ (TargetType rt = "publisher" /\ pb = None)) ->
  fresh w ->
  Context_PostResponse (Request_Context (Ctx_Request ctx)) = SlotHooks ->
  let hook := {| Hook_ctx := ctx; Hook_pb := pb; Hook_httpClient := client |} in
  let '(_, w', σ') := route P U ctx rt w pb client σ in
  rw_status w' = Some 200%Z
  /\ hooks σ' = hooks σ ++ [hook]
  /\ trace σ' = trace σ
  /\ forall σ1, runHook hook σ1 = σ1.
Proof.
  intros Hproxy Hroute Hcase Hw Hslot hook. subst hook. unfold route. rewrite Hproxy.
  split.
  { destruct (Cookie _ _); [apply SendBody_fresh | apply SendAck_fresh]; exact Hw. }
  unfold RegisterPostResponseHook. rewrite Hslot. simpl.
  split; [reflexivity|]. split; [reflexivity|].
  intros σ1. unfold runHook. simpl. rewrite Hroute.
  destruct Hcase as [[Hu Hp]|[Hp ->]].
  - apply String.eqb_neq in Hu, Hp. rewrite Hu, Hp. reflexivity.
  - rewrite Hp. reflexivity.
Qed.

(** X12.  Registration keeps the order: closures registered one after the
    other on a request whose context holds the hook slice are appended to
    the slice in that order, and nothing else in the world changes; on a
    request without the slice all of them are dropped. *)
Theorem registerAll_order (r : Request) (fns : list PostResponseHook) (σ : World) :
  (Context_PostResponse (Request_Context r) = SlotHooks ->
   hooks (registerAll r fns σ) = hooks σ ++ fns
   /\ trace (registerAll r fns σ) = trace σ
   /\ ticks (registerAll r fns σ) = ticks σ)
  /\ (Context_PostResponse (Request_Context r) <> SlotHooks ->
      registerAll r fns σ = σ).
Proof.
  unfold registerAll. split.
  - intros Hslot. revert σ. induction fns as [|fn fns IH]; intros σ; simpl.
    + rewrite app_nil_r. split; [reflexivity|]. split; reflexivity.
    + destruct (IH (RegisterPostResponseHook r fn σ)) as (Hh & Ht & Hk).
      rewrite Hh, Ht, Hk. unfold RegisterPostResponseHook. rewrite Hslot. simpl.
      rewrite <- app_assoc. split; [reflexivity|]. split; reflexivity.
  - intros Hslot. revert σ. induction fns as [|fn fns IH]; intros σ; simpl;
      [reflexivity|].
    assert (E : RegisterPostResponseHook r fn σ = σ).
    { unfold RegisterPostResponseHook.
      destruct (Context_PostResponse _); [reflexivity|reflexivity|congruence]. }
    rewrite E. apply IH.
Qed.

End DispatcherEdges.

(** ** The sign step *)

Section SignEdges.
Import GoStrings.

Variable P : Model.Pkg.

(** The ids of a generated header come back from [parseHeader]. *)
Lemma parseHeader_of_generated (subID keyID : string) (createdAt validTill : Z)
  (signature : string) :
  well_formed_id subID -> well_formed_id keyID ->
  parseHeader (generateAuthHeader subID keyID createdAt validTill signature)
  = inl {| SubscriberID := subID; UniqueID := keyID; Algorithm := "ed25519" |}.
Proof.
  intros (Hsq & Hsb & Hst) (Hkq & Hkb & Hkt).
  destruct (TrimSpace_fixed subID Hst) as [Hsl _].
  assert (Hpart : TrimSpace (subID ++ "|" ++ keyID ++ "|ed25519")
                  = (subID ++ "|" ++ keyID ++ "|ed25519")%string).
  { unfold TrimSpace.
    change (subID ++ "|" ++ keyID ++ "|ed25519")%string
      with (subID ++ String "|" (keyID ++ "|ed25519"))%string.
    rewrite (TrimLeftSpace_bar subID _ Hsl).
    change (keyID ++ "|ed25519")%string with (keyID ++ "|" ++ "ed25519")%string.
    change (subID ++ String "|" (keyID ++ "|" ++ "ed25519"))%string
      with (subID ++ "|" ++ keyID ++ "|" ++ "ed25519")%string.
    rewrite <- !append_assoc. apply TrimRightSpace_algorithm. }
  unfold parseHeader.
  rewrite (keyIDPart_generated _ _ _ _ _ Hsq Hkq), Hpart.
  assert (Hne : String.eqb (subID ++ "|" ++ keyID ++ "|ed25519") EmptyString = false).
  { destruct subID; reflexivity. }
  rewrite Hne.
  change (subID ++ "|" ++ keyID ++ "|ed25519")%string
    with (subID ++ String "|" (keyID ++ String "|" "ed25519"))%string.
  rewrite (Split_app "|" _ subID Hsb), (Split_app "|" _ keyID Hkb).
  change (Split "ed25519" "|") with ["ed25519"].
  rewrite Hst, Hkt. reflexivity.
Qed.

Lemma length_zero_iff (s : string) : (String.length s =? 0)%nat = true <-> s = EmptyString.
Proof. destruct s; simpl; split; intros H; try reflexivity; discriminate. Qed.

(** What a successful run of the sign step did. *)
Lemma signStep_success (s : signStep) (ctx ctx' : StepContext) (σ σ' : World) :
  signStep_Run P s ctx σ = (None, ctx', σ') ->
  exists keySet sign,
    let createdAt := time_Unix (now σ (ticks σ)) in
    let validTill := time_Unix (time_Add (now σ (S (ticks σ))) (5 * Minute)) in
    let value := generateAuthHeader (Ctx_SubID ctx) (UniqueKeyID keySet)
                   createdAt validTill sign in
    Ctx_SubID ctx <> EmptyString
    /\ KeyManager_Keyset (signStep_km s) (Ctx_SubID ctx) = inr keySet
    /\ Signer_Sign (signStep_signer s) (Ctx_Body ctx) (SigningPrivate keySet)
         createdAt validTill = inr sign
    /\ ctx' = Ctx_with_Request
                (Request_with_Header
                   (Header_Set (auth_header_of_role P (Ctx_Role ctx)) value)
                   (Ctx_Request ctx)) ctx
    /\ trace σ' = trace σ
                  ++ [CallKeyset (Ctx_SubID ctx);
                      CallSign (Ctx_Body ctx) (SigningPrivate keySet) createdAt validTill]
    /\ ticks σ' = S (S (ticks σ)) /\ hooks σ' = hooks σ.
Proof.
  unfold signStep_Run. intros H.
  destruct (String.length (Ctx_SubID ctx) =? 0)%nat eqn:Hlen; [discriminate|].
  destruct (KeyManager_Keyset (signStep_km s) (Ctx_SubID ctx)) as [e|keySet] eqn:Hk;
    [discriminate|].
  cbn [time_Now emit trace now ticks hooks] in H.
  destruct (Signer_Sign _ _ _ _ _) as [e|sign] eqn:Hsign; [discriminate|].
  inversion H; subst; clear H.
  exists keySet, sign. cbn zeta.
  split.
  { intros E. apply length_zero_iff in E. congruence. }
  split; [reflexivity|]. split; [exact Hsign|]. split; [reflexivity|].
  split; [simpl; rewrite <- app_assoc; reflexivity|]. split; reflexivity.
Qed.

(** X13.  A failing sign step leaves the request alone: the context comes
    back as it went in, and the error tells how far the step got: a
    bad-request error before any call when the subscriber id is empty; the
    error that the KeyManager returned for the subscriber id, wrapped,
    after the one call to it; or the error that the Signer returned for
    the body, the private key of the key set and the two time stamps read
    from the clock, wrapped, after the calls to both. *)
Theorem signStep_failure (s : signStep) (ctx ctx' : StepContext) (σ σ' : World)
  (e : error) :
  signStep_Run P s ctx σ = (Some e, ctx', σ') ->
  let created := time_Unix (now σ (ticks σ)) in
  let expires := time_Unix (time_Add (now σ (S (ticks σ))) (5 * Minute)) in
  ctx' = ctx
  /\ ((Ctx_SubID ctx = EmptyString
       /\ e = BadReqErr (errorString "subscriberID not set") /\ σ' = σ)
      \/ (exists err,
            Ctx_SubID ctx <> EmptyString
            /\ KeyManager_Keyset (signStep_km s) (Ctx_SubID ctx) = inl err
            /\ e = wrapError "failed to get signing key: %w" err
            /\ trace σ' = trace σ ++ [CallKeyset (Ctx_SubID ctx)]
            /\ ticks σ' = ticks σ)
      \/ (exists keySet err,
            Ctx_SubID ctx <> EmptyString
            /\ KeyManager_Keyset (signStep_km s) (Ctx_SubID ctx) = inr keySet
            /\ Signer_Sign (signStep_signer s) (Ctx_Body ctx) (SigningPrivate keySet)
                 created expires = inl err
            /\ e = wrapError "failed to sign request: %w" err
            /\ trace σ' = trace σ
                          ++ [CallKeyset (Ctx_SubID ctx);
                              CallSign (Ctx_Body ctx) (SigningPrivate keySet)
                                created expires]
            /\ ticks σ' = S (S (ticks σ)))).
Proof.
  unfold signStep_Run. intros H. cbn zeta.
  destruct (String.length (Ctx_SubID ctx) =? 0)%nat eqn:Hlen.
  - inversion H; subst. split; [reflexivity|]. left.
    apply length_zero_iff in Hlen. split; [exact Hlen|]. split; reflexivity.
  - assert (Hne : Ctx_SubID ctx <> EmptyString).
    { intros E. apply length_zero_iff in E. congruence. }
    destruct (KeyManager_Keyset (signStep_km s) (Ctx_SubID ctx)) as [err|keySet] eqn:Hk.
    + inversion H; subst. split; [reflexivity|]. right. left.
      exists err. split; [exact Hne|]. split; [reflexivity|]. split; [reflexivity|].
      split; reflexivity.
    + cbn [time_Now emit trace now ticks hooks] in H.
      destruct (Signer_Sign _ _ _ _ _) as [err|sign] eqn:Hsign; [|discriminate].
      inversion H; subst. split; [reflexivity|]. right. right.
      exists keySet, err. split; [exact Hne|]. split; [reflexivity|].
      split; [exact Hsign|]. split; [reflexivity|].
      split; [simpl; rewrite <- app_assoc; reflexivity | reflexivity].
Qed.

(** X14.  A successful sign step changes one header and nothing else: the
    gateway header when the role is [gateway], the subscriber header
    otherwise; it holds the one generated value, every other header, the
    cookies, the body, the subscriber id, the response headers and the
    route are as before. *)
Theorem signStep_sets_one_header (s : signStep) (ctx ctx' : StepContext) (σ σ' : World) :
  signStep_Run P s ctx σ = (None, ctx', σ') ->
  let name := auth_header_of_role P (Ctx_Role ctx) in
  (exists value, Request_Header (Ctx_Request ctx') !! name = Some [value])
  /\ (forall k, k <> name ->
        Request_Header (Ctx_Request ctx') !! k = Request_Header (Ctx_Request ctx) !! k)
  /\ Request_Cookies (Ctx_Request ctx') = Request_Cookies (Ctx_Request ctx)
  /\ Ctx_Body ctx' = Ctx_Body ctx /\ Ctx_SubID ctx' = Ctx_SubID ctx
  /\ Ctx_RespHeader ctx' = Ctx_RespHeader ctx /\ Ctx_Route ctx' = Ctx_Route ctx.
Proof.
  intros H name. subst name.
  destruct (signStep_success s ctx ctx' σ σ' H) as (ks & sg & _ & _ & _ & Hc & _).
  cbn zeta in Hc. subst ctx'. simpl. unfold Header_Set.
  split; [eexists; apply lookup_insert_eq|].
  split; [intros k Hk; apply lookup_insert_ne; congruence|].
  repeat (split; [reflexivity|]). reflexivity.
Qed.

(** X15.  What the sign step writes, the codec reads: when the subscriber
    id and the key id of the key set hold no double quote, no bar and no
    white space at either end, the header set by a successful run parses
    to that subscriber id, that key id and the algorithm [ed25519]. *)
Theorem signStep_header_parses (s : signStep) (ctx ctx' : StepContext) (σ σ' : World)
  (keySet : Keyset) :
  signStep_Run P s ctx σ = (None, ctx', σ') ->
  KeyManager_Keyset (signStep_km s) (Ctx_SubID ctx) = inr keySet ->
  well_formed_id (Ctx_SubID ctx) -> well_formed_id (UniqueKeyID keySet) ->
  parseHeader (Header_Get (auth_header_of_role P (Ctx_Role ctx))
                 (Request_Header (Ctx_Request ctx')))
  = inl {| SubscriberID := Ctx_SubID ctx;
           UniqueID := UniqueKeyID keySet;
           Algorithm := "ed25519" |}.
Proof.
  intros H Hk Hs Hkid.
  destruct (signStep_success s ctx ctx' σ σ' H) as (ks & sg & _ & Hk' & _ & Hc & _).
  rewrite Hk in Hk'. inversion Hk'; subst ks. cbn zeta in Hc. subst ctx'. simpl.
  unfold Header_Get, Header_Set. rewrite lookup_insert_eq.
  apply parseHeader_of_generated; assumption.
Qed.

(** X16.  The window of a signature: when the wall clock does not go back
    between the two readings and the second reading is less than a second
    after the first, the created and expires values handed to the Signer
    and written into the header are between 300 and 301 seconds apart. *)
Theorem signStep_window_bounds (s : signStep) (ctx ctx' : StepContext) (σ σ' : World) :
  signStep_Run P s ctx σ = (None, ctx', σ') ->
  (now σ (ticks σ) <= now σ (S (ticks σ)) < now σ (ticks σ) + 1000000000)%Z ->
  exists keySet sign created expires,
    trace σ' = trace σ
               ++ [CallKeyset (Ctx_SubID ctx);
                   CallSign (Ctx_Body ctx) (SigningPrivate keySet) created expires]
    /\ Header_Get (auth_header_of_role P (Ctx_Role ctx))
         (Request_Header (Ctx_Request ctx'))
       = generateAuthHeader (Ctx_SubID ctx) (UniqueKeyID keySet) created expires sign
    /\ (300 <= expires - created <= 301)%Z.
Proof.
  intros H Hclock.
  destruct (signStep_success s ctx ctx' σ σ' H) as (ks & sg & _ & _ & _ & Hc & Ht & _).
  cbn zeta in Hc, Ht. exists ks, sg. eexists. eexists.
  split; [exact Ht|]. split.
  - subst ctx'. simpl. unfold Header_Get, Header_Set. rewrite lookup_insert_eq. reflexivity.
  - unfold time_Unix, time_Add, Minute.
    replace (now σ (S (ticks σ)) + 5 * (60 * 1000000000))%Z
      with (now σ (S (ticks σ)) + 300 * 1000000000)%Z by lia.
    rewrite Z.div_add by lia.
    assert (H1 : (now σ (ticks σ) / 1000000000 <= now σ (S (ticks σ)) / 1000000000)%Z).
    { apply Z.div_le_mono; lia. }
    assert (H2 : (now σ (S (ticks σ)) / 1000000000
                  <= (now σ (ticks σ) + 1 * 1000000000) / 1000000000)%Z).
    { apply Z.div_le_mono; lia. }
    rewrite Z.div_add in H2 by lia. lia.
Qed.

End SignEdges.

(** ** The validateSign step *)

Section ValidateSignEdges.

Variable P : Model.Pkg.

Lemma trace_recordMetrics (s : validateSignStep) (err : option error) (σ : World) :
  trace (validateSignStep_recordMetrics s err σ)
  = trace σ ++ sign_metric (validateSignStep_metrics s)
                 (match err with Some _ => true | None => false end).
Proof.
  unfold validateSignStep_recordMetrics, sign_metric.
  destruct (validateSignStep_metrics s); [|symmetry; apply app_nil_r].
  destruct err; reflexivity.
Qed.

(** X17.  Cookie gating: with the cookie [header_validation] set to
    [false] the step succeeds whatever the authorization header holds, does
    not touch the context, and calls neither the KeyManager nor the
    SignValidator; the metric, when configured, counts a success. *)
Theorem validateSign_cookie_gate (s : validateSignStep) (ctx : StepContext) (σ : World) :
  Cookie "header_validation" (Request_Cookies (Ctx_Request ctx)) = Some "false" ->
  exists σ',
    validateSignStep_Run P s ctx σ = (None, ctx, σ')
    /\ trace σ' = trace σ ++ sign_metric (validateSignStep_metrics s) false
    /\ hooks σ' = hooks σ /\ ticks σ' = ticks σ.
Proof.
  intros Hc. unfold validateSignStep_Run, validateSignStep_validateHeaders.
  rewrite Hc. simpl. eexists. split; [reflexivity|].
  split; [apply trace_recordMetrics|].
  unfold validateSignStep_recordMetrics.
  destruct (validateSignStep_metrics s); split; reflexivity.
Qed.

(** X18.  Every failure of the step has one shape: the error is a sign
    validation error around the cause, the challenge naming the subscriber
    id of the context is put into the response headers under the
    unauthorized-gateway header, and nothing else in the context changes.
    It only happens with a non-empty authorization header and without the
    gating cookie. *)
Theorem validateSign_failure_shape (s : validateSignStep) (ctx ctx' : StepContext)
  (σ σ' : World) (e : error) :
  validateSignStep_Run P s ctx σ = (Some e, ctx', σ') ->
  (exists cause, e = SignValidationErr (wrapError "failed to validate %s: %w" cause))
  /\ ctx' = Ctx_with_RespHeader
              (Header_Set (UnaAuthorizedHeaderGateway P) (challenge (Ctx_SubID ctx))
                 (Ctx_RespHeader ctx)) ctx
  /\ Header_Get (AuthHeaderSubscriber P) (Request_Header (Ctx_Request ctx)) <> EmptyString
  /\ Cookie "header_validation" (Request_Cookies (Ctx_Request ctx)) <> Some "false".
Proof.
  unfold validateSignStep_Run, validateSignStep_validateHeaders. intros H.
  destruct (String.eqb _ "false") eqn:Hck; [discriminate|].
  destruct (String.length (Header_Get _ _) =? 0)%nat eqn:Hlen; simpl in H;
    [discriminate|].
  destruct (validateSignStep_validate s ctx _ σ) as [[cause|] σ1]; [|discriminate].
  inversion H; subst; clear H.
  split; [exists cause; reflexivity|]. split; [reflexivity|]. split.
  - intros E. rewrite E in Hlen. discriminate.
  - intros E. rewrite E in Hck. discriminate.
Qed.

(** X19.  A header that the codec rejects: the step fails without calling
    the KeyManager or the SignValidator, and the response encoder, on the
    writer whose headers the step has set, answers status 401 and sends the
    challenge with it. *)
Theorem validateSign_unparsable_header (s : validateSignStep) (ctx : StepContext)
  (σ : World) (w : ResponseWriter) (pe : error) :
  Header_Get (AuthHeaderSubscriber P) (Request_Header (Ctx_Request ctx)) <> EmptyString ->
  Cookie "header_validation" (Request_Cookies (Ctx_Request ctx)) <> Some "false" ->
  parseHeader (Header_Get (AuthHeaderSubscriber P) (Request_Header (Ctx_Request ctx)))
  = inr pe ->
  fresh w -> UnaAuthorizedHeaderGateway P <> "Content-Type" ->
  exists e ctx' σ',
    validateSignStep_Run P s ctx σ = (Some e, ctx', σ')
    /\ trace σ' = trace σ ++ sign_metric (validateSignStep_metrics s) true
    /\ let w' := Response.SendNack P (Context_MsgID (Ctx_Context ctx'))
                   (rw_with_header (Ctx_RespHeader ctx') w) e in
       rw_status w' = Some 401%Z
       /\ rw_sent w' !! UnaAuthorizedHeaderGateway P = Some [challenge (Ctx_SubID ctx)]
       /\ rw_body w' = rw_body w ++ [MarshalResponse
                                       (Response.nackResponse (Sign_BecknError P e))].
Proof.
  intros Hh Hc Hp Hw Hne.
  unfold validateSignStep_Run, validateSignStep_validateHeaders, validateSignStep_validate.
  assert (Hck : String.eqb
                  match Cookie "header_validation" (Request_Cookies (Ctx_Request ctx)) with
                  | Some v => v
                  | None => "true"
                  end "false" = false).
  { destruct (Cookie _ _) as [v|]; [|reflexivity].
    apply String.eqb_neq. congruence. }
  rewrite Hck.
  assert (Hlen : (String.length (Header_Get (AuthHeaderSubscriber P)
                                   (Request_Header (Ctx_Request ctx))) =? 0)%nat = false).
  { destruct (Header_Get _ _); [congruence | reflexivity]. }
  rewrite Hlen, Hp. simpl.
  eexists. eexists. eexists. split; [reflexivity|].
  split; [apply trace_recordMetrics|].
  cbn zeta.
  set (e := SignValidationErr
              (wrapError "failed to validate %s: %w" (errorString "failed to parse header"))).
  assert (Hleaf : typed_leaf P e).
  { simpl. apply unrecognized_wrapError, unrecognized_errorString. }
  assert (Hw' : fresh (rw_with_header
                         (Header_Set (UnaAuthorizedHeaderGateway P)
                            (challenge (Ctx_SubID ctx)) (Ctx_RespHeader ctx)) w)).
  { apply fresh_with_header. exact Hw. }
  destruct (SendNack_of_typed_leaf P (Context_MsgID (Ctx_Context ctx)) _ [] e Hw' Hleaf)
    as (Hs & Hb & Hsent).
  assert (Hl : Header_Set "Content-Type" "application/json"
                 (rw_header (rw_with_header
                    (Header_Set (UnaAuthorizedHeaderGateway P)
                       (challenge (Ctx_SubID ctx)) (Ctx_RespHeader ctx)) w))
               !! UnaAuthorizedHeaderGateway P = Some [challenge (Ctx_SubID ctx)]).
  { unfold Header_Set, rw_with_header. simpl.
    rewrite lookup_insert_ne by congruence. apply lookup_insert_eq. }
  rewrite <- Hsent in Hl.
  split; [exact Hs|]. split; [exact Hl | exact Hb].
Qed.

(** X20.  The calls of a validation: for a header that parses, the step
    asks the KeyManager for the key of the parsed subscriber id and key id
    and, only when it got one, hands the body, the whole header value and
    that key to the SignValidator; the step succeeds, with the context
    untouched, exactly when both succeed. *)
Theorem validateSign_call_protocol (s : validateSignStep) (ctx : StepContext)
  (σ : World) (a : authHeader) :
  Header_Get (AuthHeaderSubscriber P) (Request_Header (Ctx_Request ctx)) <> EmptyString ->
  Cookie "header_validation" (Request_Cookies (Ctx_Request ctx)) <> Some "false" ->
  parseHeader (Header_Get (AuthHeaderSubscriber P) (Request_Header (Ctx_Request ctx)))
  = inl a ->
  let value := Header_Get (AuthHeaderSubscriber P) (Request_Header (Ctx_Request ctx)) in
  let lookup := CallLookupNPKeys (SubscriberID a) (UniqueID a) in
  exists err ctx' σ',
    validateSignStep_Run P s ctx σ = (err, ctx', σ')
    /\ match KeyManager_LookupNPKeys (validateSignStep_km s)
               (SubscriberID a) (UniqueID a) with
       | inl _ =>
           err <> None
           /\ trace σ' = trace σ ++ [lookup]
                         ++ sign_metric (validateSignStep_metrics s) true
       | inr key =>
           trace σ' = trace σ ++ [lookup; CallSignValidate (Ctx_Body ctx) value key]
                      ++ sign_metric (validateSignStep_metrics s)
                           (match err with Some _ => true | None => false end)
           /\ (err = None <->
               SignValidator_Validate (validateSignStep_validator s)
                 (Ctx_Body ctx) value key = None)
           /\ (err = None -> ctx' = ctx)
       end.
Proof.
  intros Hh Hc Hp value lookup. subst value lookup.
  unfold validateSignStep_Run, validateSignStep_validateHeaders, validateSignStep_validate.
  assert (Hck : String.eqb
                  match Cookie "header_validation" (Request_Cookies (Ctx_Request ctx)) with
                  | Some v => v
                  | None => "true"
                  end "false" = false).
  { destruct (Cookie _ _) as [v|]; [|reflexivity].
    apply String.eqb_neq. congruence. }
  rewrite Hck.
  assert (Hlen : (String.length (Header_Get (AuthHeaderSubscriber P)
                                   (Request_Header (Ctx_Request ctx))) =? 0)%nat = false).
  { destruct (Header_Get _ _); [congruence | reflexivity]. }
  rewrite Hlen, Hp. simpl.
  destruct (KeyManager_LookupNPKeys _ _ _) as [kerr|key].
  - eexists. eexists. eexists. split; [reflexivity|]. split; [discriminate|].
    rewrite trace_recordMetrics. simpl. rewrite <- app_assoc. reflexivity.
  - destruct (SignValidator_Validate _ _ _ _) as [verr|].
    + eexists. eexists. eexists. split; [reflexivity|].
      split; [rewrite trace_recordMetrics; simpl; rewrite <- !app_assoc; reflexivity|].
      split; [split; discriminate | discriminate].
    + eexists. eexists. eexists. split; [reflexivity|].
      split; [rewrite trace_recordMetrics; simpl; rewrite <- !app_assoc; reflexivity|].
      split; [split; reflexivity | reflexivity].
Qed.

End ValidateSignEdges.

(** ** The addRoute step *)

Section AddRouteEdges.

Variable P : Model.Pkg.

(** X21.  The addRoute step asks the Router once.  On an answer it sets the
    route of the context to the four fields of the answer and changes
    nothing else; on an error it leaves the context, and so the unset
    route, as it was, and a typed error of the Router (not found, bad
    request, ...) reaches the client with its own status through the
    wrapping. *)
Theorem addRoute_outcomes (s : addRouteStep) (ctx : StepContext) (σ : World)
  (w : ResponseWriter) :
  fresh w ->
  let url := Request_URL (Ctx_Request ctx) in
  exists err ctx' σ',
    addRouteStep_Run s ctx σ = (err, ctx', σ')
    /\ match Router_Route (addRouteStep_router s) url (Ctx_Body ctx) (Ctx_Request ctx) with
       | inr route =>
           err = None
           /\ ctx' = Ctx_with_Route
                       (Some {| TargetType := TargetType route;
                                PublisherID := PublisherID route;
                                Route_URL := Route_URL route;
                                ActAsProxy := ActAsProxy route |}) ctx
           /\ trace σ' = trace σ ++ [CallRoute url (Ctx_Body ctx)]
                         ++ route_metric (addRouteStep_metrics s) (TargetType route)
       | inl rerr =>
           err = Some (wrapError "failed to determine route: %w" rerr)
           /\ ctx' = ctx
           /\ trace σ' = trace σ ++ [CallRoute url (Ctx_Body ctx)]
           /\ forall formats e,
                rerr = wraps formats e -> typed_leaf P e ->
                rw_status (Response.SendNack P (Context_MsgID (Ctx_Context ctx)) w
                             (wrapError "failed to determine route: %w" rerr))
                = Some (status_of_typed e)
       end.
Proof.
  intros Hw url. subst url. unfold addRouteStep_Run.
  destruct (Router_Route _ _ _ _) as [rerr|route].
  - eexists. eexists. eexists. split; [reflexivity|].
    split; [reflexivity|]. split; [reflexivity|]. split; [reflexivity|].
    intros formats e -> Hleaf.
    destruct (SendNack_of_typed_leaf P (Context_MsgID (Ctx_Context ctx)) w
                ("failed to determine route: %w" :: formats) e Hw Hleaf) as (Hs & _).
    exact Hs.
  - eexists. eexists. eexists. split; [reflexivity|].
    split; [reflexivity|]. split; [reflexivity|].
    unfold route_metric. destruct (addRouteStep_metrics s); simpl;
      rewrite <- ?app_assoc; reflexivity.
Qed.

End AddRouteEdges.

(** ** The ONDC validator steps and the workbench steps *)

Section OndcEdges.
Import OndcSteps.

Variable P : Model.Pkg.

(** A [%w] layer is invisible to the response encoder. *)
Lemma SendNack_wrapError (msgID : option string) (w : ResponseWriter) (f : string)
  (e : error) :
  Response.SendNack P msgID w (wrapError f e) = Response.SendNack P msgID w e.
Proof. reflexivity. Qed.

(** X22.  The validateOndc step never changes the context.  With the
    cookie [protocol_validation] set to [false] it succeeds without asking
    the validator; in every other case, the absent cookie included, it asks
    the validator once, for the request URL and the body, succeeds exactly
    when the validator does, and its error is answered by the response
    encoder as the validator's own error would be. *)
Theorem validateOndc_gate_and_answer (s : validateOndcStep) (ctx : StepContext)
  (msgID : option string) (w : ResponseWriter) :
  let url := Request_URL (Ctx_Request ctx) in
  let verdict :=
    OndcValidator_ValidatePayload (validateOndcStep_validator s) url (Ctx_Body ctx) in
  let '(err, ctx', calls) := validateOndcStep_Run s ctx in
  ctx' = ctx
  /\ (Cookie "protocol_validation" (Request_Cookies (Ctx_Request ctx)) = Some "false" ->
      err = None /\ calls = [])
  /\ (Cookie "protocol_validation" (Request_Cookies (Ctx_Request ctx)) <> Some "false" ->
      calls = [CallValidatePayload url (Ctx_Body ctx)]
      /\ match verdict, err with
         | None, None => True
         | Some verr, Some e =>
             Response.SendNack P msgID w e = Response.SendNack P msgID w verr
         | _, _ => False
         end).
Proof.
  cbn zeta. unfold validateOndcStep_Run.
  destruct (Cookie "protocol_validation" (Request_Cookies (Ctx_Request ctx))) as [v|] eqn:Hc.
  - destruct (String.eqb v "false") eqn:Hv.
    + split; [reflexivity|]. split; [intros _; split; reflexivity|].
      intros Hn. apply String.eqb_eq in Hv. congruence.
    + destruct (OndcValidator_ValidatePayload _ _ _) as [verr|];
        (split; [reflexivity|]); (split; [intros E; inversion E; subst v; discriminate|]);
        intros _; split; try reflexivity; exact I.
  - simpl.
    destruct (OndcValidator_ValidatePayload _ _ _) as [verr|];
      (split; [reflexivity|]); (split; [discriminate|]);
      intros _; split; try reflexivity; exact I.
Qed.

(** The workbench receive step: the request of the context is the
    one the workbench left, also when the step fails; on success the
    subscriber id of the context becomes the value of the [subscriber_id]
    cookie of that request and stays as it was without the cookie; on
    failure it is untouched and the error is answered by the response
    encoder as the workbench's own error would be.  Nothing else in the
    context changes and the workbench is called once. *)
Lemma workbenchReceive_outcomes (s : workbenchReceiveStep) (ctx : StepContext)
  (msgID : option string) (w : ResponseWriter) :
  let answer :=
    OndcWorkbench_WorkbenchReceiver (workbenchReceiveStep_workbench s)
      (Ctx_Request ctx) (Ctx_Body ctx) in
  let '(err, ctx', calls) := workbenchReceiveStep_Run s ctx in
  calls = [CallWorkbenchReceiver (Ctx_Body ctx)]
  /\ Ctx_Request ctx' = snd answer
  /\ Ctx_Body ctx' = Ctx_Body ctx /\ Ctx_Role ctx' = Ctx_Role ctx
  /\ Ctx_RespHeader ctx' = Ctx_RespHeader ctx /\ Ctx_Route ctx' = Ctx_Route ctx
  /\ match fst answer with
     | None =>
         err = None
         /\ Ctx_SubID ctx'
            = match Cookie "subscriber_id" (Request_Cookies (snd answer)) with
              | Some value => value
              | None => Ctx_SubID ctx
              end
     | Some werr =>
         Ctx_SubID ctx' = Ctx_SubID ctx
         /\ exists e, err = Some e
                      /\ Response.SendNack P msgID w e = Response.SendNack P msgID w werr
     end.
Proof.
  cbn zeta. unfold workbenchReceiveStep_Run.
  destruct (OndcWorkbench_WorkbenchReceiver _ _ _) as [[werr|] r']; simpl.
  - repeat (split; [reflexivity|]). eexists. split; reflexivity.
  - destruct (Cookie "subscriber_id" (Request_Cookies r')) as [value|]; simpl;
      repeat (split; [reflexivity|]); reflexivity.
Qed.

(** X23.  The subscriber the workbench names is the one the sign step
    signs for: after a successful workbench receive step on a request that
    carries the cookie [subscriber_id], the sign step asks the KeyManager
    for the key set of the cookie's value, whatever subscriber id the
    context had before, and with an empty value it fails with a bad-request
    error before any call. *)
Theorem workbench_subscriber_is_signed_for (wb : workbenchReceiveStep) (s : signStep)
  (ctx : StepContext) (σ : World) (r' : Request) (value : string) :
  OndcWorkbench_WorkbenchReceiver (workbenchReceiveStep_workbench wb)
    (Ctx_Request ctx) (Ctx_Body ctx) = (None, r') ->
  Cookie "subscriber_id" (Request_Cookies r') = Some value ->
  let '(err, ctx1, _) := workbenchReceiveStep_Run wb ctx in
  let '(err2, _, σ') := signStep_Run P s ctx1 σ in
  err = None
  /\ (value = EmptyString ->
      err2 = Some (BadReqErr (errorString "subscriberID not set")) /\ σ' = σ)
  /\ (value <> EmptyString ->
      exists rest, trace σ' = trace σ ++ CallKeyset value :: rest).
Proof.
  intros Hrecv Hcookie. unfold workbenchReceiveStep_Run. rewrite Hrecv. simpl.
  rewrite Hcookie. unfold signStep_Run. simpl.
  destruct value as [|c value']; simpl.
  - split; [reflexivity|]. split; [intros _; split; reflexivity|].
    intros Hn. contradiction Hn. reflexivity.
  - destruct (KeyManager_Keyset (signStep_km s) (String c value')) as [kerr|keySet].
    + split; [reflexivity|]. split; [discriminate|]. intros _. exists []. reflexivity.
    + cbn [time_Now emit trace now ticks hooks].
      destruct (Signer_Sign _ _ _ _ _) as [serr|sign];
        (split; [reflexivity|]); (split; [discriminate|]); intros _;
        eexists; simpl; rewrite <- app_assoc; reflexivity.
Qed.

End OndcEdges.

(** ** Building the handler *)

Section BuilderEdges.
Import OndcSteps Builder Plans.

Variables Cache Registry TransportWrapper : Type.
Variable metrics : bool.
Variable NewInstrumentedStep : builtStep -> string -> string -> error + builtStep.


Lemma andThen_follows {T : Type} (loaded : (error + option T) * list MgrCall)
  (set : option T -> Plugins Cache Registry TransportWrapper
         -> Plugins Cache Registry TransportWrapper)
  (h : Plugins Cache Registry TransportWrapper) (log : list MgrCall)
  (rest : Plugins Cache Registry TransportWrapper -> list MgrCall
          -> option error * Plugins Cache Registry TransportWrapper * list MgrCall)
  (plan1 planR : list MgrCall) :
  (exists r, plan1 = snd loaded ++ r) ->
  (forall p, fst loaded = inr p -> snd loaded = plan1) ->
  (forall h0 log0, follows_plan planR log0 (rest h0 log0)) ->
  follows_plan (plan1 ++ planR) log (andThen loaded set h log rest).
Proof.
  intros [r Hr] Hok Hrest. destruct loaded as [[err|p] calls]; simpl in *.
  - split; simpl; [|discriminate]. exists (r ++ planR). subst plan1.
    rewrite <- !app_assoc. reflexivity.
  - rewrite (Hok p eq_refl). destruct (Hrest (set p h) (log ++ plan1)) as [[r' Hp] Hall].
    split.
    + exists r'. rewrite <- Hp. rewrite <- app_assoc. reflexivity.
    + intros Hn. rewrite (Hall Hn). rewrite <- app_assoc. reflexivity.
Qed.

Lemma loadPlugin_plan {T : Type} (name : string) (cfg : option Config)
  (f : Config -> error + option T) :
  snd (loadPlugin name cfg f) = plannedCall name cfg.
Proof. destruct cfg as [c|]; simpl; [destruct (f c)|]; reflexivity. Qed.

Lemma andThen_loadPlugin {T : Type} (name : string) (cfg : option Config)
  (f : Config -> error + option T)
  (set : option T -> Plugins Cache Registry TransportWrapper
         -> Plugins Cache Registry TransportWrapper)
  (h : Plugins Cache Registry TransportWrapper) (log : list MgrCall)
  (rest : Plugins Cache Registry TransportWrapper -> list MgrCall
          -> option error * Plugins Cache Registry TransportWrapper * list MgrCall)
  (planR : list MgrCall) :
  (forall h0 log0, follows_plan planR log0 (rest h0 log0)) ->
  follows_plan (plannedCall name cfg ++ planR) log
    (andThen (loadPlugin name cfg f) set h log rest).
Proof.
  intros Hrest. apply andThen_follows; [| |exact Hrest].
  - exists []. rewrite loadPlugin_plan, app_nil_r. reflexivity.
  - intros p _. apply loadPlugin_plan.
Qed.

(** X24.  The plugin manager is asked in one fixed order, for configured
    plugins only: the calls that [initPlugins] makes are an initial part of
    the calls planned by the configuration (Cache, Registry, KeyManager,
    SignValidator, SchemaValidator, Router, Publisher, Signer,
    TransportWrapper, OndcValidator, OndcWorkbench, each with its configured
    id), and all of them when it returns no error. *)
Theorem initPlugins_follows_plan (mgr : PluginManager Cache Registry TransportWrapper)
  (cfg : PluginCfg) (h : Plugins Cache Registry TransportWrapper) :
  let '(err, _, log) := initPlugins mgr cfg h in
  (exists rest, planned cfg = log ++ rest)
  /\ (err = None -> log = planned cfg).
Proof.
  assert (H : follows_plan (planned cfg) [] (initPlugins mgr cfg h)).
  { unfold initPlugins, planned.
    apply andThen_loadPlugin; intros h1 l1.
    apply andThen_loadPlugin; intros h2 l2.
    apply andThen_follows.
    { unfold loadKeyManager. destruct (Cfg_KeyManager cfg) as [c|]; simpl.
      - destruct (h_cache _ _ _ h2) as [cache|]; simpl.
        + destruct (Mgr_KeyManager _ _ _ mgr cache _ c); exists []; reflexivity.
        + eexists; reflexivity.
      - exists []; reflexivity. }
    { intros p. unfold loadKeyManager. destruct (Cfg_KeyManager cfg) as [c|]; simpl.
      - destruct (h_cache _ _ _ h2) as [cache|]; simpl.
        + destruct (Mgr_KeyManager _ _ _ mgr cache _ c); reflexivity.
        + discriminate.
      - reflexivity. }
    intros h3 l3.
    apply andThen_loadPlugin; intros h4 l4.
    apply andThen_loadPlugin; intros h5 l5.
    apply andThen_loadPlugin; intros h6 l6.
    apply andThen_loadPlugin; intros h7 l7.
    apply andThen_loadPlugin; intros h8 l8.
    apply andThen_loadPlugin; intros h9 l9.
    apply andThen_follows.
    { unfold loadOndcValidator. destruct (Cfg_OndcValidator cfg) as [c|]; simpl;
        [destruct (Mgr_OndcValidator _ _ _ mgr _ c)|]; exists []; reflexivity. }
    { intros p. unfold loadOndcValidator. destruct (Cfg_OndcValidator cfg) as [c|]; simpl;
        [destruct (Mgr_OndcValidator _ _ _ mgr _ c)|]; reflexivity. }
    intros h10 l10.
    rewrite <- (app_nil_r (plannedCall "OndcWorkbench" (Cfg_OndcWorkbench cfg))).
    apply andThen_follows.
    { unfold loadOndcWorkbench. destruct (Cfg_OndcWorkbench cfg) as [c|]; simpl;
        [destruct (Mgr_OndcWorkbench _ _ _ mgr _ c)|]; exists []; reflexivity. }
    { intros p. unfold loadOndcWorkbench. destruct (Cfg_OndcWorkbench cfg) as [c|]; simpl;
        [destruct (Mgr_OndcWorkbench _ _ _ mgr _ c)|]; reflexivity. }
    intros h11 l11. split; simpl.
    - exists []. reflexivity.
    - intros _. symmetry. apply app_nil_r. }
  destruct (initPlugins mgr cfg h) as [[err h'] log]. destruct H as [Hp Hall].
  simpl in Hp, Hall. split; assumption.
Qed.

(** X25.  The KeyManager needs the Cache: when a KeyManager is configured
    and no Cache was loaded (none configured, or the manager returned a nil
    Cache), [initPlugins] fails without ever asking the manager for the
    KeyManager; unless loading the Registry failed first, the error is the
    one that names the KeyManager's id and the missing Cache, and nothing
    after the Registry was asked for. *)
Theorem initPlugins_keymanager_needs_cache
  (mgr : PluginManager Cache Registry TransportWrapper) (cfg : PluginCfg)
  (h : Plugins Cache Registry TransportWrapper) (c : Config) :
  Cfg_KeyManager cfg = Some c ->
  (Cfg_Cache cfg = None
   \/ exists cc, Cfg_Cache cfg = Some cc /\ Mgr_Cache _ _ _ mgr cc = inr None) ->
  let '(err, _, log) := initPlugins mgr cfg h in
  err <> None
  /\ (forall id, ~ In (Load "KeyManager" id) log)
  /\ ((forall rc, Cfg_Registry cfg = Some rc -> exists r, Mgr_Registry _ _ _ mgr rc = inr r) ->
      err = Some (errorString ("failed to load KeyManager plugin (" ++ Config_ID c
                               ++ "): Cache plugin not configured"))
      /\ log = plannedCall "Cache" (Cfg_Cache cfg)
               ++ plannedCall "Registry" (Cfg_Registry cfg)).
Proof.
  intros Hkm Hcache. unfold initPlugins.
  assert (Hfirst : exists calls,
            loadPlugin "Cache" (Cfg_Cache cfg) (Mgr_Cache _ _ _ mgr) = (inr None, calls)
            /\ calls = plannedCall "Cache" (Cfg_Cache cfg)
            /\ forall id, ~ In (Load "KeyManager" id) calls).
  { destruct Hcache as [Hc|(cc & Hc & Hm)]; rewrite Hc; simpl.
    - exists []. split; [reflexivity|]. split; [reflexivity|]. intros id [].
    - rewrite Hm. eexists. split; [reflexivity|]. split; [reflexivity|].
      intros id [E|[]]. discriminate. }
  destruct Hfirst as (calls & -> & Hcalls & Hno). rewrite <- Hcalls.
  unfold andThen at 1. simpl.
  destruct (Cfg_Registry cfg) as [rc|] eqn:Hreg; simpl.
  - destruct (Mgr_Registry _ _ _ mgr rc) as [rerr|r] eqn:Hr; simpl.
    + split; [discriminate|]. split.
      * intros id Hin. apply in_app_or in Hin. destruct Hin as [Hin|[E|[]]];
          [exact (Hno id Hin) | discriminate].
      * intros Hok. destruct (Hok rc eq_refl) as [r Hr']. congruence.
    + unfold loadKeyManager. rewrite Hkm. simpl.
      split; [discriminate|]. split.
      * intros id Hin. rewrite app_nil_r in Hin. apply in_app_or in Hin.
        destruct Hin as [Hin|[E|[]]]; [exact (Hno id Hin) | discriminate].
      * intros _. rewrite app_nil_r. split; reflexivity.
  - unfold loadKeyManager. rewrite Hkm. simpl.
    split; [discriminate|]. split.
    + intros id Hin. rewrite !app_nil_r in Hin. exact (Hno id Hin).
    + intros _. rewrite !app_nil_r. split; reflexivity.
Qed.

Lemma loadCustomSteps_spec (mgr : PluginManager Cache Registry TransportWrapper)
  (cs : list Config) (steps : gmap string (option Step)) (log : list MgrCall) :
  match loadCustomSteps mgr cs steps log with
  | (inr steps', log') =>
      (forall c, In c cs -> exists st, Mgr_Step _ _ _ mgr c = inr st)
      /\ log' = log ++ List.map (fun c => Load "Step" (Config_ID c)) cs
      /\ (forall k, is_Some (steps' !! k)
                    <-> is_Some (steps !! k) \/ In k (List.map Config_ID cs))
      /\ (forall k st, steps' !! k = Some st ->
            steps !! k = Some st
            \/ exists c, In c cs /\ Config_ID c = k /\ Mgr_Step _ _ _ mgr c = inr st)
  | (inl e, log') =>
      (exists c err, In c cs /\ Mgr_Step _ _ _ mgr c = inl err)
      /\ exists rest, log ++ List.map (fun c => Load "Step" (Config_ID c)) cs = log' ++ rest
  end.
Proof.
  revert steps log. induction cs as [|c cs IH]; intros steps log; simpl.
  - split; [intros c []|]. split; [symmetry; apply app_nil_r|]. split.
    + intros k. split; [intros H; left; exact H | intros [H|[]]; exact H].
    + intros k st H. left. exact H.
  - destruct (Mgr_Step _ _ _ mgr c) as [err|step] eqn:Hc.
    + split; [exists c, err; split; [left; reflexivity | exact Hc]|].
      exists (List.map (fun c => Load "Step" (Config_ID c)) cs).
      rewrite <- app_assoc. reflexivity.
    + specialize (IH (<[Config_ID c := step]> steps) (log ++ [Load "Step" (Config_ID c)])).
      destruct (loadCustomSteps mgr cs _ _) as [[e|steps'] log'].
      * destruct IH as [(c' & err & Hin & Hm) (rest & Hrest)].
        split; [exists c', err; split; [right; exact Hin | exact Hm]|].
        exists rest. rewrite <- Hrest, <- app_assoc. reflexivity.
      * destruct IH as (Hall & Hlog & Hdom & Hval).
        split; [intros c' [<-|Hin]; [exists step; exact Hc | apply Hall; exact Hin]|].
        split; [rewrite Hlog, <- app_assoc; reflexivity|]. split.
        -- intros k. rewrite Hdom. destruct (decide (Config_ID c = k)) as [E|N].
           ++ subst k. rewrite lookup_insert_eq. split; intros _.
              ** right. left. reflexivity.
              ** left. eexists. reflexivity.
           ++ rewrite lookup_insert_ne by exact N. split.
              ** intros [H|H]; [left; exact H | right; right; exact H].
              ** intros [H|[H|H]]; [left; exact H | contradiction | right; exact H].
        -- intros k st Hk. destruct (Hval k st Hk) as [H|(c' & Hin & Hid & Hm)].
           ++ destruct (decide (Config_ID c = k)) as [E|N].
              ** subst k. rewrite lookup_insert_eq in H. inversion H; subst st.
                 right. exists c. split; [left; reflexivity|]. split; [reflexivity | exact Hc].
              ** rewrite lookup_insert_ne in H by exact N. left. exact H.
           ++ right. exists c'. split; [right; exact Hin|]. split; assumption.
Qed.

Ltac settle_available :=
  solve [ intros _; reflexivity | intros _; eexists; reflexivity
        | intros [? ?]; discriminate | discriminate ].

Lemma buildStep_available (h : Plugins Cache Registry TransportWrapper)
  (customs : gmap string (option Step)) (ids : list string) (name : string) :
  (forall k, is_Some (customs !! k) <-> In k ids) ->
  (exists s, buildStep metrics h customs name = inr s) <-> available h ids name = true.
Proof.
  intros Hdom. unfold buildStep, available, newSignStep, newValidateSignStep,
    newValidateSchemaStep, newAddRouteStep, newValidateOndcStep,
    newValidateOndcCallSaveStep, newWorkbenchReceiveStep, newWorkbenchValidateContextStep.
  destruct (String.eqb name "sign");
    [destruct (h_signer _ _ _ h), (h_km _ _ _ h); simpl; split;
       settle_available|].
  destruct (String.eqb name "validateSign");
    [destruct (h_signValidator _ _ _ h), (h_km _ _ _ h); simpl; split;
       settle_available|].
  destruct (String.eqb name "validateSchema");
    [destruct (h_schemaValidator _ _ _ h); simpl; split;
       settle_available|].
  destruct (String.eqb name "addRoute");
    [destruct (h_router _ _ _ h); simpl; split;
       settle_available|].
  destruct (String.eqb name "validateOndcPayload"); simpl;
    [destruct (h_ondcValidator _ _ _ h); simpl; split;
       settle_available|].
  destruct (String.eqb name "validateOndcCallSave"); simpl;
    [destruct (h_ondcValidator _ _ _ h); simpl; split;
       settle_available|].
  destruct (String.eqb name "ondcWorkbenchReceiver"); simpl;
    [destruct (h_ondcWorkbench _ _ _ h); simpl; split;
       settle_available|].
  destruct (String.eqb name "ondcWorkbenchValidateContext"); simpl;
    [destruct (h_ondcWorkbench _ _ _ h); simpl; split;
       settle_available|].
  rewrite existsb_exists. split.
  - intros [s Hs]. destruct (customs !! name) as [st|] eqn:Hl; [|discriminate].
    exists name. split; [apply Hdom; eexists; exact Hl | apply String.eqb_refl].
  - intros (x & Hin & Hx). apply String.eqb_eq in Hx. subst x.
    apply Hdom in Hin. destruct Hin as [st Hst]. rewrite Hst. eexists. reflexivity.
Qed.

Lemma registerSteps_spec (h : Plugins Cache Registry TransportWrapper)
  (moduleName : string) (customs : gmap string (option Step)) (names : list string)
  (acc : list builtStep) :
  match registerSteps metrics NewInstrumentedStep h moduleName customs names acc with
  | (None, built) =>
      exists new,
        built = acc ++ new
        /\ Forall2 (fun name b =>
                      exists s, buildStep metrics h customs name = inr s
                                /\ b = instrumented NewInstrumentedStep s name moduleName)
             names new
  | (Some e, built) =>
      exists name, In name names /\ buildStep metrics h customs name = inl e
  end.
Proof.
  revert acc. induction names as [|name names IH]; intros acc; simpl.
  - exists []. split; [symmetry; apply app_nil_r | constructor].
  - destruct (buildStep metrics h customs name) as [e|s] eqn:Hb.
    + exists name. split; [left; reflexivity | exact Hb].
    + assert (E : match NewInstrumentedStep s name moduleName with
                  | inl _ => registerSteps metrics NewInstrumentedStep h moduleName customs
                               names (acc ++ [s])
                  | inr i => registerSteps metrics NewInstrumentedStep h moduleName customs
                               names (acc ++ [i])
                  end
                  = registerSteps metrics NewInstrumentedStep h moduleName customs names
                      (acc ++ [instrumented NewInstrumentedStep s name moduleName])).
      { unfold instrumented. destruct (NewInstrumentedStep s name moduleName); reflexivity. }
      rewrite E. clear E.
      specialize (IH (acc ++ [instrumented NewInstrumentedStep s name moduleName])).
      destruct (registerSteps _ _ _ _ _ _ _) as [[e|] built].
      * destruct IH as (n & Hin & Hn). exists n. split; [right; exact Hin | exact Hn].
      * destruct IH as (new & Hbuilt & Hall).
        exists (instrumented NewInstrumentedStep s name moduleName :: new).
        split; [rewrite Hbuilt, <- app_assoc; reflexivity|].
        constructor; [exists s; split; [exact Hb | reflexivity] | exact Hall].
Qed.

(** X26.  When building the steps succeeds, and what it leaves: [initSteps]
    returns no error exactly when the manager loads every configured custom
    step and every configured step name is available (a built-in name whose
    plugins are loaded, or the id of a configured custom step; a built-in
    name never refers to a custom step).  On success every custom step was
    asked for once, in the order of the configuration, and the handler has
    one step per configured name, in that order: the step built for the
    name, in its instrumented form when instrumenting succeeds and as built
    when it fails. *)
Theorem initSteps_succeeds_iff (mgr : PluginManager Cache Registry TransportWrapper)
  (h : Plugins Cache Registry TransportWrapper) (moduleName : string)
  (customCfg : list Config) (names : list string) :
  let '(err, built, log) :=
    initSteps metrics NewInstrumentedStep mgr h moduleName customCfg names in
  (err = None <->
     (forall c, In c customCfg -> exists st, Mgr_Step _ _ _ mgr c = inr st)
     /\ (forall name, In name names ->
           available h (List.map Config_ID customCfg) name = true))
  /\ (err = None ->
      log = List.map (fun c => Load "Step" (Config_ID c)) customCfg
      /\ exists customs,
           (forall k st, customs !! k = Some st ->
              exists c, In c customCfg /\ Config_ID c = k
                        /\ Mgr_Step _ _ _ mgr c = inr st)
           /\ Forall2 (fun name b =>
                         exists s, buildStep metrics h customs name = inr s
                                   /\ b = instrumented NewInstrumentedStep s name moduleName)
                names built).
Proof.
  unfold initSteps.
  pose proof (loadCustomSteps_spec mgr customCfg ∅ []) as Hload.
  destruct (loadCustomSteps mgr customCfg ∅ []) as [[e|customs] log].
  - destruct Hload as [(c & err & Hin & Hm) _]. split; [|discriminate].
    split; [discriminate|]. intros [Hall _]. destruct (Hall c Hin) as [st Hst]. congruence.
  - destruct Hload as (Hall & Hlog & Hdom & Hval). simpl in Hlog.
    assert (Hdom' : forall k, is_Some (customs !! k) <-> In k (List.map Config_ID customCfg)).
    { intros k. rewrite Hdom, lookup_empty. split; [intros [[x Hx]|H]|intros H].
      - discriminate.
      - exact H.
      - right. exact H. }
    pose proof (registerSteps_spec h moduleName customs names []) as Hreg.
    destruct (registerSteps metrics NewInstrumentedStep h moduleName customs names [])
      as [[e|] built].
    + destruct Hreg as (name & Hin & Hb). split; [|discriminate].
      split; [discriminate|]. intros [_ Hav].
      apply (buildStep_available h customs _ name Hdom') in Hav; [|exact Hin].
      destruct Hav as [s Hs]. congruence.
    + destruct Hreg as (new & Hbuilt & Hf). simpl in Hbuilt. subst new.
      split.
      * split; [|reflexivity]. intros _. split; [exact Hall|].
        intros name Hin. apply (buildStep_available h customs _ name Hdom').
        clear - Hf Hin. induction Hf as [|n b ns bs (s & Hs & _) Hf IH]; [destruct Hin|].
        destruct Hin as [<-|Hin]; [exists s; exact Hs | apply IH; exact Hin].
      * intros _. split; [exact Hlog|]. exists customs. split; [|exact Hf].
        intros k st Hk. destruct (Hval k st Hk) as [H|H]; [|exact H].
        rewrite lookup_empty in H. discriminate.
Qed.

End BuilderEdges.

(** ** The schema validator: verdicts and the cache *)

Section SchemaEdges.

Variable P : Model.Pkg.
Variable Schema : Type.
Variable Unmarshal_payload : string -> string + SchemaValidator.payload.
Variable Unmarshal_any : string -> string + JSON.
Variable path_Base : string -> string.
Variable ToLower : string -> string.
Variable Compile : string -> error + Schema.
Variable schema_Validate : Schema -> JSON -> SchemaValidator.SchemaResult.

(** X27.  What a client gets from the validateSchema step, stage by
    stage.  With a compiler whose errors are of no typed kind, the step
    never changes the context, and on a fresh writer its outcome is
    answered as follows: status 400 when the body does not decode into the
    context envelope, when the domain is empty, when version and core
    version are both empty, when no schema is known for the key of the
    document, when the schema file does not compile, or when the body does
    not decode as a JSON value; otherwise the compiled schema decides:
    success when it accepts the document, status 200 when it rejects the
    document with causes, status 500 when it fails in another way. *)
Theorem validateSchema_statuses (v : SchemaValidator.schemaValidator Schema)
  (metrics : bool) (ctx : StepContext) (σ : World) (w : ResponseWriter) :
  (forall path cerr, Compile path = inl cerr -> unrecognized P cerr) ->
  fresh w ->
  let url := Request_URL (Ctx_Request ctx) in
  let data := Ctx_Body ctx in
  let '(err, ctx', _) :=
    validateSchemaStep_Run
      {| validateSchemaStep_validator :=
           validatorPlugin Schema Unmarshal_payload Unmarshal_any path_Base ToLower Compile
             schema_Validate v;
         validateSchemaStep_metrics := metrics |} ctx σ in
  let answered := fun status : Z =>
    exists e, err = Some e
              /\ rw_status (Response.SendNack P (Context_MsgID (Ctx_Context ctx)) w e)
                 = Some status in
  ctx' = ctx
  /\ match Unmarshal_payload data with
     | inl _ => answered 400%Z
     | inr p =>
         if String.eqb (SchemaValidator.Domain p) EmptyString then answered 400%Z
         else if String.eqb (SchemaValidator.Version p) EmptyString
                 && String.eqb (SchemaValidator.CoreVersion p) EmptyString
         then answered 400%Z
         else
           match fst (SchemaValidator.getCompiledSchema Schema Compile v
                        (schemaKeyOf ToLower path_Base p url)) with
           | SchemaValidator.KeyNotFound _ _ => answered 400%Z
           | SchemaValidator.CompileFailed _ _ => answered 400%Z
           | SchemaValidator.CompiledSchema _ schema =>
               match Unmarshal_any data with
               | inl _ => answered 400%Z
               | inr j =>
                   match schema_Validate schema j with
                   | SchemaValidator.Valid => err = None
                   | SchemaValidator.ValidationError _ => answered 200%Z
                   | SchemaValidator.OtherError _ => answered 500%Z
                   end
               end
           end
     end.
Proof.
  intros Hcomp Hw. cbn zeta. unfold validateSchemaStep_Run.
  cbn [validateSchemaStep_validator validateSchemaStep_metrics validatorPlugin
       SchemaValidator_Validate].
  split; [reflexivity|].
  assert (H400 : forall c,
            unrecognized P c ->
            exists e,
              Some (wrapError "schema validation failed: %w" (BadReqErr c)) = Some e
              /\ rw_status (Response.SendNack P (Context_MsgID (Ctx_Context ctx)) w e)
                 = Some 400%Z).
  { intros c Hc. eexists. split; [reflexivity|].
    destruct (SendNack_of_typed_leaf P (Context_MsgID (Ctx_Context ctx)) w
                ["schema validation failed: %w"] (BadReqErr c) Hw Hc) as (Hst & _).
    exact Hst. }
  unfold SchemaValidator.Validate.
  destruct (Unmarshal_payload (Ctx_Body ctx)) as [perr|p]; simpl.
  { apply H400, unrecognized_errorString. }
  destruct (String.eqb (SchemaValidator.Domain p) EmptyString); simpl.
  { apply H400, unrecognized_errorString. }
  destruct (String.eqb (SchemaValidator.Version p) EmptyString
            && String.eqb (SchemaValidator.CoreVersion p) EmptyString); simpl.
  { apply H400, unrecognized_errorString. }
  unfold schemaKeyOf.
  destruct (SchemaValidator.getCompiledSchema Schema Compile v _)
    as [[schema|key|cerr] v'] eqn:Hg; simpl.
  - destruct (Unmarshal_any (Ctx_Body ctx)) as [jerr|j]; simpl.
    { apply H400, unrecognized_errorString. }
    destruct (schema_Validate schema j) as [|causes|text]; simpl.
    + reflexivity.
    + eexists. split; [reflexivity|].
      destruct (SendNack_of_typed_leaf P (Context_MsgID (Ctx_Context ctx)) w
                  ["schema validation failed: %w"]
                  (SchemaValidationErr (List.map (fun cause =>
                     {| Error_Code := EmptyString;
                        Error_Paths :=
                          SchemaValidator.Join (SchemaValidator.InstanceLocation cause) ".";
                        Error_Message := SchemaValidator.Cause_Error cause;
                        Error_Context := None |}) causes)) Hw I) as (Hst & _).
      exact Hst.
    + eexists. split; [reflexivity|]. unfold Response.SendNack. simpl.
      destruct (nack_fresh (Context_MsgID (Ctx_Context ctx)) w
                  (Response.internalServerError (Context_MsgID (Ctx_Context ctx)))
                  500%Z Hw eq_refl) as (Hst & _).
      exact Hst.
  - apply H400, unrecognized_errorString.
  - apply H400, unrecognized_wrapError.
    unfold SchemaValidator.getCompiledSchema in Hg.
    destruct (SchemaValidator.schemaCache Schema v !! _); [discriminate|].
    destruct (SchemaValidator.schemaFiles Schema v !! _) as [path|]; [|discriminate].
    destruct (Compile path) as [cerr'|s'] eqn:Hc; [|discriminate].
    assert (E : cerr' = cerr) by congruence. subst cerr'. exact (Hcomp path cerr Hc).
Qed.

End SchemaEdges.

Section SchemaCache.

Variable Schema : Type.

(** X28.  A schema is compiled at most once.  A lookup never changes the
    index of schema files and changes the cache at most at the key looked
    up.  When it returns a schema, the schema is cached under the key and
    the next lookup of the key returns it, in the same state, whatever the
    compiler would do then.  When the key is unknown or the file does not
    compile, the state is untouched, so a failed compilation is tried
    again by the next lookup. *)
Theorem schema_compiled_once (Compile Compile' : string -> error + Schema)
  (v : SchemaValidator.schemaValidator Schema) (key : string) :
  let '(res, v') := SchemaValidator.getCompiledSchema Schema Compile v key in
  SchemaValidator.schemaFiles Schema v' = SchemaValidator.schemaFiles Schema v
  /\ (forall k, k <> key ->
        SchemaValidator.schemaCache Schema v' !! k
        = SchemaValidator.schemaCache Schema v !! k)
  /\ match res with
     | SchemaValidator.CompiledSchema _ s =>
         SchemaValidator.schemaCache Schema v' !! key = Some s
         /\ SchemaValidator.getCompiledSchema Schema Compile' v' key
            = (SchemaValidator.CompiledSchema Schema s, v')
         /\ (SchemaValidator.schemaCache Schema v !! key = None ->
             exists path,
               SchemaValidator.schemaFiles Schema v !! key = Some path
               /\ Compile path = inr s)
     | SchemaValidator.KeyNotFound _ k =>
         k = key /\ v' = v
         /\ SchemaValidator.schemaCache Schema v !! key = None
         /\ SchemaValidator.schemaFiles Schema v !! key = None
     | SchemaValidator.CompileFailed _ e =>
         v' = v
         /\ SchemaValidator.schemaCache Schema v !! key = None
         /\ exists path,
              SchemaValidator.schemaFiles Schema v !! key = Some path
              /\ Compile path = inl e
     end.
Proof.
  unfold SchemaValidator.getCompiledSchema.
  destruct (SchemaValidator.schemaCache Schema v !! key) as [s|] eqn:Hc.
  - split; [reflexivity|]. split; [reflexivity|]. split; [exact Hc|].
    split; [rewrite Hc; reflexivity | discriminate].
  - destruct (SchemaValidator.schemaFiles Schema v !! key) as [path|] eqn:Hf.
    + destruct (Compile path) as [e|s] eqn:Hp.
      * split; [reflexivity|]. split; [reflexivity|]. split; [reflexivity|].
        split; [reflexivity|]. exists path. split; [reflexivity | exact Hp].
      * simpl. split; [reflexivity|].
        split; [intros k Hk; apply lookup_insert_ne; congruence|].
        rewrite lookup_insert_eq. split; [reflexivity|]. split; [reflexivity|].
        intros _. exists path. split; [reflexivity | exact Hp].
    + split; [reflexivity|]. split; [reflexivity|]. split; [reflexivity|].
      split; [reflexivity|]. split; reflexivity.
Qed.

End SchemaCache.

(** ** The schema validator: the index of schema files *)

Section IndexEdges.
Import SchemaIndex.

Variable Join : string -> string -> string.

Lemma indexItems_app (a b : list Item) (f : gmap string string) :
  indexItems (a ++ b) f
  = match indexItems a f with
    | inl err => inl err
    | inr f' => indexItems b f'
    end.
Proof.
  revert f. induction a as [|[parts path|text] a IH]; intros f; simpl;
    [reflexivity | | reflexivity].
  destruct (indexFile parts path f); [reflexivity | apply IH].
Qed.

(** The walk indexes the items it meets, in the order it meets them. *)
Lemma processEntry_items :
  forall (e : Entry) (dir : string) (rel : list string) (f : gmap string string),
    processEntry Join dir rel e f = indexItems (itemsOf Join dir rel e) f.
Proof.
  fix IH 1. intros [name|name readError entries] dir rel f; simpl.
  - destruct (String.eqb (Ext name) ".json"); simpl; [|reflexivity].
    destruct (indexFile _ _ f); reflexivity.
  - destruct readError as [text|]; [reflexivity|].
    revert f. induction entries as [|e' es IHes]; intros f; [reflexivity|].
    rewrite indexItems_app, <- (IH e'). destruct (processEntry _ _ _ e' f);
      [reflexivity | apply IHes].
Qed.

Lemma processEntries_items (dir : string) (rel : list string) (es : list Entry)
  (f : gmap string string) :
  processEntries Join dir rel es f = indexItems (itemsOfEntries Join dir rel es) f.
Proof.
  revert f. induction es as [|e es IH]; intros f; simpl; [reflexivity|].
  rewrite indexItems_app, <- processEntry_items.
  destruct (processEntry Join dir rel e f); [reflexivity | apply IH].
Qed.

Lemma indexFile_inr (parts : list string) (path : string) (f f' : gmap string string) :
  indexFile parts path f = inr f'
  <-> accepted (JsonFile parts path)
      /\ exists k, keyOf parts = Some k /\ f' = <[k := path]> f.
Proof.
  unfold indexFile, accepted, keyOf.
  destruct parts as [|p0 [|p1 [|p2 rest]]];
    try (split; [discriminate | intros [[] _]]).
  destruct (String.eqb (GoStrings.TrimSpace p0) EmptyString) eqn:E0; simpl.
  { apply String.eqb_eq in E0. split; [discriminate | intros [[H _] _]; contradiction]. }
  destruct (String.eqb (GoStrings.TrimSpace p1) EmptyString) eqn:E1; simpl.
  { apply String.eqb_eq in E1. split; [discriminate | intros [(_ & H & _) _]; contradiction]. }
  destruct (String.eqb (TrimSuffix (GoStrings.TrimSpace p2) ".json") EmptyString) eqn:E2.
  { apply String.eqb_eq in E2. split; [discriminate | intros [(_ & _ & H) _]; contradiction]. }
  apply String.eqb_neq in E0, E1, E2. split.
  - intros H. inversion H; subst f'. split; [split; [exact E0 | split; [exact E1 | exact E2]]|].
    eexists. split; reflexivity.
  - intros (_ & k & Hk & ->). inversion Hk; subst k. reflexivity.
Qed.

Lemma indexItems_inr (items : list Item) :
  forall f0 f,
    indexItems items f0 = inr f ->
    Forall accepted items
    /\ forall k, f !! k = match lookupItems k items with
                          | Some path => Some path
                          | None => f0 !! k
                          end.
Proof.
  induction items as [|[parts path|text] items IH]; intros f0 f H; simpl in H.
  - inversion H; subst f. split; [constructor | intros k; reflexivity].
  - destruct (indexFile parts path f0) as [err|f1] eqn:Hi; [discriminate|].
    apply indexFile_inr in Hi. destruct Hi as (Hacc & k0 & Hk0 & ->).
    destruct (IH _ _ H) as [Hall Hlook].
    split; [constructor; assumption|]. intros k. simpl. rewrite Hlook.
    destruct (lookupItems k items); [reflexivity|]. rewrite Hk0.
    destruct (String.eqb k0 k) eqn:E.
    + apply String.eqb_eq in E. subst k0. apply lookup_insert_eq.
    + apply String.eqb_neq in E. apply lookup_insert_ne. exact E.
  - discriminate.
Qed.

Lemma indexItems_accepts (items : list Item) :
  Forall accepted items -> forall f0, exists f, indexItems items f0 = inr f.
Proof.
  induction 1 as [|it items Hacc Hall IH]; intros f0; simpl; [eexists; reflexivity|].
  destruct it as [parts path|text]; [|destruct Hacc].
  destruct (indexFile parts path f0) as [err|f1] eqn:Hi; [|apply IH].
  exfalso. assert (Hk : exists k, keyOf parts = Some k).
  { unfold accepted in Hacc. destruct parts as [|p0 [|p1 [|p2 rest]]]; try contradiction.
    eexists. reflexivity. }
  destruct Hk as [k Hk].
  assert (Hok : indexFile parts path f0 = inr (<[k := path]> f0)).
  { apply indexFile_inr. split; [exact Hacc|]. exists k. split; [exact Hk | reflexivity]. }
  congruence.
Qed.

(** What a successful [initialise] did. *)
Lemma initialise_lookup (schemaDir : string) (entries : list Entry)
  (files : gmap string string) :
  initialise Join schemaDir (Directory None entries) = inr files ->
  Forall accepted (itemsOfEntries Join schemaDir [] entries)
  /\ forall k, files !! k = lookupItems k (itemsOfEntries Join schemaDir [] entries).
Proof.
  unfold initialise. rewrite processEntries_items. intros H.
  destruct (indexItems _ ∅) as [err|f] eqn:Hi; [discriminate|].
  inversion H; subst f. destruct (indexItems_inr _ _ _ Hi) as [Hall Hlook].
  split; [exact Hall|]. intros k.
  rewrite Hlook, lookup_empty. destruct (lookupItems k _); reflexivity.
Qed.

(** X29.  What the index of schema files holds.  On a schema directory
    that can be read, [initialise] succeeds exactly when every directory
    below it can be read and every file with the extension [.json] lies at
    least two directories deep, with none of its first three path
    components empty after trimming; the index then maps a key to the path
    of the last file met by the walk that has this key, and to nothing when
    no file has it.  Files met earlier with the same key are dropped
    without an error. *)
Theorem initialise_indexes_last (schemaDir : string) (entries : list Entry) :
  let items := itemsOfEntries Join schemaDir [] entries in
  ((exists files, initialise Join schemaDir (Directory None entries) = inr files)
   <-> Forall accepted items)
  /\ forall files,
       initialise Join schemaDir (Directory None entries) = inr files ->
       forall k, files !! k = lookupItems k items.
Proof.
  cbn zeta. unfold initialise. rewrite processEntries_items.
  split; [split|].
  - intros [files H].
    destruct (indexItems _ ∅) as [err|f] eqn:Hi; [discriminate|].
    apply (indexItems_inr _ _ _ Hi).
  - intros Hall. destruct (indexItems_accepts _ Hall ∅) as [f Hf]. rewrite Hf.
    exists f. reflexivity.
  - intros files H k.
    destruct (indexItems _ ∅) as [err|f] eqn:Hi; [discriminate|].
    inversion H; subst f. destruct (indexItems_inr _ _ _ Hi) as [_ Hlook].
    rewrite Hlook, lookup_empty. destruct (lookupItems k _); reflexivity.
Qed.

Lemma itemsOf_path :
  forall (e : Entry) (dir : string) (rel parts : list string) (path : string),
    In (JsonFile parts path) (itemsOf Join dir rel e) ->
    exists names, parts = rel ++ names /\ path = fold_left Join names dir.
Proof.
  fix IH 1. intros [name|name readError entries] dir rel parts path; simpl.
  - destruct (String.eqb (Ext name) ".json"); [|intros []].
    intros [H|[]]. inversion H; subst. exists [name]. split; reflexivity.
  - destruct readError as [text|]; [intros [H|[]]; discriminate|].
    induction entries as [|e' es IHes]; [intros []|].
    intros H. apply in_app_or in H. destruct H as [H|H]; [|apply IHes; exact H].
    destruct (IH e' _ _ _ _ H) as (names & -> & ->).
    exists (name :: names). split; [rewrite <- app_assoc; reflexivity | reflexivity].
Qed.

Lemma itemsOfEntries_path (dir : string) (rel : list string) (es : list Entry)
  (parts : list string) (path : string) :
  In (JsonFile parts path) (itemsOfEntries Join dir rel es) ->
  exists names, parts = rel ++ names /\ path = fold_left Join names dir.
Proof.
  induction es as [|e es IH]; simpl; [intros []|].
  intros H. apply in_app_or in H. destruct H as [H|H]; [|apply IH; exact H].
  apply (itemsOf_path e _ _ _ _ H).
Qed.

Lemma lookupItems_unique (k : string) (items : list Item) (parts : list string)
  (path : string) :
  In (JsonFile parts path) items -> keyOf parts = Some k ->
  (forall parts' path',
     In (JsonFile parts' path') items -> keyOf parts' = Some k -> path' = path) ->
  lookupItems k items = Some path.
Proof.
  induction items as [|it items IH]; [intros []|].
  intros Hin Hk Huniq. simpl.
  destruct (lookupItems k items) as [p|] eqn:Hl.
  - assert (Hp : exists parts', In (JsonFile parts' p) items /\ keyOf parts' = Some k).
    { clear - Hl. induction items as [|it items IH]; [discriminate|]. simpl in Hl.
      destruct (lookupItems k items) as [q|].
      - inversion Hl; subst q. destruct (IH eq_refl) as (parts' & Hin & Hk).
        exists parts'. split; [right; exact Hin | exact Hk].
      - destruct it as [parts' path'|text]; [|discriminate].
        destruct (keyOf parts') as [k'|] eqn:Hk'; [|discriminate].
        destruct (String.eqb k' k) eqn:E; [|discriminate].
        apply String.eqb_eq in E. subst k'. inversion Hl; subst p.
        exists parts'. split; [left; reflexivity | exact Hk']. }
    destruct Hp as (parts' & Hin' & Hk'). f_equal.
    apply (Huniq parts' p); [right; exact Hin' | exact Hk'].
  - destruct Hin as [->|Hin].
    + rewrite Hk, String.eqb_refl. reflexivity.
    + assert (E : None = Some path).
      { apply (IH Hin Hk). intros parts' path' Hin' Hk'.
        apply (Huniq parts' path'); [right; exact Hin' | exact Hk']. }
      discriminate E.
Qed.

Lemma TrimSuffix_app (e suffix : string) : TrimSuffix (e ++ suffix) suffix = e.
Proof.
  unfold TrimSuffix, HasSuffix. rewrite rev_app, HasPrefix_app, length_append.
  replace (String.length e + String.length suffix - String.length suffix)
    with (String.length e) by lia.
  apply take_app_length.
Qed.

Section Agreement.

Variable Schema : Type.
Variable Unmarshal_payload : string -> string + SchemaValidator.payload.
Variable Unmarshal_any : string -> string + JSON.
Variable path_Base : string -> string.
Variable ToLower : string -> string.
Variable Compile : string -> error + Schema.
Variable schema_Validate : Schema -> JSON -> SchemaValidator.SchemaResult.

(** X30.  The index and the validator agree on the key.  After
    [initialise] succeeded, take a document whose context has a domain and
    a version, and let [d] be its domain in lower case with colons replaced
    by underscores, [ver] the letter v followed by its version (the core
    version when the version is empty) and [e] the last element of the
    request URL.  When the walk met the file [e.json] in the directory
    [ver] of the directory [d] of the schema directory, none of the three
    names has white space at its ends, and no other file met has the same
    key, the validator started on this index compiles exactly that file,
    and its verdict on the document is the verdict of the schema compiled
    from it. *)
Theorem indexed_schema_is_validated_against (schemaDir : string) (entries : list Entry)
  (files : gmap string string) (p : SchemaValidator.payload) (url data path : string) :
  initialise Join schemaDir (Directory None entries) = inr files ->
  Unmarshal_payload data = inr p ->
  SchemaValidator.Domain p <> EmptyString ->
  (SchemaValidator.Version p <> EmptyString \/ SchemaValidator.CoreVersion p <> EmptyString) ->
  let items := itemsOfEntries Join schemaDir [] entries in
  let d := GoStrings.ReplaceAll (ToLower (SchemaValidator.Domain p)) ":" "_" in
  let ver := ("v" ++ (if String.eqb (SchemaValidator.Version p) EmptyString
                      then SchemaValidator.CoreVersion p
                      else SchemaValidator.Version p))%string in
  let e := path_Base url in
  GoStrings.TrimSpace d = d -> GoStrings.TrimSpace ver = ver ->
  GoStrings.TrimSpace (e ++ ".json") = (e ++ ".json")%string ->
  In (JsonFile [d; ver; (e ++ ".json")%string] path) items ->
  (forall parts' path',
     In (JsonFile parts' path') items ->
     keyOf parts' = Some (d ++ "_" ++ ver ++ "_" ++ e)%string -> path' = path) ->
  path = Join (Join (Join schemaDir d) ver) (e ++ ".json")
  /\ (forall cerr,
        Compile path = inl cerr ->
        fst (SchemaValidator.Validate Schema Unmarshal_payload Unmarshal_any path_Base
               ToLower Compile schema_Validate
               {| SchemaValidator.schemaCache := ∅; SchemaValidator.schemaFiles := files |}
               url data)
        = Some (BadReqErr
                  (wrapError "failed to compile JSON schema from file %s: %w" cerr)))
  /\ (forall schema j,
        Compile path = inr schema -> Unmarshal_any data = inr j ->
        fst (SchemaValidator.Validate Schema Unmarshal_payload Unmarshal_any path_Base
               ToLower Compile schema_Validate
               {| SchemaValidator.schemaCache := ∅; SchemaValidator.schemaFiles := files |}
               url data)
        = match schema_Validate schema j with
          | SchemaValidator.Valid => None
          | SchemaValidator.ValidationError causes =>
              Some (SchemaValidationErr (List.map errorOfCause causes))
          | SchemaValidator.OtherError text =>
              Some (errorString ("validation failed: " ++ text))
          end).
Proof.
  intros Hinit Hp Hd Hv items d ver e Htd Htv Hte Hin Huniq.
  assert (Hkey : keyOf [d; ver; (e ++ ".json")%string]
                 = Some (d ++ "_" ++ ver ++ "_" ++ e)%string).
  { unfold keyOf. rewrite Htd, Htv, Hte, TrimSuffix_app. reflexivity. }
  assert (Hfile : files !! (d ++ "_" ++ ver ++ "_" ++ e)%string = Some path).
  { destruct (initialise_lookup schemaDir entries files Hinit) as [_ Hlook].
    rewrite Hlook. fold items.
    apply (lookupItems_unique _ items _ path Hin Hkey Huniq). }
  split.
  { destruct (itemsOfEntries_path _ _ _ _ _ Hin) as (names & Hn & ->).
    simpl in Hn. subst names. reflexivity. }
  assert (Hvv : String.eqb (SchemaValidator.Version p) EmptyString
                && String.eqb (SchemaValidator.CoreVersion p) EmptyString = false).
  { destruct Hv as [Hv|Hv]; apply String.eqb_neq in Hv; rewrite Hv;
      [reflexivity | apply andb_false_r]. }
  apply String.eqb_neq in Hd.
  split.
  - intros cerr Hc. unfold SchemaValidator.Validate, SchemaValidator.getCompiledSchema.
    rewrite Hp, Hd, Hvv. cbv zeta.
    cbn [SchemaValidator.schemaCache SchemaValidator.schemaFiles].
    rewrite lookup_empty. fold d ver e. rewrite Hfile, Hc. reflexivity.
  - intros schema j Hc Hj.
    unfold SchemaValidator.Validate, SchemaValidator.getCompiledSchema.
    rewrite Hp, Hd, Hvv. cbv zeta.
    cbn [SchemaValidator.schemaCache SchemaValidator.schemaFiles].
    rewrite lookup_empty. fold d ver e. rewrite Hfile, Hc, Hj.
    destruct (schema_Validate schema j); reflexivity.
Qed.

End Agreement.

End IndexEdges.

(** ** The further properties on the sample configuration *)

Section FurtherExamples.

Lemma SendNack_typed_status_witness :
  let w := newResponseWriter false in
  let formats := ["failed to determine route: %w"] in
  let e := NotFoundErr (errorString "no route for /search") in
  fresh w /\ typed_leaf Sample.pkg e
  /\ rw_status (Response.SendNack Sample.pkg (Some "m-1") w (wraps formats e))
     = Some (status_of_typed e)
  /\ rw_body (Response.SendNack Sample.pkg (Some "m-1") w (wraps formats e))
     = rw_body w ++ [MarshalResponse (Response.nackResponse (BecknError Sample.pkg e))].
Proof.
  intros w formats e.
  assert (Hw : fresh w) by exact fresh_new.
  assert (He : typed_leaf Sample.pkg e) by (repeat split).
  split; [exact Hw|]. split; [exact He|].
  exact (SendNack_typed_status Sample.pkg (Some "m-1") w formats e Hw He).
Defined.

Lemma SendNack_workbench_status_witness :
  let w := newResponseWriter false in
  let formats := ["ondc workbench receive step failed: %w"] in
  let behavior := "HTTP" in
  let x := Cases.throttled in
  let w' := Response.SendNack Sample.pkg (Some "m-1") w
              (wraps formats (WorkbenchErr behavior x)) in
  fresh w
  /\ (behavior = "NACK"
      \/ (behavior = "HTTP" /\ valid_code (Response.Atoi (Error_Code x)) = true))
  /\ rw_status w' = Some 429%Z
  /\ rw_interim w' = rw_interim w
  /\ rw_body w'
     = rw_body w ++ [MarshalResponse
                       (Response.nackResponse
                          (Workbench_BecknError Sample.pkg behavior x))].
Proof.
  intros w formats behavior x w'.
  assert (Hw : fresh w) by exact fresh_new.
  assert (Hb : behavior = "NACK"
               \/ (behavior = "HTTP" /\ valid_code (Response.Atoi (Error_Code x)) = true)).
  { right. split; reflexivity. }
  split; [exact Hw|]. split; [exact Hb|].
  exact (SendNack_workbench_status Sample.pkg (Some "m-1") w formats behavior x Hw Hb).
Defined.

(** A workbench error that asks for 103 Early Hints: the hint goes out as
    an interim response and the NACK follows with status 200.  One that
    asks for 204 No Content: the status is sent and the NACK is refused. *)
Example SendNack_workbench_early_hints :
  let x := {| Error_Code := "103"; Error_Paths := EmptyString;
              Error_Message := "hint"; Error_Context := None |} in
  let w' := Response.SendNack Sample.pkg (Some "m-1") (newResponseWriter false)
              (WorkbenchErr "HTTP" x) in
  rw_status w' = Some 200%Z
  /\ List.map fst (rw_interim w') = [103%Z]
  /\ rw_body w' = [MarshalResponse (Response.nackResponse x)].
Proof. vm_compute. repeat split; reflexivity. Qed.

Example SendNack_workbench_no_content :
  let x := {| Error_Code := "204"; Error_Paths := EmptyString;
              Error_Message := "nothing"; Error_Context := None |} in
  let w' := Response.SendNack Sample.pkg (Some "m-1") (newResponseWriter false)
              (WorkbenchErr "HTTP" x) in
  rw_status w' = Some 204%Z /\ rw_interim w' = [] /\ rw_body w' = [].
Proof. vm_compute. repeat split; reflexivity. Qed.

Lemma SendNack_workbench_unanswered_witness :
  let w := newResponseWriter false in
  let formats := ["ondc workbench receive step failed: %w"] in
  let behavior := "DROP" in
  let x := Cases.throttled in
  rw_status w = None
  /\ (behavior <> "NACK" -> behavior <> "HTTP" ->
      Response.SendNack Sample.pkg (Some "m-1") w (wraps formats (WorkbenchErr behavior x))
      = w)
  /\ (behavior = "HTTP" -> valid_code (Response.Atoi (Error_Code x)) = false ->
      let w' := Response.SendNack Sample.pkg (Some "m-1") w
                  (wraps formats (WorkbenchErr behavior x)) in
      rw_status w' = None /\ rw_body w' = rw_body w /\ rw_panicked w' = true).
Proof.
  intros w formats behavior x.
  split; [reflexivity|].
  exact (SendNack_workbench_unanswered Sample.pkg (Some "m-1") w formats behavior x eq_refl).
Defined.

Lemma write_failure_keeps_status_witness :
  let w := newResponseWriter false in
  let err := BadReqErr (errorString "missing field Domain in context") in
  rw_status w = None /\ rw_panicked w = false
  /\ rw_status (Response.SendNack Sample.pkg (Some "m-1") (with_connection true w) err)
     = rw_status (Response.SendNack Sample.pkg (Some "m-1") (with_connection false w) err)
  /\ rw_body (Response.SendNack Sample.pkg (Some "m-1") (with_connection true w) err)
     = rw_body w
  /\ rw_status (Response.SendAck (with_connection true w)) = Some 200%Z
  /\ rw_body (Response.SendAck (with_connection true w)) = rw_body w.
Proof.
  intros w err. split; [reflexivity|]. split; [reflexivity|].
  exact (write_failure_keeps_status Sample.pkg (Some "m-1") w err eq_refl eq_refl).
Defined.

Lemma ServeHTTP_unreadable_body_witness :
  let h := Sample.handler [Sample.passStep] in
  let w := newResponseWriter false in
  let r := Cases.unreadable_request in
  let σ := Sample.world in
  let err := errorString "unexpected EOF" in
  Request_Body r = BodyFails err /\ unrecognized Sample.pkg err /\ fresh w
  /\ (let out := ServeHTTP Sample.pkg Sample.unmarshal h w r σ in
      Served_invoked out = []
      /\ Served_world out = σ
      /\ rw_status (Served_w out) = Some 400%Z
      /\ rw_body (Served_w out)
         = rw_body w ++ [MarshalResponse
                           (Response.nackResponse
                              (BadReq_BecknError Sample.pkg (BadReqErr err)))]).
Proof.
  intros h w r σ err.
  assert (Hu : unrecognized Sample.pkg err) by (repeat split).
  split; [reflexivity|]. split; [exact Hu|]. split; [exact fresh_new|].
  exact (ServeHTTP_unreadable_body Sample.pkg Sample.unmarshal h w r σ err eq_refl Hu
           fresh_new).
Defined.

Lemma ServeHTTP_without_route_witness :
  let h := Sample.handler [Sample.passStep] in
  let w := newResponseWriter false in
  let r := Sample.request in
  let σ := Sample.world in
  let ctx0 := Cases.served_context h in
  let inv := [(Sample.passStep, None)] in
  stepCtx h (stamped h r) (rw_header w) = inr ctx0
  /\ runSteps (steps h) ctx0 σ [] = (None, ctx0, σ, inv)
  /\ Ctx_Route ctx0 = None
  /\ rw_status w = None /\ rw_broken w = false
  /\ (let out := ServeHTTP Sample.pkg Sample.unmarshal h w r σ in
      List.map fst (Served_invoked out) = steps h
      /\ Served_world out = σ
      /\ rw_status (Served_w out) = Some 200%Z
      /\ rw_body (Served_w out) = rw_body w ++ [ackBody]
      /\ rw_sent (Served_w out)
         = Header_Set "Content-Type" "application/json" (Ctx_RespHeader ctx0)
      /\ Request_Body (Served_r out) = BodyBytes (Ctx_Body ctx0)).
Proof.
  intros h w r σ ctx0 inv.
  split; [reflexivity|]. split; [reflexivity|]. split; [reflexivity|].
  split; [reflexivity|]. split; [reflexivity|].
  exact (ServeHTTP_without_route Sample.pkg Sample.unmarshal h w r σ ctx0 ctx0 σ inv
           eq_refl eq_refl eq_refl eq_refl eq_refl).
Defined.

Lemma ServeHTTP_publishes_final_body_witness :
  let rt := Sample.publisherRoute true in
  let h := Sample.handler [Cases.setRoute rt] in
  let w := newResponseWriter false in
  let r := Sample.request in
  let σ := Sample.world in
  let ctx0 := Cases.served_context h in
  let ctx' := Ctx_with_Route (Some rt) ctx0 in
  let inv := [(Cases.setRoute rt, None)] in
  stepCtx h (stamped h r) (rw_header w) = inr ctx0
  /\ runSteps (steps h) ctx0 σ [] = (None, ctx', σ, inv)
  /\ Ctx_Route ctx' = Some rt /\ ActAsProxy rt = true /\ TargetType rt = "publisher"
  /\ publisher h = Some Sample.okPublisher
  /\ (let out := ServeHTTP Sample.pkg Sample.unmarshal h w r σ in
      trace (Served_world out)
      = trace σ ++ [CallPublish (PublisherID rt) (Ctx_Body ctx')]
      /\ hooks (Served_world out) = hooks σ
      /\ List.map fst (Served_invoked out) = steps h).
Proof.
  intros rt h w r σ ctx0 ctx' inv.
  split; [reflexivity|]. split; [reflexivity|]. split; [reflexivity|].
  split; [reflexivity|]. split; [reflexivity|]. split; [reflexivity|].
  exact (ServeHTTP_publishes_final_body Sample.pkg Sample.unmarshal h w r σ ctx0 ctx' σ inv
           rt Sample.okPublisher eq_refl eq_refl eq_refl eq_refl eq_refl eq_refl).
Defined.

Lemma route_unservable_witness :
  let rt := Sample.msgqRoute in
  let ctx := Sample.stepContext_with rt SlotHooks [] in
  let w := newResponseWriter false in
  let pb := Some Sample.okPublisher in
  ActAsProxy rt = true
  /\ ((TargetType rt <> "url" /\ TargetType rt <> "publisher")
      \/ (TargetType rt = "publisher" /\ pb = None))
  /\ fresh w
  /\ (let '(ctx', w', σ') :=
        route Sample.pkg Sample.unmarshal ctx rt w pb Sample.client Sample.world in
      ctx' = ctx /\ σ' = Sample.world
      /\ rw_status w' = Some 500%Z
      /\ rw_body w'
         = rw_body w
           ++ [nackBody "Internal Server Error"
                 ("Internal server error, MessageID: "
                  ++ Response.fmt_MsgID (Context_MsgID (Ctx_Context ctx)))]).
Proof.
  intros rt ctx w pb.
  assert (Hcase : (TargetType rt <> "url" /\ TargetType rt <> "publisher")
                  \/ (TargetType rt = "publisher" /\ pb = None)).
  { left. split; discriminate. }
  split; [reflexivity|]. split; [exact Hcase|]. split; [exact fresh_new|].
  exact (route_unservable Sample.pkg Sample.unmarshal ctx rt w pb Sample.client
           Sample.world eq_refl Hcase fresh_new).
Defined.

Lemma ServeHTTP_proxies_final_body_witness :
  let rt := Cases.urlRoute in
  let h := Sample.handler [Cases.setRoute rt] in
  let w := newResponseWriter false in
  let r := Sample.request in
  let σ := Sample.world in
  let ctx0 := Cases.served_context h in
  let ctx' := Ctx_with_Route (Some rt) ctx0 in
  let inv := [(Cases.setRoute rt, None)] in
  stepCtx h (stamped h r) (rw_header w) = inr ctx0
  /\ runSteps (steps h) ctx0 σ [] = (None, ctx', σ, inv)
  /\ Ctx_Route ctx' = Some rt /\ ActAsProxy rt = true /\ TargetType rt = "url"
  /\ (let out := ServeHTTP Sample.pkg Sample.unmarshal h w r σ in
      hooks (Served_world out) = hooks σ
      /\ exists forwarded,
           trace (Served_world out) = trace σ ++ [CallReverseProxy Cases.bppURL forwarded]
           /\ Request_Body forwarded = BodyBytes (Ctx_Body ctx')
           /\ Header_Get "X-Forwarded-Host" (Request_Header forwarded)
              = Request_Host (Ctx_Request ctx')
           /\ Request_Header forwarded !! "X-Module-Name" = None
           /\ Request_Header forwarded !! "X-Role" = None
           /\ (forall k, k <> "X-Forwarded-Host" -> k <> "X-Module-Name" ->
                 k <> "X-Role" ->
                 Request_Header forwarded !! k
                 = Request_Header (Ctx_Request ctx') !! k)).
Proof.
  intros rt h w r σ ctx0 ctx' inv.
  split; [reflexivity|]. split; [reflexivity|]. split; [reflexivity|].
  split; [reflexivity|]. split; [reflexivity|].
  exact (ServeHTTP_proxies_final_body Sample.pkg Sample.unmarshal h w r σ ctx0 ctx' σ inv
           rt eq_refl eq_refl eq_refl eq_refl eq_refl).
Defined.

Lemma route_async_delivers_nothing_witness :
  let rt := Cases.asyncMsgqRoute in
  let ctx := Sample.stepContext_with rt SlotHooks [] in
  let w := newResponseWriter false in
  let pb := Some Sample.okPublisher in
  ActAsProxy rt = false /\ Ctx_Route ctx = Some rt
  /\ ((TargetType rt <> "url" /\ TargetType rt <> "publisher")
      \/ (TargetType rt = "publisher" /\ pb = None))
  /\ fresh w
  /\ Context_PostResponse (Request_Context (Ctx_Request ctx)) = SlotHooks
  /\ (let hook := {| Hook_ctx := ctx; Hook_pb := pb; Hook_httpClient := Sample.client |} in
      let '(_, w', σ') :=
        route Sample.pkg Sample.unmarshal ctx rt w pb Sample.client Sample.world in
      rw_status w' = Some 200%Z
      /\ hooks σ' = hooks Sample.world ++ [hook]
      /\ trace σ' = trace Sample.world
      /\ forall σ1, runHook hook σ1 = σ1).
Proof.
  intros rt ctx w pb.
  assert (Hcase : (TargetType rt <> "url" /\ TargetType rt <> "publisher")
                  \/ (TargetType rt = "publisher" /\ pb = None)).
  { left. split; discriminate. }
  split; [reflexivity|]. split; [reflexivity|]. split; [exact Hcase|].
  split; [exact fresh_new|]. split; [reflexivity|].
  exact (route_async_delivers_nothing Sample.pkg Sample.unmarshal ctx rt w pb Sample.client
           Sample.world eq_refl eq_refl Hcase fresh_new eq_refl).
Defined.

Lemma signStep_failure_witness :
  let s := {| signStep_signer := Cases.brokenSigner;
              signStep_km := Sample.keyManager |} in
  let ctx := Sample.stepContext in
  let σ := Sample.straddling_world in
  let e := wrapError "failed to sign request: %w" (errorString "hsm unavailable") in
  let σ' := {| trace := [CallKeyset "bap.example";
                         CallSign "{}" "private-key" 1700000000 1700000301];
               now := Sample.straddling_clock; ticks := 2; hooks := [] |} in
  signStep_Run Sample.pkg s ctx σ = (Some e, ctx, σ')
  /\ (let created := time_Unix (now σ (ticks σ)) in
      let expires := time_Unix (time_Add (now σ (S (ticks σ))) (5 * Minute)) in
      ctx = ctx
      /\ ((Ctx_SubID ctx = EmptyString
           /\ e = BadReqErr (errorString "subscriberID not set") /\ σ' = σ)
          \/ (exists err,
                Ctx_SubID ctx <> EmptyString
                /\ KeyManager_Keyset (signStep_km s) (Ctx_SubID ctx) = inl err
                /\ e = wrapError "failed to get signing key: %w" err
                /\ trace σ' = trace σ ++ [CallKeyset (Ctx_SubID ctx)]
                /\ ticks σ' = ticks σ)
          \/ (exists keySet err,
                Ctx_SubID ctx <> EmptyString
                /\ KeyManager_Keyset (signStep_km s) (Ctx_SubID ctx) = inr keySet
                /\ Signer_Sign (signStep_signer s) (Ctx_Body ctx) (SigningPrivate keySet)
                     created expires = inl err
                /\ e = wrapError "failed to sign request: %w" err
                /\ trace σ' = trace σ
                              ++ [CallKeyset (Ctx_SubID ctx);
                                  CallSign (Ctx_Body ctx) (SigningPrivate keySet)
                                    created expires]
                /\ ticks σ' = S (S (ticks σ))))).
Proof.
  intros s ctx σ e σ'.
  assert (Hrun : signStep_Run Sample.pkg s ctx σ = (Some e, ctx, σ')).
  { vm_compute. reflexivity. }
  split; [exact Hrun|].
  exact (signStep_failure Sample.pkg s ctx ctx σ σ' e Hrun).
Defined.

Lemma signStep_sets_one_header_witness :
  let s := Cases.signConfig in
  let ctx := Sample.stepContext in
  let σ := Sample.straddling_world in
  let ctx' := snd (fst Cases.signed) in
  let σ' := snd Cases.signed in
  signStep_Run Sample.pkg s ctx σ = (None, ctx', σ')
  /\ (let name := auth_header_of_role Sample.pkg (Ctx_Role ctx) in
      (exists value, Request_Header (Ctx_Request ctx') !! name = Some [value])
      /\ (forall k, k <> name ->
            Request_Header (Ctx_Request ctx') !! k = Request_Header (Ctx_Request ctx) !! k)
      /\ Request_Cookies (Ctx_Request ctx') = Request_Cookies (Ctx_Request ctx)
      /\ Ctx_Body ctx' = Ctx_Body ctx /\ Ctx_SubID ctx' = Ctx_SubID ctx
      /\ Ctx_RespHeader ctx' = Ctx_RespHeader ctx /\ Ctx_Route ctx' = Ctx_Route ctx).
Proof.
  intros s ctx σ ctx' σ'. split; [reflexivity|].
  exact (signStep_sets_one_header Sample.pkg s ctx ctx' σ σ' eq_refl).
Defined.

Lemma signStep_header_parses_witness :
  let s := Cases.signConfig in
  let ctx := Sample.stepContext in
  let σ := Sample.straddling_world in
  let ctx' := snd (fst Cases.signed) in
  let σ' := snd Cases.signed in
  let keySet := Cases.sampleKeyset in
  signStep_Run Sample.pkg s ctx σ = (None, ctx', σ')
  /\ KeyManager_Keyset (signStep_km s) (Ctx_SubID ctx) = inr keySet
  /\ well_formed_id (Ctx_SubID ctx) /\ well_formed_id (UniqueKeyID keySet)
  /\ parseHeader (Header_Get (auth_header_of_role Sample.pkg (Ctx_Role ctx))
                    (Request_Header (Ctx_Request ctx')))
     = inl {| SubscriberID := Ctx_SubID ctx;
              UniqueID := UniqueKeyID keySet;
              Algorithm := "ed25519" |}.
Proof.
  intros s ctx σ ctx' σ' keySet.
  assert (H1 : well_formed_id (Ctx_SubID ctx)).
  { unfold well_formed_id. vm_compute. repeat split; reflexivity. }
  assert (H2 : well_formed_id (UniqueKeyID keySet)).
  { unfold well_formed_id. vm_compute. repeat split; reflexivity. }
  split; [reflexivity|]. split; [reflexivity|]. split; [exact H1|]. split; [exact H2|].
  exact (signStep_header_parses Sample.pkg s ctx ctx' σ σ' keySet eq_refl eq_refl H1 H2).
Defined.

Lemma signStep_window_bounds_witness :
  let s := Cases.signConfig in
  let ctx := Sample.stepContext in
  let σ := Sample.straddling_world in
  let ctx' := snd (fst Cases.signed) in
  let σ' := snd Cases.signed in
  signStep_Run Sample.pkg s ctx σ = (None, ctx', σ')
  /\ (now σ (ticks σ) <= now σ (S (ticks σ)) < now σ (ticks σ) + 1000000000)%Z
  /\ exists keySet sign created expires,
       trace σ' = trace σ
                  ++ [CallKeyset (Ctx_SubID ctx);
                      CallSign (Ctx_Body ctx) (SigningPrivate keySet) created expires]
       /\ Header_Get (auth_header_of_role Sample.pkg (Ctx_Role ctx))
            (Request_Header (Ctx_Request ctx'))
          = generateAuthHeader (Ctx_SubID ctx) (UniqueKeyID keySet) created expires sign
       /\ (300 <= expires - created <= 301)%Z.
Proof.
  intros s ctx σ ctx' σ'.
  assert (Hclock : (now σ (ticks σ) <= now σ (S (ticks σ))
                    < now σ (ticks σ) + 1000000000)%Z).
  { simpl. lia. }
  split; [reflexivity|]. split; [exact Hclock|].
  exact (signStep_window_bounds Sample.pkg s ctx ctx' σ σ' eq_refl Hclock).
Defined.

Lemma validateSign_cookie_gate_witness :
  let s := Cases.validateSignConfig in
  let ctx := Cases.context_with "Signature" [("header_validation", "false")] in
  let σ := Sample.world in
  Cookie "header_validation" (Request_Cookies (Ctx_Request ctx)) = Some "false"
  /\ exists σ',
       validateSignStep_Run Sample.pkg s ctx σ = (None, ctx, σ')
       /\ trace σ' = trace σ ++ sign_metric (validateSignStep_metrics s) false
       /\ hooks σ' = hooks σ /\ ticks σ' = ticks σ.
Proof.
  intros s ctx σ. split; [reflexivity|].
  exact (validateSign_cookie_gate Sample.pkg s ctx σ eq_refl).
Defined.

Lemma validateSign_failure_shape_witness :
  let s := Cases.validateSignConfig in
  let ctx := Cases.context_with "Signature" [] in
  let σ := Sample.world in
  let ctx' := snd (fst Cases.rejected) in
  let σ' := snd Cases.rejected in
  let e := Cases.rejection in
  validateSignStep_Run Sample.pkg s ctx σ = (Some e, ctx', σ')
  /\ (exists cause, e = SignValidationErr (wrapError "failed to validate %s: %w" cause))
  /\ ctx' = Ctx_with_RespHeader
              (Header_Set (UnaAuthorizedHeaderGateway Sample.pkg)
                 (challenge (Ctx_SubID ctx)) (Ctx_RespHeader ctx)) ctx
  /\ Header_Get (AuthHeaderSubscriber Sample.pkg) (Request_Header (Ctx_Request ctx))
     <> EmptyString
  /\ Cookie "header_validation" (Request_Cookies (Ctx_Request ctx)) <> Some "false".
Proof.
  intros s ctx σ ctx' σ' e. split; [reflexivity|].
  exact (validateSign_failure_shape Sample.pkg s ctx ctx' σ σ' e eq_refl).
Defined.

Lemma validateSign_unparsable_header_witness :
  let s := Cases.validateSignConfig in
  let ctx := Cases.context_with "Signature" [] in
  let σ := Sample.world in
  let w := newResponseWriter false in
  let pe := errorString "keyId parameter not found in Authorization header" in
  Header_Get (AuthHeaderSubscriber Sample.pkg) (Request_Header (Ctx_Request ctx))
  <> EmptyString
  /\ Cookie "header_validation" (Request_Cookies (Ctx_Request ctx)) <> Some "false"
  /\ parseHeader (Header_Get (AuthHeaderSubscriber Sample.pkg)
                    (Request_Header (Ctx_Request ctx))) = inr pe
  /\ fresh w /\ UnaAuthorizedHeaderGateway Sample.pkg <> "Content-Type"
  /\ exists e ctx' σ',
       validateSignStep_Run Sample.pkg s ctx σ = (Some e, ctx', σ')
       /\ trace σ' = trace σ ++ sign_metric (validateSignStep_metrics s) true
       /\ let w' := Response.SendNack Sample.pkg (Context_MsgID (Ctx_Context ctx'))
                      (rw_with_header (Ctx_RespHeader ctx') w) e in
          rw_status w' = Some 401%Z
          /\ rw_sent w' !! UnaAuthorizedHeaderGateway Sample.pkg
             = Some [challenge (Ctx_SubID ctx)]
          /\ rw_body w' = rw_body w ++ [MarshalResponse
                                          (Response.nackResponse
                                             (Sign_BecknError Sample.pkg e))].
Proof.
  intros s ctx σ w pe.
  assert (Hh : Header_Get (AuthHeaderSubscriber Sample.pkg)
                 (Request_Header (Ctx_Request ctx)) <> EmptyString).
  { vm_compute. discriminate. }
  assert (Hc : Cookie "header_validation" (Request_Cookies (Ctx_Request ctx))
               <> Some "false").
  { vm_compute. discriminate. }
  assert (Hn : UnaAuthorizedHeaderGateway Sample.pkg <> "Content-Type").
  { vm_compute. discriminate. }
  split; [exact Hh|]. split; [exact Hc|]. split; [reflexivity|].
  split; [exact fresh_new|]. split; [exact Hn|].
  exact (validateSign_unparsable_header Sample.pkg s ctx σ w pe Hh Hc eq_refl fresh_new Hn).
Defined.

Lemma validateSign_call_protocol_witness :
  let s := Cases.validateSignConfig in
  let ctx := Cases.context_with Cases.goodHeader [] in
  let σ := Sample.world in
  let a := {| SubscriberID := "bap.example"; UniqueID := "k1"; Algorithm := "ed25519" |} in
  Header_Get (AuthHeaderSubscriber Sample.pkg) (Request_Header (Ctx_Request ctx))
  <> EmptyString
  /\ Cookie "header_validation" (Request_Cookies (Ctx_Request ctx)) <> Some "false"
  /\ parseHeader (Header_Get (AuthHeaderSubscriber Sample.pkg)
                    (Request_Header (Ctx_Request ctx))) = inl a
  /\ (let value := Header_Get (AuthHeaderSubscriber Sample.pkg)
                     (Request_Header (Ctx_Request ctx)) in
      let lookup := CallLookupNPKeys (SubscriberID a) (UniqueID a) in
      exists err ctx' σ',
        validateSignStep_Run Sample.pkg s ctx σ = (err, ctx', σ')
        /\ match KeyManager_LookupNPKeys (validateSignStep_km s)
                   (SubscriberID a) (UniqueID a) with
           | inl _ =>
               err <> None
               /\ trace σ' = trace σ ++ [lookup]
                             ++ sign_metric (validateSignStep_metrics s) true
           | inr key =>
               trace σ' = trace σ ++ [lookup; CallSignValidate (Ctx_Body ctx) value key]
                          ++ sign_metric (validateSignStep_metrics s)
                               (match err with Some _ => true | None => false end)
               /\ (err = None <->
                   SignValidator_Validate (validateSignStep_validator s)
                     (Ctx_Body ctx) value key = None)
               /\ (err = None -> ctx' = ctx)
           end).
Proof.
  intros s ctx σ a.
  assert (Hh : Header_Get (AuthHeaderSubscriber Sample.pkg)
                 (Request_Header (Ctx_Request ctx)) <> EmptyString).
  { vm_compute. discriminate. }
  assert (Hc : Cookie "header_validation" (Request_Cookies (Ctx_Request ctx))
               <> Some "false").
  { vm_compute. discriminate. }
  assert (Hp : parseHeader (Header_Get (AuthHeaderSubscriber Sample.pkg)
                              (Request_Header (Ctx_Request ctx))) = inl a).
  { vm_compute. reflexivity. }
  split; [exact Hh|]. split; [exact Hc|]. split; [exact Hp|].
  exact (validateSign_call_protocol Sample.pkg s ctx σ a Hh Hc Hp).
Defined.

Lemma addRoute_outcomes_witness :
  let s := Cases.addRouteConfig in
  let ctx := Sample.stepContext in
  let σ := Sample.world in
  let w := newResponseWriter false in
  fresh w
  /\ (let url := Request_URL (Ctx_Request ctx) in
      exists err ctx' σ',
        addRouteStep_Run s ctx σ = (err, ctx', σ')
        /\ match Router_Route (addRouteStep_router s) url (Ctx_Body ctx) (Ctx_Request ctx)
           with
           | inr route =>
               err = None
               /\ ctx' = Ctx_with_Route
                           (Some {| TargetType := TargetType route;
                                    PublisherID := PublisherID route;
                                    Route_URL := Route_URL route;
                                    ActAsProxy := ActAsProxy route |}) ctx
               /\ trace σ' = trace σ ++ [CallRoute url (Ctx_Body ctx)]
                             ++ route_metric (addRouteStep_metrics s) (TargetType route)
           | inl rerr =>
               err = Some (wrapError "failed to determine route: %w" rerr)
               /\ ctx' = ctx
               /\ trace σ' = trace σ ++ [CallRoute url (Ctx_Body ctx)]
               /\ forall formats e,
                    rerr = wraps formats e -> typed_leaf Sample.pkg e ->
                    rw_status (Response.SendNack Sample.pkg
                                 (Context_MsgID (Ctx_Context ctx)) w
                                 (wrapError "failed to determine route: %w" rerr))
                    = Some (status_of_typed e)
           end).
Proof.
  intros s ctx σ w. split; [exact fresh_new|].
  exact (addRoute_outcomes Sample.pkg s ctx σ w fresh_new).
Defined.

Lemma workbench_subscriber_is_signed_for_witness :
  let wb := Cases.receiveConfig in
  let s := Cases.signConfig in
  let ctx := Sample.stepContext in
  let σ := Sample.world in
  let r' := Cases.named_request (Ctx_Request ctx) in
  let value := "bpp.example" in
  OndcSteps.OndcWorkbench_WorkbenchReceiver (OndcSteps.workbenchReceiveStep_workbench wb)
    (Ctx_Request ctx) (Ctx_Body ctx) = (None, r')
  /\ Cookie "subscriber_id" (Request_Cookies r') = Some value
  /\ (let '(err, ctx1, _) := OndcSteps.workbenchReceiveStep_Run wb ctx in
      let '(err2, _, σ') := signStep_Run Sample.pkg s ctx1 σ in
      err = None
      /\ (value = EmptyString ->
          err2 = Some (BadReqErr (errorString "subscriberID not set")) /\ σ' = σ)
      /\ (value <> EmptyString ->
          exists rest, trace σ' = trace σ ++ CallKeyset value :: rest)).
Proof.
  intros wb s ctx σ r' value. split; [reflexivity|]. split; [reflexivity|].
  exact (workbench_subscriber_is_signed_for Sample.pkg wb s ctx σ r' value eq_refl eq_refl).
Defined.

Lemma initPlugins_keymanager_needs_cache_witness :
  let mgr := Cases.manager in
  let cfg := Cases.cfg_without_cache in
  let h := Builder.noPlugins unit unit unit in
  let c := Cases.config "keymanager" in
  Builder.Cfg_KeyManager cfg = Some c
  /\ (Builder.Cfg_Cache cfg = None
      \/ exists cc, Builder.Cfg_Cache cfg = Some cc
                    /\ Builder.Mgr_Cache _ _ _ mgr cc = inr None)
  /\ (let '(err, _, log) := Builder.initPlugins mgr cfg h in
      err <> None
      /\ (forall id, ~ In (Builder.Load "KeyManager" id) log)
      /\ ((forall rc, Builder.Cfg_Registry cfg = Some rc ->
             exists r, Builder.Mgr_Registry _ _ _ mgr rc = inr r) ->
          err = Some (errorString ("failed to load KeyManager plugin ("
                                   ++ Builder.Config_ID c
                                   ++ "): Cache plugin not configured"))
          /\ log = Plans.plannedCall "Cache" (Builder.Cfg_Cache cfg)
                   ++ Plans.plannedCall "Registry" (Builder.Cfg_Registry cfg))).
Proof.
  intros mgr cfg h c.
  assert (Hc : Builder.Cfg_Cache cfg = None
               \/ exists cc, Builder.Cfg_Cache cfg = Some cc
                             /\ Builder.Mgr_Cache _ _ _ mgr cc = inr None).
  { left. reflexivity. }
  split; [reflexivity|]. split; [exact Hc|].
  exact (initPlugins_keymanager_needs_cache unit unit unit mgr cfg h c eq_refl Hc).
Defined.

Lemma validateSchema_statuses_witness :
  let v := Sample.validator_state in
  let ctx := Cases.schema_context Sample.doc_rejected in
  let σ := Sample.world in
  let w := newResponseWriter false in
  (forall path cerr, Sample.Compile path = inl cerr -> unrecognized Sample.pkg cerr)
  /\ fresh w
  /\ (let '(err, ctx', _) :=
        validateSchemaStep_Run
          {| validateSchemaStep_validator :=
               validatorPlugin unit Sample.unmarshal_payload Sample.unmarshal_any
                 Sample.path_Base Sample.ToLower Sample.Compile Sample.schema_Validate v;
             validateSchemaStep_metrics := true |} ctx σ in
      ctx' = ctx
      /\ exists e,
           err = Some e
           /\ rw_status (Response.SendNack Sample.pkg (Context_MsgID (Ctx_Context ctx))
                           w e) = Some 200%Z).
Proof.
  intros v ctx σ w.
  assert (Hc : forall path cerr,
            Sample.Compile path = inl cerr -> unrecognized Sample.pkg cerr).
  { intros path cerr H. discriminate H. }
  split; [exact Hc|]. split; [exact fresh_new|].
  exact (validateSchema_statuses Sample.pkg unit Sample.unmarshal_payload
           Sample.unmarshal_any Sample.path_Base Sample.ToLower Sample.Compile
           Sample.schema_Validate v true ctx σ w Hc fresh_new).
Defined.

Lemma indexed_schema_is_validated_against_witness :
  let schemaDir := "schemas" in
  let entries := Cases.tree in
  let files := Cases.schema_index in
  let p := Cases.retail_payload in
  let url := "/bap/receiver/search" in
  let data := Sample.doc_rejected in
  let path := "schemas/retail/v1.1.0/search.json" in
  let items := SchemaIndex.itemsOfEntries Cases.Join schemaDir [] entries in
  let d := GoStrings.ReplaceAll (Sample.ToLower (SchemaValidator.Domain p)) ":" "_" in
  let ver := ("v" ++ (if String.eqb (SchemaValidator.Version p) EmptyString
                      then SchemaValidator.CoreVersion p
                      else SchemaValidator.Version p))%string in
  let e := Sample.path_Base url in
  SchemaIndex.initialise Cases.Join schemaDir (SchemaIndex.Directory None entries)
  = inr files
  /\ Sample.unmarshal_payload data = inr p
  /\ SchemaValidator.Domain p <> EmptyString
  /\ (SchemaValidator.Version p <> EmptyString
      \/ SchemaValidator.CoreVersion p <> EmptyString)
  /\ GoStrings.TrimSpace d = d /\ GoStrings.TrimSpace ver = ver
  /\ GoStrings.TrimSpace (e ++ ".json") = (e ++ ".json")%string
  /\ In (SchemaIndex.JsonFile [d; ver; (e ++ ".json")%string] path) items
  /\ (forall parts' path',
        In (SchemaIndex.JsonFile parts' path') items ->
        SchemaIndex.keyOf parts' = Some (d ++ "_" ++ ver ++ "_" ++ e)%string ->
        path' = path)
  /\ path = Cases.Join (Cases.Join (Cases.Join schemaDir d) ver) (e ++ ".json")
  /\ (forall cerr,
        Sample.Compile path = inl cerr ->
        fst (SchemaValidator.Validate unit Sample.unmarshal_payload Sample.unmarshal_any
               Sample.path_Base Sample.ToLower Sample.Compile Sample.schema_Validate
               {| SchemaValidator.schemaCache := ∅; SchemaValidator.schemaFiles := files |}
               url data)
        = Some (BadReqErr
                  (wrapError "failed to compile JSON schema from file %s: %w" cerr)))
  /\ (forall schema j,
        Sample.Compile path = inr schema -> Sample.unmarshal_any data = inr j ->
        fst (SchemaValidator.Validate unit Sample.unmarshal_payload Sample.unmarshal_any
               Sample.path_Base Sample.ToLower Sample.Compile Sample.schema_Validate
               {| SchemaValidator.schemaCache := ∅; SchemaValidator.schemaFiles := files |}
               url data)
        = match Sample.schema_Validate schema j with
          | SchemaValidator.Valid => None
          | SchemaValidator.ValidationError causes =>
              Some (SchemaValidationErr (List.map errorOfCause causes))
          | SchemaValidator.OtherError text =>
              Some (errorString ("validation failed: " ++ text))
          end).
Proof.
  intros schemaDir entries files p url data path items d ver e.
  assert (H1 : SchemaIndex.initialise Cases.Join schemaDir
                 (SchemaIndex.Directory None entries) = inr files).
  { vm_compute. reflexivity. }
  assert (H2 : Sample.unmarshal_payload data = inr p).
  { vm_compute. reflexivity. }
  assert (H3 : SchemaValidator.Domain p <> EmptyString).
  { vm_compute. discriminate. }
  assert (H4 : SchemaValidator.Version p <> EmptyString
               \/ SchemaValidator.CoreVersion p <> EmptyString).
  { left. vm_compute. discriminate. }
  assert (H5 : GoStrings.TrimSpace d = d).
  { vm_compute. reflexivity. }
  assert (H6 : GoStrings.TrimSpace ver = ver).
  { vm_compute. reflexivity. }
  assert (H7 : GoStrings.TrimSpace (e ++ ".json") = (e ++ ".json")%string).
  { vm_compute. reflexivity. }
  assert (H8 : In (SchemaIndex.JsonFile [d; ver; (e ++ ".json")%string] path) items).
  { vm_compute. left. reflexivity. }
  assert (H9 : forall parts' path',
            In (SchemaIndex.JsonFile parts' path') items ->
            SchemaIndex.keyOf parts' = Some (d ++ "_" ++ ver ++ "_" ++ e)%string ->
            path' = path).
  { intros parts' path' Hin _. vm_compute in Hin. destruct Hin as [Hin|[]].
    inversion Hin. reflexivity. }
  split; [exact H1|]. split; [exact H2|]. split; [exact H3|]. split; [exact H4|].
  split; [exact H5|]. split; [exact H6|]. split; [exact H7|]. split; [exact H8|].
  split; [exact H9|].
  exact (indexed_schema_is_validated_against Cases.Join unit Sample.unmarshal_payload
           Sample.unmarshal_any Sample.path_Base Sample.ToLower Sample.Compile
           Sample.schema_Validate schemaDir entries files p url data path
           H1 H2 H3 H4 H5 H6 H7 H8 H9).
Defined.

(** A file below a directory that is named like a schema gets the key of
    that schema; the index keeps the file met last and reports nothing. *)
Example index_key_collision :
  SchemaIndex.initialise Cases.Join "schemas"
    (SchemaIndex.Directory None
       [SchemaIndex.Dir "retail" None
          [SchemaIndex.Dir "v1.1.0" None
             [SchemaIndex.Dir "search" None [SchemaIndex.File "extra.json"];
              SchemaIndex.File "search.json"]]])
  = inr {[ "retail_v1.1.0_search" := "schemas/retail/v1.1.0/search.json" ]}.
Proof. vm_compute. reflexivity. Qed.

(** The sample manager and a configuration that names the built-in steps
    and one custom step: the handler gets the four steps in the configured
    order. *)
Example initSteps_sample :
  let h :=
    snd (fst (Builder.initPlugins Cases.manager
                {| Builder.Cfg_Cache := Some (Cases.config "cache");
                   Builder.Cfg_Registry := None;
                   Builder.Cfg_KeyManager := Some (Cases.config "keymanager");
                   Builder.Cfg_SignValidator := Some (Cases.config "signvalidator");
                   Builder.Cfg_SchemaValidator := None;
                   Builder.Cfg_Router := Some (Cases.config "router");
                   Builder.Cfg_Publisher := None;
                   Builder.Cfg_Signer := Some (Cases.config "signer");
                   Builder.Cfg_TransportWrapper := None;
                   Builder.Cfg_OndcValidator := None;
                   Builder.Cfg_OndcWorkbench := None;
                   Builder.Cfg_Steps := [Cases.config "audit"] |}
                (Builder.noPlugins unit unit unit))) in
  Builder.initSteps false (fun s _ _ => inr s) Cases.manager h "bapTxnReceiver"
    [Cases.config "audit"] ["validateSign"; "audit"; "addRoute"; "sign"]
  = (None,
     [Builder.BuiltValidateSign
        {| validateSignStep_validator := Sample.signValidator;
           validateSignStep_km := Sample.keyManager;
           validateSignStep_metrics := false |};
      Builder.BuiltCustom (Some Sample.passStep);
      Builder.BuiltAddRoute
        {| addRouteStep_router := Cases.lostRouter; addRouteStep_metrics := false |};
      Builder.BuiltSign
        {| signStep_signer := Sample.signer; signStep_km := Sample.keyManager |}],
     [Builder.Load "Step" "audit"]).
Proof. vm_compute. reflexivity. Qed.

End FurtherExamples.
